(** * Connectors of the AI orchestration extension

    A shallow embedding of the two example connectors of the repository
    (the message-RPC connector [CustomMCPConnector] with its WebSocket client
    [CustomMCPClient], and the plugin-command connector [ContinueConnector]),
    of the capability probe [testContinueCapabilities], and of the routing
    step of the orchestration core.

    Conventions.
    - A JavaScript [number] that holds milliseconds or a retry budget is a [Z];
      the request counter, which starts at 0 and is only ever incremented, is
      an [N] (exact below 2^53, far beyond any run).
    - An [async] function is a function from the state it can touch (and the
      behaviour of the remote side, given as an oracle) to an [Outcome]:
      it returns, it throws, or its promise is never settled.
    - [x || d] on an optional number is [or_default]: [undefined] and [0] are
      both falsy. *)

From Stdlib Require Import ZArith List String Ascii Sorted Permutation Lia.
From stdpp Require Import base numbers option list strings pretty gmap sorting.

Local Open Scope string_scope.
Local Open Scope Z_scope.
Local Open Scope list_scope.

(** ** JavaScript values, errors and outcomes *)

Module Js.

Record CustomMCPTool := {
  name : string;
  description : string;
  inputSchema : string;
  outputSchema : string
}.

(** The dynamically typed values that cross the connectors ([any] in the
    source): what a server puts in [result], what ends up in [data] and
    [metadata]. [ToolsObject l] is an object whose [tools] member is the
    tool array [l]; every other object is an [Obj]. *)
#[warnings="-register-all"] Inductive JsValue :=
| Undefined
| Str (s : string)
| Num (z : Z)
| ToolsObject (tools : list CustomMCPTool)
| Obj (fields : list (string * JsValue)).

(** [error.constructor.name] and [error.message]. *)
Record JsError := { errorType : string; message : string }.

Definition Error (msg : string) : JsError :=
  {| errorType := "Error"; message := msg |}.
Definition TypeError (msg : string) : JsError :=
  {| errorType := "TypeError"; message := msg |}.

(** What a [throw] carries: an error object, or [undefined] (the value of an
    unassigned [let lastError]). *)
Inductive Thrown :=
| ThrownError (e : JsError)
| ThrownUndefined.

Inductive Outcome (A : Type) :=
| Returned (a : A)
| Threw (t : Thrown)
| Hung.
Arguments Returned {A} a.
Arguments Threw {A} t.
Arguments Hung {A}.

(** [x || d] for an optional number. *)
Definition or_default (x : option Z) (d : Z) : Z :=
  match x with
  | Some v => if Z.eqb v 0 then d else v
  | None => d
  end.

(** [s || d] for an optional string (the empty string is falsy). *)
Definition or_default_str (x : option string) (d : string) : string :=
  match x with
  | Some "" => d
  | Some s => s
  | None => d
  end.

(** *** Case-insensitive search: [/pattern/i.test(s)] for a literal pattern *)

Definition lower (c : ascii) : ascii :=
  let n := nat_of_ascii c in
  if (Nat.leb 65 n && Nat.leb n 90)%bool then ascii_of_nat (n + 32) else c.

Definition same_char_i (a b : ascii) : bool :=
  bool_decide (lower a = lower b).

Fixpoint starts_with_i (pattern s : string) : bool :=
  match pattern, s with
  | EmptyString, _ => true
  | String _ _, EmptyString => false
  | String a p, String b s' => same_char_i a b && starts_with_i p s'
  end.

Fixpoint test_i (pattern s : string) : bool :=
  starts_with_i pattern s ||
  match s with
  | EmptyString => false
  | String _ s' => test_i pattern s'
  end.

(** [s.replace(/^http/, 'ws')] *)
Definition replace_http_ws (s : string) : string :=
  match s with
  | String "h" (String "t" (String "t" (String "p" rest))) => "ws" +:+ rest
  | _ => s
  end.

(** [l.join(sep)] *)
Fixpoint join (sep : string) (l : list string) : string :=
  match l with
  | [] => ""
  | [x] => x
  | x :: rest => x +:+ sep +:+ join sep rest
  end.

(** The response every connector hands back, with the members that the
    object literals of the connectors give it ([ToolResponse] itself is
    declared in the [types] module, which is not among the sources). A key
    that a literal does not have is [None]. *)
Record ToolResponse := {
  success : bool;
  data : option JsValue;
  error : option string;
  toolId : string;
  metadata : list (string * JsValue)
}.

(** The uniform shape: a success carries a payload and no error, a failure
    an error and no payload. *)
Definition uniform_shape (r : ToolResponse) : Prop :=
  if success r then is_Some (data r) ∧ error r = None
  else data r = None ∧ is_Some (error r).

(** Modelled from the spec: the declaration of [Task] (imported from the
    extension's [types] module) is not among the sources. The fields
    [task_type], [task_description], [task_language] and [task_complexity]
    are the ones the connectors read; [task_deadline] is the deadline that
    the design gives every task, in ms from the start of the invocation. *)
Record Task := {
  task_type : string;
  task_description : string;
  task_language : option string;
  task_complexity : option string;
  task_deadline : Z
}.

End Js.
Import Js.

(** ** The WebSocket client of the message-RPC connector *)

Module Client.

Inductive ReadyState := CONNECTING | OPEN | CLOSING | CLOSED.

#[global] Instance ReadyState_eq_dec : EqDecision ReadyState.
Proof. solve_decision. Defined.

Record ClientConfig := {
  endpoint : string;
  apiKey : option string;
  timeout : Z
}.

(** The workspace context, with the members the connectors read, as it is
    sent along with a tool call. *)
Record FileInfo := { path : string; content : string; language : string }.
Record ProjectInfo := {
  type : string;
  technologies : list string;
  dependencies : list string
}.
Record WorkspaceContext := {
  openFiles : list FileInfo;
  selection : option string;
  projectInfo : ProjectInfo;
  workspaceRoot : string
}.

Record CallArguments := {
  arg_description : string;
  arg_context : WorkspaceContext;
  arg_language : option string;
  arg_complexity : option string
}.

Inductive Params :=
| NoParams
| CallParams (tool : string) (arguments : CallArguments).

Record Request := { method : string; params : Params }.

(** A JSON-RPC message received from the server. [msg_error] is the
    [message] of its [error] member when it has one. An [id] that is missing
    or is not a number is an id that no request was registered under; [0] is
    falsy in [message.id && ...]. *)
Record Message := {
  msg_id : N;
  msg_error : option string;
  msg_result : JsValue;
  msg_tokensUsed : option Z
}.

(** The [{resolve, reject}] pair stored for a request settles the promise
    that the call of [request] returned. *)
Record Callbacks := { promise : N }.

Record CustomMCPClient := {
  config : ClientConfig;
  ws : option ReadyState;
  requestId : N;
  pendingRequests : gmap N Callbacks
}.

(** What the client does to the outside and to its table, in program order. *)
Inductive Effect :=
| Opened (url : string)               (* new WebSocket(wsUrl) *)
| Sent (id : N) (r : Request)         (* ws.send(JSON.stringify(message)) *)
| SocketClosed                        (* ws.close() *)
| Registered (id : N)                 (* pendingRequests.set(id, ...) *)
| Deleted (id : N)                    (* pendingRequests.delete(id) *)
| Cleared                             (* pendingRequests.clear() *)
| Resolved (p : N) (m : Message)      (* pending.resolve(message) *)
| Rejected (p : N) (e : JsError)      (* pending.reject(error) *)
| Slept (ms : Z).                     (* await new Promise(r => setTimeout(r, ms)) *)

Definition new_client (cfg : ClientConfig) : CustomMCPClient :=
  {| config := cfg; ws := None; requestId := 0%N; pendingRequests := ∅ |}.

Definition set_ws (s : option ReadyState) (c : CustomMCPClient) : CustomMCPClient :=
  {| config := config c; ws := s; requestId := requestId c;
     pendingRequests := pendingRequests c |}.

Definition set_pending (t : gmap N Callbacks) (c : CustomMCPClient) : CustomMCPClient :=
  {| config := config c; ws := ws c; requestId := requestId c;
     pendingRequests := t |}.

(** [pendingRequests.values()] with the keys: a [Map] is visited in the
    order of insertion, which is the order of the ids, since [request] is the
    only code that inserts and every id it takes is above the earlier ones. *)
Definition id_le (a b : N * Callbacks) : Prop := (a.1 ≤ b.1)%N.
#[global] Instance id_le_dec : RelDecision id_le.
Proof. intros a b. unfold id_le. apply _. Defined.
Definition entries (t : gmap N Callbacks) : list (N * Callbacks) :=
  merge_sort id_le (map_to_list t).

(** [rejectPendingRequests]: every entry is rejected, then the table is
    cleared. *)
Definition rejectPendingRequests (error : JsError) (c : CustomMCPClient)
  : CustomMCPClient * list Effect :=
  (set_pending ∅ c,
   ((λ kv : N * Callbacks, Rejected (promise kv.2) error)
      <$> entries (pendingRequests c)) ++ [Cleared]).

(** [close] *)
Definition close (c : CustomMCPClient) : CustomMCPClient * list Effect :=
  let '(c1, fx1) :=
    match ws c with
    | Some _ => (set_ws None c, [SocketClosed])
    | None => (c, [])
    end in
  let '(c2, fx2) := rejectPendingRequests (Error "Client closing") c1 in
  (c2, fx1 ++ fx2).

(** [handleMessage] *)
Definition handleMessage (m : Message) (c : CustomMCPClient)
  : CustomMCPClient * list Effect :=
  if negb (N.eqb (msg_id m) 0) then
    match pendingRequests c !! msg_id m with
    | Some pending =>
        let c' := set_pending (delete (msg_id m) (pendingRequests c)) c in
        match msg_error m with
        | Some msg => (c', [Deleted (msg_id m); Rejected (promise pending) (Error msg)])
        | None => (c', [Deleted (msg_id m); Resolved (promise pending) m])
        end
    | None => (c, [])
    end
  else (c, []).

(** The synchronous part of [request]: the connection check, the fresh id,
    the registration and the send. *)
Definition request_send (r : Request) (c : CustomMCPClient)
  : JsError + (N * CustomMCPClient * list Effect) :=
  match ws c with
  | Some OPEN =>
      let id := N.succ (requestId c) in
      inr (id,
           {| config := config c; ws := ws c; requestId := id;
              pendingRequests := <[id := {| promise := id |}]> (pendingRequests c) |},
           [Registered id; Sent id r])
  | _ => inl (Error "MCP client not connected")
  end.

(** The timer callback that [request] installs for [id]. *)
Definition request_timer (id : N) (c : CustomMCPClient)
  : CustomMCPClient * list Effect :=
  match pendingRequests c !! id with
  | Some pending =>
      (set_pending (delete id (pendingRequests c)) c,
       [Deleted id; Rejected (promise pending) (Error "Request timeout")])
  | None => (c, [])
  end.

(** [ws.onclose]: the socket has closed. *)
Definition onclose (c : CustomMCPClient) : CustomMCPClient * list Effect :=
  rejectPendingRequests (Error "Connection closed")
    (set_ws (match ws c with Some _ => Some CLOSED | None => None end) c).

(** The synchronous part of [initialize] when [new WebSocket(wsUrl)]
    returns: the socket is created and stored. (When the constructor throws,
    nothing is stored and nothing else happens: [EInitializeThrows] below
    and [Await.initialize].) *)
Definition initialize_start (c : CustomMCPClient) : CustomMCPClient * list Effect :=
  (set_ws (Some CONNECTING) c, [Opened (replace_http_ws (endpoint (config c)))]).

(** The socket's [readyState] by the time [ws.onopen], respectively
    [ws.onerror], runs. *)
Definition onopen (c : CustomMCPClient) : CustomMCPClient :=
  set_ws (match ws c with Some _ => Some OPEN | None => None end) c.
Definition onerror (c : CustomMCPClient) : CustomMCPClient :=
  set_ws (match ws c with Some _ => Some CLOSED | None => None end) c.

(** *** The client as a reactive system

    JavaScript runs each callback to completion, so the life of a client is a
    sequence of the blocks above, in any order the environment chooses. *)
Inductive Event :=
| EInitialize
| EInitializeThrows
| EOpen
| EError
| ERequest (r : Request)
| ETimer (id : N)
| EMessage (m : Message)
| EClosed
| EClose.

Definition step (e : Event) (c : CustomMCPClient) : CustomMCPClient * list Effect :=
  match e with
  | EInitialize => initialize_start c
  | EInitializeThrows => (c, [])
  | EOpen => (onopen c, [])
  | EError => (onerror c, [])
  | ERequest r =>
      match request_send r c with
      | inr (_, c', fx) => (c', fx)
      | inl _ => (c, [])
      end
  | ETimer id => request_timer id c
  | EMessage m => handleMessage m c
  | EClosed => onclose c
  | EClose => close c
  end.

Fixpoint run (es : list Event) (c : CustomMCPClient) : CustomMCPClient * list Effect :=
  match es with
  | [] => (c, [])
  | e :: es' =>
      let '(c1, fx1) := step e c in
      let '(c2, fx2) := run es' c1 in
      (c2, fx1 ++ fx2)
  end.

(** The promises settled, and the ids sent, by a sequence of effects. *)
Definition settled_of (fx : Effect) : list N :=
  match fx with
  | Resolved p _ | Rejected p _ => [p]
  | _ => []
  end.
Definition settled (fx : list Effect) : list N := fx ≫= settled_of.

Definition sent_of (fx : Effect) : list N :=
  match fx with
  | Sent id _ => [id]
  | _ => []
  end.
Definition sent (fx : list Effect) : list N := fx ≫= sent_of.


(** The invariant that links a client to the effects it has had so far. *)
Record Inv (c : CustomMCPClient) (tr : list Effect) : Prop := {
  inv_fresh : NoDup (sent tr);
  inv_counter : ∀ id, id ∈ sent tr → (0 < id ≤ requestId c)%N;
  inv_once : NoDup (settled tr);
  inv_settled : ∀ p, p ∈ settled tr → p ∈ sent tr ∧ pendingRequests c !! p = None;
  inv_pending : ∀ id cb, pendingRequests c !! id = Some cb →
                promise cb = id ∧ id ∈ sent tr
}.


End Client.
Import Client.

(** ** The remote side and the awaited operations of the client *)

Module Await.

(** How the server treats a connection attempt and a request. A [delay] is
    the time in ms after which the event reaches the client; an event loses
    against a timer when it is not strictly earlier. What a socket does after
    the connection timer has fired is not tracked: a socket that has missed
    the timer is taken to stay as it is then. [construct url] is what
    [new WebSocket(url)] throws, if it throws: the constructor refuses a URL
    that it cannot parse or whose scheme is none of ws, wss, http, https. *)
Inductive Accept :=
| AcceptOpen (delay : Z)
| AcceptError (delay : Z)
| AcceptSilent.

Inductive Answer :=
| AnsMessage (delay : Z) (m : Message)
| AnsDrop (delay : Z)
| AnsSilent.

(** [accept n] is the fate of the n-th socket opened, [answer n id r] that of
    the n-th message put on a wire. *)
Record Server := {
  construct : string → option JsError;
  accept : nat → Accept;
  answer : nat → N → Request → Answer
}.

(** The clock ([Date.now()]) and everything done so far. *)
Record World := { now : Z; trace : list Effect }.

Definition emit (fx : list Effect) (w : World) : World :=
  {| now := now w; trace := trace w ++ fx |}.
Definition tick (ms : Z) (w : World) : World :=
  {| now := now w + ms; trace := trace w |}.

(** [setTimeout(f, t)] of Node.js, the platform of the extension host: a
    timer set to [t] ms fires after [timer t] ms, where a delay above
    2^31 - 1 ms or below 1 ms is set to 1 ms. What arrives after [delay] ms
    is in time for a timer set to [t] ms when it is there before the timer
    fires. *)
Definition TIMEOUT_MAX : Z := 2147483647.
Definition timer (t : Z) : Z :=
  if (1 <=? t) && (t <=? TIMEOUT_MAX) then t else 1.
Definition in_time (delay t : Z) : bool := (0 <=? delay) && (delay <? timer t).

Definition opened_of (fx : Effect) : list string :=
  match fx with
  | Opened url => [url]
  | _ => []
  end.
Definition opened (fx : list Effect) : list string := fx ≫= opened_of.

(** How the promise [p] was settled by [fx], if it was. *)
Fixpoint settlement (p : N) (fx : list Effect) : option (Message + JsError) :=
  match fx with
  | [] => None
  | Resolved q m :: fx' => if N.eqb p q then Some (inl m) else settlement p fx'
  | Rejected q e :: fx' => if N.eqb p q then Some (inr e) else settlement p fx'
  | _ :: fx' => settlement p fx'
  end.

Definition awaited (s : Message + JsError) : Outcome Message :=
  match s with
  | inl m => Returned m
  | inr e => Threw (ThrownError e)
  end.

Section WithServer.
Variable srv : Server.

(** [await client.initialize()]. When the constructor of the socket throws,
    the executor of the promise ends there: the promise is rejected with
    what was thrown, [this.ws] keeps its value, and neither a handler nor
    the connection timer is installed. *)
Definition initialize (c : CustomMCPClient) (w : World)
  : Outcome unit * CustomMCPClient * World :=
  match construct srv (replace_http_ws (endpoint (config c))) with
  | Some e => (Threw (ThrownError e), c, w)
  | None =>
      let '(c1, fx) := initialize_start c in
      let w1 := emit fx w in
      let t := timeout (config c) in
      let timed_out :=
        (Threw (ThrownError (Error "Connection timeout")), c1, tick (timer t) w1) in
      match accept srv (length (opened (trace w))) with
      | AcceptOpen d =>
          if in_time d t then (Returned (), onopen c1, tick d w1) else timed_out
      | AcceptError d =>
          if in_time d t
          then (Threw (ThrownError (Error "Failed to connect to MCP server")),
                onerror c1, tick d w1)
          else timed_out
      | AcceptSilent => timed_out
      end
  end.

(** What reaches the client between the send of request [id] and its timer
    (set to [t] ms), and after how long. *)
Definition arrival (r : Request) (id : N) (t : Z) (c1 : CustomMCPClient) (w : World)
  : CustomMCPClient * list Effect * Z :=
  match answer srv (length (sent (trace w))) id r with
  | AnsMessage d m =>
      if in_time d t then (handleMessage m c1, d) else (c1, [], timer t)
  | AnsDrop d =>
      if in_time d t then (onclose c1, d) else (c1, [], timer t)
  | AnsSilent => (c1, [], timer t)
  end.

(** [await client.request(r)]: the request is sent, the server's answer (if
    it comes in time) is handled, and the timer fires if the promise is still
    unsettled by then. *)
Definition request (r : Request) (c : CustomMCPClient) (w : World)
  : Outcome Message * CustomMCPClient * World :=
  match request_send r c with
  | inl e => (Threw (ThrownError e), c, w)
  | inr (id, c1, fx1) =>
      let t := timeout (config c) in
      let '(c2, fx2, d) := arrival r id t c1 w in
      match settlement id fx2 with
      | Some s => (awaited s, c2, tick d (emit (fx1 ++ fx2) w))
      | None =>
          let '(c3, fx3) := request_timer id c2 in
          let w3 := tick (timer t) (emit (fx1 ++ fx2 ++ fx3) w) in
          match settlement id fx3 with
          | Some s => (awaited s, c3, w3)
          | None => (Hung, c3, w3)
          end
      end
  end.

(** [await client.listTools()]: [response.result.tools]. A result without a
    tool array yields [undefined] ([None]). *)
Definition listTools (c : CustomMCPClient) (w : World)
  : Outcome (option (list CustomMCPTool)) * CustomMCPClient * World :=
  match request {| method := "tools/list"; params := NoParams |} c w with
  | (Returned m, c', w') =>
      (match msg_result m with
       | Undefined =>
           Threw (ThrownError
             (TypeError "Cannot read properties of undefined (reading 'tools')"))
       | ToolsObject l => Returned (Some l)
       | _ => Returned None
       end, c', w')
  | (Threw t, c', w') => (Threw t, c', w')
  | (Hung, c', w') => (Hung, c', w')
  end.

End WithServer.

(** Between two awaited operations of one caller no request is outstanding. *)
Definition quiet (c : CustomMCPClient) : Prop := pendingRequests c = ∅.

(** What the request [id] of a quiet, connected client comes to under the
    answer [a], when its timer is set to [t]: how its promise is settled,
    after how long, and whether the socket has closed. *)
Definition reply (t : Z) (id : N) (a : Answer) : (Message + JsError) * Z * bool :=
  let timed_out := (inr (Error "Request timeout"), timer t, false) in
  match a with
  | AnsMessage d m =>
      if in_time d t && N.eqb (msg_id m) id
      then (match msg_error m with
            | Some msg => inr (Error msg)
            | None => inl m
            end, d, false)
      else timed_out
  | AnsDrop d =>
      if in_time d t then (inr (Error "Connection closed"), d, true) else timed_out
  | AnsSilent => timed_out
  end.

(** The delays slept by a sequence of effects. *)
Definition slept_of (fx : Effect) : list Z :=
  match fx with
  | Slept ms => [ms]
  | _ => []
  end.
Definition slept (fx : list Effect) : list Z := fx ≫= slept_of.

End Await.
Import Await.

(** ** The message-RPC connector *)

Module MCP.

Record CustomMCPConfig := {
  cfg_endpoint : string;
  cfg_apiKey : option string;
  cfg_timeout : option Z;
  cfg_retryAttempts : option Z
}.

(** [Partial<CustomMCPConfig>] *)
Record Options := {
  opt_endpoint : option string;
  opt_apiKey : option string;
  opt_timeout : option Z;
  opt_retryAttempts : option Z
}.

Definition no_options : Options :=
  {| opt_endpoint := None; opt_apiKey := None;
     opt_timeout := None; opt_retryAttempts := None |}.

(** [createCustomMCPConfig]; [env] is [process.env.CUSTOM_MCP_API_KEY]. *)
Definition createCustomMCPConfig (env : option string) (options : Options)
  : CustomMCPConfig :=
  {| cfg_endpoint := or_default_str (opt_endpoint options) "ws://localhost:3003";
     cfg_apiKey :=
       match opt_apiKey options with
       | Some "" | None => env
       | Some key => Some key
       end;
     cfg_timeout := Some (or_default (opt_timeout options) 30000);
     cfg_retryAttempts := Some (or_default (opt_retryAttempts options) 3) |}.

Record CustomMCPConnector := {
  config : CustomMCPConfig;
  client : option CustomMCPClient;
  availableTools : option (list CustomMCPTool)
}.

(** [new CustomMCPConnector(config)] *)
Definition new_connector (cfg : CustomMCPConfig) : CustomMCPConnector :=
  {| config := cfg; client := None; availableTools := Some [] |}.

Definition set_client (c : option CustomMCPClient) (k : CustomMCPConnector)
  : CustomMCPConnector :=
  {| config := config k; client := c; availableTools := availableTools k |}.

Definition set_tools (t : option (list CustomMCPTool)) (k : CustomMCPConnector)
  : CustomMCPConnector :=
  {| config := config k; client := client k; availableTools := t |}.

(** The table of [mapTaskToMCPTool]. A key missing from it reads as a value
    that is the name of no tool. *)
Definition taskToToolMap : gmap string string :=
  list_to_map
    [("analysis", "code-analyzer");
     ("optimization", "performance-optimizer");
     ("security", "security-scanner");
     ("refactoring", "code-refactorer");
     ("documentation", "doc-generator")].

(** [mapTaskToMCPTool]; [find] on an [availableTools] that is [undefined]
    throws. *)
Definition mapTaskToMCPTool (task : Task) (k : CustomMCPConnector)
  : Outcome (option CustomMCPTool) :=
  match availableTools k with
  | None =>
      Threw (ThrownError
        (TypeError "Cannot read properties of undefined (reading 'find')"))
  | Some tools =>
      Returned
        match taskToToolMap !! task_type task with
        | Some toolName => List.find (λ tool, bool_decide (name tool = toolName)) tools
        | None => None
        end
  end.

(** [serializeContext] copies the fields it sends. *)
Definition serializeContext (context : WorkspaceContext) : WorkspaceContext :=
  {| openFiles :=
       (λ file, {| path := path file; content := content file;
                   language := language file |}) <$> openFiles context;
     selection := selection context;
     projectInfo :=
       {| type := type (projectInfo context);
          technologies := technologies (projectInfo context);
          dependencies := dependencies (projectInfo context) |};
     workspaceRoot := workspaceRoot context |}.

(** [isRetryableError] *)
Definition retryablePatterns : list string :=
  ["timeout"; "connection reset"; "server temporarily unavailable"; "rate limit"].

Definition isRetryableError (error : JsError) : bool :=
  existsb (λ pattern, test_i pattern (message error)) retryablePatterns.

Record RetryResponse := {
  response : Message;
  executionTime : Z;
  attempt : Z
}.

Definition throw_last {A} (lastError : option JsError) : Outcome A :=
  match lastError with
  | Some e => Threw (ThrownError e)
  | None => Threw ThrownUndefined
  end.

Section WithServer.
Variable srv : Server.

(** [connect]. The new client is stored before it is initialized, so a
    failed [initialize] or [listTools] leaves it in place. *)
Definition connect (k : CustomMCPConnector) (w : World)
  : Outcome CustomMCPClient * CustomMCPConnector * World :=
  match client k with
  | Some c => (Returned c, k, w)
  | None =>
      let c0 := new_client
        {| endpoint := cfg_endpoint (config k);
           apiKey := cfg_apiKey (config k);
           timeout := or_default (cfg_timeout (config k)) 30000 |} in
      match initialize srv c0 w with
      | (Returned _, c1, w1) =>
          match listTools srv c1 w1 with
          | (Returned tools, c2, w2) =>
              (Returned c2, set_tools tools (set_client (Some c2) k), w2)
          | (Threw t, c2, w2) => (Threw t, set_client (Some c2) k, w2)
          | (Hung, c2, w2) => (Hung, set_client (Some c2) k, w2)
          end
      | (Threw t, c1, w1) => (Threw t, set_client (Some c1) k, w1)
      | (Hung, c1, w1) => (Hung, set_client (Some c1) k, w1)
      end
  end.

(** The loop of [executeWithRetry]. [remaining] counts the values of
    [attempt] that still satisfy [attempt <= maxRetries]; when none is left
    the loop is over and [lastError] is thrown. *)
Fixpoint retry_loop (remaining : nat) (attempt maxRetries : Z) (r : Request)
    (lastError : option JsError) (c : CustomMCPClient) (w : World)
  : Outcome RetryResponse * CustomMCPClient * World :=
  match remaining with
  | O => (throw_last lastError, c, w)
  | S remaining' =>
      let startTime := now w in
      match request srv r c w with
      | (Returned m, c', w') =>
          (Returned {| response := m; executionTime := now w' - startTime;
                       attempt := attempt + 1 |}, c', w')
      | (Threw (ThrownError e), c', w') =>
          if (attempt <? maxRetries) && isRetryableError e
          then
            let delayMs := 2 ^ attempt * 1000 in
            retry_loop remaining' (attempt + 1) maxRetries r (Some e) c'
              (tick (timer delayMs) (emit [Slept delayMs] w'))
          else (Threw (ThrownError e), c', w')
      | (Threw ThrownUndefined, c', w') =>
          if attempt <? maxRetries
          then (Threw (ThrownError (TypeError
                  "Cannot read properties of undefined (reading 'message')")), c', w')
          else (Threw ThrownUndefined, c', w')
      | (Hung, c', w') => (Hung, c', w')
      end
  end.

Definition maxRetries (cfg : CustomMCPConfig) : Z :=
  or_default (cfg_retryAttempts cfg) 3.

(** [executeWithRetry] *)
Definition executeWithRetry (cfg : CustomMCPConfig) (r : Request)
    (c : CustomMCPClient) (w : World)
  : Outcome RetryResponse * CustomMCPClient * World :=
  retry_loop (Z.to_nat (maxRetries cfg + 1)) 0 (maxRetries cfg) r None c w.

Definition opt_value (o : option string) : JsValue :=
  match o with
  | Some s => Str s
  | None => Undefined
  end.
Definition opt_num (o : option Z) : JsValue :=
  match o with
  | Some z => Num z
  | None => Undefined
  end.

(** The [catch] block of [invoke]. Reading [error.message] off a thrown
    [undefined] throws in turn. *)
Definition invoke_catch (cfg : CustomMCPConfig) (t : Thrown) : Outcome ToolResponse :=
  match t with
  | ThrownError e =>
      Returned
        {| success := false; data := None; error := Some (message e);
           toolId := "custom-mcp";
           metadata := [("errorType", Str (errorType e));
                        ("retryAttempts", Num (or_default (cfg_retryAttempts cfg) 0))] |}
  | ThrownUndefined =>
      Threw (ThrownError (TypeError
        "Cannot read properties of undefined (reading 'message')"))
  end.

(** [invoke] *)
Definition invoke (task : Task) (context : WorkspaceContext)
    (k : CustomMCPConnector) (w : World)
  : Outcome ToolResponse * CustomMCPConnector * World :=
  match connect k w with
  | (Returned c, k1, w1) =>
      match mapTaskToMCPTool task k1 with
      | Returned None =>
          (invoke_catch (config k1) (ThrownError (Error
             ("No MCP tool available for task type: " +:+ task_type task))),
           k1, w1)
      | Returned (Some mcpTool) =>
          let mcpRequest :=
            {| method := "tools/call";
               params := CallParams (name mcpTool)
                 {| arg_description := task_description task;
                    arg_context := serializeContext context;
                    arg_language := task_language task;
                    arg_complexity := task_complexity task |} |} in
          match executeWithRetry (config k1) mcpRequest c w1 with
          | (Returned resp, c', w') =>
              (Returned
                 {| success := true;
                    data := Some (msg_result (response resp));
                    error := None;
                    toolId := "custom-mcp";
                    metadata := [("toolUsed", Str (name mcpTool));
                                 ("executionTime", Num (executionTime resp));
                                 ("tokensUsed", opt_num (msg_tokensUsed (response resp)))] |},
               set_client (Some c') k1, w')
          | (Threw t, c', w') =>
              (invoke_catch (config k1) t, set_client (Some c') k1, w')
          | (Hung, c', w') => (Hung, set_client (Some c') k1, w')
          end
      | Threw t => (invoke_catch (config k1) t, k1, w1)
      | Hung => (Hung, k1, w1)
      end
  | (Threw t, k1, w1) => (Threw t, k1, w1)
  | (Hung, k1, w1) => (Hung, k1, w1)
  end.

(** [testHealth] *)
Definition testHealth (k : CustomMCPConnector) (w : World)
  : Outcome bool * CustomMCPConnector * World :=
  match connect k w with
  | (Returned c, k1, w1) =>
      match request srv {| method := "ping"; params := NoParams |} c w1 with
      | (Returned pingResponse, c', w') =>
          (Returned
             match msg_result pingResponse with
             | Str s => bool_decide (s = "pong")
             | _ => false
             end,
           set_client (Some c') k1, w')
      | (Threw _, c', w') => (Returned false, set_client (Some c') k1, w')
      | (Hung, c', w') => (Hung, set_client (Some c') k1, w')
      end
  | (Threw _, k1, w1) => (Returned false, k1, w1)
  | (Hung, k1, w1) => (Hung, k1, w1)
  end.

End WithServer.

(** The delays of the first [k] retries that follow attempt number
    [attempt]: [Math.pow(2, attempt) * 1000] and so on. *)
Definition backoffs (attempt : Z) (k : nat) : list Z :=
  (λ i : nat, 2 ^ (attempt + Z.of_nat i) * 1000) <$> seq 0 k.

(** [disconnect] *)
Definition disconnect (k : CustomMCPConnector) (w : World)
  : CustomMCPConnector * World :=
  match client k with
  | Some c =>
      let '(_, fx) := close c in
      (set_client None k, emit fx w)
  | None => (k, w)
  end.

End MCP.

(** ** The plugin-command connector *)

Module Continue.

Record ContinueConfig := {
  enableChat : bool;
  enableEdit : bool;
  enableCompletion : bool;
  maxResponseTime : Z
}.

Record ContinueOptions := {
  opt_enableChat : option bool;
  opt_enableEdit : option bool;
  opt_enableCompletion : option bool;
  opt_maxResponseTime : option Z
}.

(** [createContinueConfig]: [x ?? d] *)
Definition createContinueConfig (options : ContinueOptions) : ContinueConfig :=
  {| enableChat := default true (opt_enableChat options);
     enableEdit := default true (opt_enableEdit options);
     enableCompletion := default true (opt_enableCompletion options);
     maxResponseTime := default 30000 (opt_maxResponseTime options) |}.

(** How a promise of the host ends. *)
Inductive Settles (A : Type) :=
| Fulfils (a : A)
| Rejects (e : JsError)
| Never.
Arguments Fulfils {A} a.
Arguments Rejects {A} e.
Arguments Never {A}.

Inductive Lookup :=
| Found
| NotFound
| LookupThrows (e : JsError).

Record Editor := {
  fileName : string;            (* editor.document.fileName *)
  selectedText : string;        (* editor.document.getText(editor.selection) *)
  selection_active : JsValue;   (* editor.selection.active *)
  selection_range : JsValue     (* editor.selection *)
}.

(** The editor host as the connector sees it. *)
Record Host := {
  getExtension : Lookup;        (* vscode.extensions.getExtension('Continue.continue') *)
  isActive : bool;              (* extension.isActive *)
  activate : Settles unit;      (* extension.activate() *)
  activeTextEditor : option Editor;
  executeCommand : string → string → Settles JsValue;
  getCommands : Settles (list string)
}.

Definition activated (h : Host) : Host :=
  {| getExtension := getExtension h; isActive := true; activate := activate h;
     activeTextEditor := activeTextEditor h; executeCommand := executeCommand h;
     getCommands := getCommands h |}.

(** A reference to the extension object of the host. *)
Inductive Extension := ContinueExtension.

Record ContinueConnector := {
  config : ContinueConfig;
  extension : option Extension;
  isInitialized : bool
}.

Definition new_connector (cfg : ContinueConfig) : ContinueConnector :=
  {| config := cfg; extension := None; isInitialized := false |}.

(** [connect] *)
Definition connect (k : ContinueConnector) (h : Host)
  : Outcome Extension * ContinueConnector * Host :=
  match extension k, isInitialized k with
  | Some e, true => (Returned e, k, h)
  | _, _ =>
      match getExtension h with
      | LookupThrows e => (Threw (ThrownError e), k, h)
      | NotFound =>
          (Threw (ThrownError (Error "Continue extension not found")),
           {| config := config k; extension := None;
              isInitialized := isInitialized k |}, h)
      | Found =>
          let k1 := {| config := config k; extension := Some ContinueExtension;
                       isInitialized := isInitialized k |} in
          let k2 := {| config := config k; extension := Some ContinueExtension;
                       isInitialized := true |} in
          if isActive h then (Returned ContinueExtension, k2, h)
          else
            match activate h with
            | Fulfils _ => (Returned ContinueExtension, k2, activated h)
            | Rejects e => (Threw (ThrownError e), k1, h)
            | Never => (Hung, k1, h)
            end
      end
  end.

Definition nl : string := String (ascii_of_nat 10) "".

Definition lines (l : list string) : string := join nl l.

(** [summarizeContext] *)
Definition summarizeContext (context : WorkspaceContext) : string :=
  lines
    (["Project: " +:+ type (projectInfo context);
      "Technologies: " +:+ join ", " (technologies (projectInfo context));
      "Open files: " +:+ pretty (length (openFiles context))]
     ++ match openFiles context with
        | [] => []
        | _ :: _ => ["Current files: " +:+ join ", " (path <$> openFiles context)]
        end).

(** [getAnalysisScope] *)
Definition getAnalysisScope (context : WorkspaceContext) : string :=
  match or_default_str (selection context) "", openFiles context with
  | String _ _, _ => "selected code"
  | "", [_] => "current file"
  | "", _ :: _ :: _ => "multiple open files"
  | "", [] => "project level"
  end.

(** [buildPlanningPrompt] *)
Definition buildPlanningPrompt (task : Task) (context : WorkspaceContext) : string :=
  lines
    ["Please help me plan the following:";
     task_description task;
     "";
     "Current project context:";
     "- Project type: " +:+ type (projectInfo context);
     "- Technologies: " +:+ join ", " (technologies (projectInfo context));
     "- Open files: " +:+ join ", " (path <$> openFiles context);
     "";
     "Please provide:";
     "1. High-level architecture approach";
     "2. Key components and their responsibilities";
     "3. Implementation steps";
     "4. Potential challenges and solutions";
     "";
     "Focus on " +:+ or_default_str (task_language task) "the current"
       +:+ " language best practices."].

(** [buildRefactoringPrompt] *)
Definition buildRefactoringPrompt (h : Host) (task : Task) (context : WorkspaceContext)
  : string :=
  let editor := activeTextEditor h in
  lines
    ["Please refactor the following code according to this request:";
     task_description task;
     "";
     "Code to refactor:";
     "```" +:+ or_default_str (task_language task) "javascript";
     or_default_str (selectedText <$> editor) "";
     "```";
     "";
     "Project context:";
     "- File: " +:+ default "undefined" (fileName <$> editor);
     "- Project type: " +:+ type (projectInfo context);
     "- Technologies: " +:+ join ", " (technologies (projectInfo context));
     "";
     "Please provide improved code that maintains functionality while addressing the request."].

(** [buildAnalysisPrompt] *)
Definition buildAnalysisPrompt (task : Task) (context : WorkspaceContext) : string :=
  lines
    ["Please analyze the following code/project according to this request:";
     task_description task;
     "";
     "Current context:";
     summarizeContext context;
     "";
     "Please provide:";
     "1. Key findings and observations";
     "2. Potential issues or improvements";
     "3. Recommendations and next steps";
     "4. Best practices considerations";
     "";
     "Focus on " +:+ or_default_str (task_language task) "general"
       +:+ " best practices and maintainability."].

(** [await vscode.commands.executeCommand(command, argument)], followed by
    the response built from its result. *)
Definition command_then (h : Host) (command argument : string)
    (build : JsValue → ToolResponse) : Outcome ToolResponse :=
  match executeCommand h command argument with
  | Fulfils result => Returned (build result)
  | Rejects e => Threw (ThrownError e)
  | Never => Hung
  end.

Definition throw {A} (msg : string) : Outcome A := Threw (ThrownError (Error msg)).

(** [s.length]: the number of UTF-16 code units of [s]. The strings of this
    development are sequences of bytes, the UTF-8 encoding of the text: a
    byte that continues a character counts for nothing, the first byte of a
    character of four bytes for two units (a surrogate pair), every other
    byte for one. *)
Definition units (a : ascii) : nat :=
  let n := nat_of_ascii a in
  if Nat.ltb n 128 then 1%nat
  else if Nat.ltb n 192 then 0%nat
  else if Nat.ltb n 240 then 1%nat
  else 2%nat.
Fixpoint utf16_length (s : string) : nat :=
  match s with
  | EmptyString => 0%nat
  | String a s' => (units a + utf16_length s')%nat
  end.
Definition chars (s : string) : JsValue := Num (Z.of_nat (utf16_length s)).

(** [handleCompletion] *)
Definition handleCompletion (k : ContinueConnector) (h : Host) (task : Task)
    (context : WorkspaceContext) : Outcome ToolResponse :=
  if negb (enableCompletion (config k)) then throw "Completion not enabled for Continue"
  else
    match activeTextEditor h with
    | None => throw "No active editor for completion"
    | Some editor =>
        command_then h "continue.quickEdit" (task_description task) (λ result,
          {| success := true;
             data := Some (Obj [("type", Str "completion");
                                ("suggestion", result);
                                ("position", selection_active editor)]);
             error := None;
             toolId := "continue";
             metadata := [("method", Str "quickEdit");
                          ("editor", Str (fileName editor))] |})
    end.

(** [handlePlanning] *)
Definition handlePlanning (k : ContinueConnector) (h : Host) (task : Task)
    (context : WorkspaceContext) : Outcome ToolResponse :=
  if negb (enableChat (config k)) then throw "Chat not enabled for Continue"
  else
    let chatMessage := buildPlanningPrompt task context in
    command_then h "continue.sendChatMessage" chatMessage (λ result,
      {| success := true;
         data := Some (Obj [("type", Str "planning");
                            ("plan", result);
                            ("context", Str (summarizeContext context))]);
         error := None;
         toolId := "continue";
         metadata := [("method", Str "chat");
                      ("promptLength", chars chatMessage)] |}).

(** [handleRefactoring] *)
Definition handleRefactoring (k : ContinueConnector) (h : Host) (task : Task)
    (context : WorkspaceContext) : Outcome ToolResponse :=
  if negb (enableEdit (config k)) then throw "Edit not enabled for Continue"
  else
    match activeTextEditor h with
    | None => throw "No active editor for refactoring"
    | Some editor =>
        let refactorPrompt := buildRefactoringPrompt h task context in
        command_then h "continue.continueEdit" refactorPrompt (λ result,
          {| success := true;
             data := Some (Obj [("type", Str "refactoring");
                                ("changes", result);
                                ("originalCode", Str (selectedText editor));
                                ("fileName", Str (fileName editor))]);
             error := None;
             toolId := "continue";
             metadata := [("method", Str "continueEdit");
                          ("selectionRange", selection_range editor)] |})
    end.

(** [handleAnalysis] *)
Definition handleAnalysis (k : ContinueConnector) (h : Host) (task : Task)
    (context : WorkspaceContext) : Outcome ToolResponse :=
  let analysisPrompt := buildAnalysisPrompt task context in
  command_then h "continue.sendChatMessage" analysisPrompt (λ result,
    {| success := true;
       data := Some (Obj [("type", Str "analysis");
                          ("analysis", result);
                          ("scope", Str (getAnalysisScope context))]);
       error := None;
       toolId := "continue";
       metadata := [("method", Str "chat");
                    ("filesAnalyzed", Num (Z.of_nat (length (openFiles context))))] |}).

(** [handleGenericTask] *)
Definition handleGenericTask (k : ContinueConnector) (h : Host) (task : Task)
    (context : WorkspaceContext) : Outcome ToolResponse :=
  let genericPrompt :=
    task_description task +:+ nl +:+ nl +:+ "Context: " +:+ summarizeContext context in
  command_then h "continue.sendChatMessage" genericPrompt (λ result,
    {| success := true;
       data := Some (Obj [("type", Str "generic"); ("response", result)]);
       error := None;
       toolId := "continue";
       metadata := [("method", Str "chat"); ("taskType", Str (task_type task))] |}).

(** The [switch] of [invoke]. *)
Definition dispatch (k : ContinueConnector) (h : Host) (task : Task)
    (context : WorkspaceContext) : Outcome ToolResponse :=
  if bool_decide (task_type task = "completion") then handleCompletion k h task context
  else if bool_decide (task_type task = "planning") then handlePlanning k h task context
  else if bool_decide (task_type task = "refactoring") then handleRefactoring k h task context
  else if bool_decide (task_type task = "analysis") then handleAnalysis k h task context
  else handleGenericTask k h task context.

(** [invoke] *)
Definition invoke (task : Task) (context : WorkspaceContext)
    (k : ContinueConnector) (h : Host)
  : Outcome ToolResponse * ContinueConnector * Host :=
  match connect k h with
  | (Returned _, k1, h1) =>
      (match dispatch k1 h1 task context with
       | Returned r => Returned r
       | Threw (ThrownError e) =>
           Returned
             {| success := false; data := None; error := Some (message e);
                toolId := "continue";
                metadata := [("taskType", Str (task_type task));
                             ("errorType", Str (errorType e))] |}
       | Threw ThrownUndefined =>
           Threw (ThrownError (TypeError
             "Cannot read properties of undefined (reading 'message')"))
       | Hung => Hung
       end, k1, h1)
  | (Threw t, k1, h1) => (Threw t, k1, h1)
  | (Hung, k1, h1) => (Hung, k1, h1)
  end.

(** [testHealth]: [extension?.isActive || false] *)
Definition testHealth (k : ContinueConnector) (h : Host) : Outcome bool :=
  match getExtension h with
  | Found => Returned (isActive h)
  | NotFound => Returned false
  | LookupThrows _ => Returned false
  end.

(** [disconnect] *)
Definition disconnect (k : ContinueConnector) : ContinueConnector :=
  {| config := config k; extension := extension k; isInitialized := false |}.

(** [list.includes(x)] *)
Definition includes (l : list string) (x : string) : bool := bool_decide (x ∈ l).

(** Every capability the probe can report, in the order it reports them. *)
Definition capabilities : list string :=
  ["completion"; "refactoring"; "planning"; "analysis"; "general-purpose";
   "code-editing"].

(** [testContinueCapabilities] *)
Definition testContinueCapabilities (h : Host) : Outcome (list string) :=
  match getExtension h with
  | LookupThrows e => Threw (ThrownError e)
  | NotFound => Returned []
  | Found =>
      if negb (isActive h) then Returned []
      else
        match getCommands h with
        | Fulfils commands =>
            Returned
              ((if includes commands "continue.quickEdit"
                then ["completion"; "refactoring"] else [])
               ++ (if includes commands "continue.sendChatMessage"
                   then ["planning"; "analysis"; "general-purpose"] else [])
               ++ (if includes commands "continue.continueEdit"
                   then ["code-editing"] else []))
        | Rejects e => Threw (ThrownError e)
        | Never => Hung
        end
  end.

End Continue.

(** ** The adaptive task router *)

Module Router.

(** Modelled from the spec: the data model of the router (transport kinds,
    health states, performance records, providers, tasks and plans), of which
    the repository holds the design only. *)
Inductive TransportKind := MessageRpc | PluginCommand | Subprocess | DirectNetwork.
Inductive HealthState := Unknown | Healthy | Degraded | Unavailable.

Record PerformanceRecord := {
  successRate : Z;   (* rolling success rate *)
  latency : Z        (* rolling latency, ms *)
}.

Section Route.

(** Provider ids come with a stable total order. *)
Context {ProviderId : Type} (id_le : relation ProviderId).
Context `{!RelDecision id_le, !PartialOrder id_le, !Total id_le}.

Record Provider := {
  id : ProviderId;
  transportKind : TransportKind;
  declared : list string;
  probed : list string;
  health : HealthState
}.

Record RouterTask := {
  taskId : string;
  taskType : string;
  requiredCapabilities : list string;
  deadline : Z
}.

Record RoutingPlan := {
  plan_task : string;
  primary : option ProviderId;
  supporting : list ProviderId;
  fallback : list ProviderId;
  degraded : bool
}.

(** Modelled from the spec: the scoring weights, the normalisation of the
    performance record, the name of the generic capability, the set of
    parallel-worthy task types and the bound on parallelism are left open by
    the design and are the parameters of the router. *)
Record RouterConfig := {
  w_fit : Z;
  w_preference : Z;
  w_performance : Z;
  w_health : Z;
  fit_exact : Z;
  fit_generic : Z;
  bonus_healthy : Z;
  bonus_degraded : Z;
  normalized : PerformanceRecord → Z;
  generic : string;
  parallelWorthy : list string;
  maxParallelism : nat
}.

Variable cfg : RouterConfig.
(** Stored preference weight per task type and provider, and the performance
    history. *)
Variable preferences : string → ProviderId → Z.
Variable performanceHistory : ProviderId → PerformanceRecord.

Definition has (caps : list string) (c : string) : bool := bool_decide (c ∈ caps).

Definition available (p : Provider) : bool :=
  match health p with
  | Healthy | Degraded => true
  | Unavailable | Unknown => false
  end.

(** Modelled from the spec: step 1 of [route], the candidates are the
    providers whose probed capabilities cover the required ones and whose
    health is healthy or degraded. *)
Definition capable (t : RouterTask) (p : Provider) : bool :=
  forallb (has (probed p)) (requiredCapabilities t) && available p.

(** Modelled from the spec: step 5, the relaxed candidates offer the generic
    capability. *)
Definition relaxed (p : Provider) : bool :=
  has (probed p) (generic cfg) && available p.

(** Modelled from the spec: step 2, the score is a weighted sum of capability
    fit, preference, performance and health bonus. *)
Definition score (t : RouterTask) (p : Provider) : Z :=
  w_fit cfg *
    (if has (probed p) (taskType t) then fit_exact cfg
     else if has (probed p) (generic cfg) then fit_generic cfg else 0)
  + w_preference cfg * preferences (taskType t) (id p)
  + w_performance cfg * normalized cfg (performanceHistory (id p))
  + w_health cfg *
      match health p with
      | Healthy => bonus_healthy cfg
      | Degraded => bonus_degraded cfg
      | _ => 0
      end.

(** Modelled from the spec: step 3, descending score, then lowest recent
    latency, then provider id. *)
Definition ranks_before (t : RouterTask) (a b : Provider) : Prop :=
  score t b < score t a ∨
  (score t a = score t b ∧
   (latency (performanceHistory (id a)) < latency (performanceHistory (id b)) ∨
    (latency (performanceHistory (id a)) = latency (performanceHistory (id b)) ∧
     id_le (id a) (id b)))).

#[local] Instance ranks_before_dec t : RelDecision (ranks_before t).
Proof. intros a b. unfold ranks_before. apply _. Defined.

Definition rank (t : RouterTask) (candidates : list Provider) : list Provider :=
  merge_sort (ranks_before t) candidates.

(** Modelled from the spec: step 4, the supporting providers are the next
    [maxParallelism] ranked candidates whose declared capabilities include
    the task type, when that type is parallel-worthy; the fallback chain is
    what remains, in rank order. *)
Definition complementary (t : RouterTask) (p : Provider) : bool :=
  has (parallelWorthy cfg) (taskType t) && has (declared p) (taskType t).

Fixpoint split_supporting (t : RouterTask) (k : nat) (rest : list Provider)
  : list Provider * list Provider :=
  match rest with
  | [] => ([], [])
  | p :: rest' =>
      match k with
      | S k' =>
          if complementary t p
          then let '(s, f) := split_supporting t k' rest' in (p :: s, f)
          else let '(s, f) := split_supporting t k rest' in (s, p :: f)
      | O => ([], rest)
      end
  end.

Definition plan_of (t : RouterTask) (is_degraded : bool) (ranked : list Provider)
  : RoutingPlan :=
  match ranked with
  | [] =>
      {| plan_task := taskId t; primary := None; supporting := [];
         fallback := []; degraded := is_degraded |}
  | top :: rest =>
      let '(s, f) := split_supporting t (maxParallelism cfg) rest in
      {| plan_task := taskId t; primary := Some (id top);
         supporting := id <$> s; fallback := id <$> f;
         degraded := is_degraded |}
  end.

(** Modelled from the spec: [route] of the adaptive task router, of which the
    repository holds the design only. A plan without a primary is the
    [NoCapableProviderError] case. *)
Definition route (t : RouterTask) (registrySnapshot : list Provider) : RoutingPlan :=
  match List.filter (capable t) registrySnapshot with
  | [] => plan_of t true (rank t (List.filter relaxed registrySnapshot))
  | candidates => plan_of t false (rank t candidates)
  end.

End Route.

(** *** The hybrid router sketched in the extension notes

    [HybridTaskRouter.routeTask] chooses between three strategies by task
    type; the strategies and the tool getters belong to the base router. *)
Section Hybrid.

Context {Tools Plan : Type}.
Variable getAITools : Task → Tools.
Variable getTraditionalTools : Task → Tools.
Variable preferTraditionalTools : Tools → Tools → Plan.
Variable preferAITools : Tools → Tools → Plan.
Variable coordinateHybridApproach : Tools → Tools → Plan.

Definition routeTask (task : Task) : Plan :=
  let aiTools := getAITools task in
  let traditionalTools := getTraditionalTools task in
  if bool_decide (task_type task = "linting") || bool_decide (task_type task = "formatting")
  then preferTraditionalTools traditionalTools aiTools
  else if bool_decide (task_type task = "planning")
          || bool_decide (task_type task = "architecture")
  then preferAITools aiTools traditionalTools
  else coordinateHybridApproach aiTools traditionalTools.

End Hybrid.

End Router.

(** ** Concrete configurations used in the examples below *)

Module Scenario.
Import Client.

Definition cfg0 : ClientConfig :=
  {| endpoint := "http://localhost:3003"; apiKey := None; timeout := 30000 |}.

Definition ping : Request := {| method := "ping"; params := NoParams |}.

Definition pong (id : N) : Message :=
  {| msg_id := id; msg_error := None; msg_result := Str "pong";
     msg_tokensUsed := None |}.


(** A life of a client: two requests, the second answered, the first timed
    out, a late timer, then [close]. *)
Definition life : list Event :=
  [EInitialize; EOpen; ERequest ping; ERequest ping; EMessage (pong 2);
   ETimer 1; ETimer 2; EClose].

Definition world0 : World := {| now := 0; trace := [] |}.

Definition default_config : MCP.CustomMCPConfig :=
  MCP.createCustomMCPConfig None MCP.no_options.

Definition analyzer : CustomMCPTool :=
  {| name := "code-analyzer"; description := "Analyzes code";
     inputSchema := "{}"; outputSchema := "{}" |}.

Definition empty_context : WorkspaceContext :=
  {| openFiles := []; selection := None;
     projectInfo := {| type := "node"; technologies := []; dependencies := [] |};
     workspaceRoot := "/" |}.

(** A task with a deadline of one second. *)
Definition analysis_task : Task :=
  {| task_type := "analysis"; task_description := "Review this module";
     task_language := Some "typescript"; task_complexity := None;
     task_deadline := 1000 |}.

Definition planning_task : Task :=
  {| task_type := "planning"; task_description := "Plan the feature";
     task_language := None; task_complexity := None; task_deadline := 1000 |}.

Definition tool_list (id : N) (tools : list CustomMCPTool) : Message :=
  {| msg_id := id; msg_error := None; msg_result := ToolsObject tools;
     msg_tokensUsed := None |}.

(** A server that refuses the connection. *)
Definition refusing : Server :=
  {| construct := λ _, None;
     accept := λ _, AcceptError 0; answer := λ _ _ _, AnsSilent |}.

(** A server that accepts the connection and lists [tools], answers a ping,
    and is silent on everything else. *)
Definition listing (tools : list CustomMCPTool) : Server :=
  {| construct := λ _, None;
     accept := λ _, AcceptOpen 0;
     answer := λ _ id r,
       if bool_decide (method r = "tools/list") then AnsMessage 5 (tool_list id tools)
       else if bool_decide (method r = "ping") then AnsMessage 5 (pong id)
       else AnsSilent |}.

(** A server that answers the first tool call with a transient error and the
    second with a result. *)
Definition recovering : Server :=
  {| construct := λ _, None;
     accept := λ _, AcceptOpen 0;
     answer := λ n id r,
       if bool_decide (method r = "tools/list")
       then AnsMessage 5 (tool_list id [analyzer])
       else if bool_decide (n = 1%nat)
       then AnsMessage 5 {| msg_id := id;
                            msg_error := Some "Server temporarily unavailable";
                            msg_result := Undefined; msg_tokensUsed := None |}
       else AnsMessage 5 {| msg_id := id; msg_error := None;
                            msg_result := Str "analysis done";
                            msg_tokensUsed := Some 42 |} |}.

(** The default connector after its first [connect] to [srv]. *)
Definition connector_of (srv : Server) : MCP.CustomMCPConnector :=
  (MCP.connect srv (MCP.new_connector default_config) world0).1.2.
Definition world_of (srv : Server) : World :=
  (MCP.connect srv (MCP.new_connector default_config) world0).2.
Definition client_of (srv : Server) : CustomMCPClient :=
  default (new_client cfg0) (MCP.client (connector_of srv)).

(** The tool call that [invoke] builds for [analysis_task]. *)
Definition analysis_call : Request :=
  {| method := "tools/call";
     params := CallParams "code-analyzer"
       {| arg_description := task_description analysis_task;
          arg_context := MCP.serializeContext empty_context;
          arg_language := task_language analysis_task;
          arg_complexity := task_complexity analysis_task |} |}.

(** A provider that accepts the connection and then never answers. *)
Definition mute : Server :=
  {| construct := λ _, None;
     accept := λ _, AcceptOpen 0; answer := λ _ _ _, AnsSilent |}.

(** An editor host without the extension, and one whose extension is active
    but whose commands never settle. *)
Definition no_extension : Continue.Host :=
  {| Continue.getExtension := Continue.NotFound;
     Continue.isActive := false;
     Continue.activate := Continue.Never;
     Continue.activeTextEditor := None;
     Continue.executeCommand := λ _ _, Continue.Never;
     Continue.getCommands := Continue.Fulfils [] |}.

Definition unresponsive : Continue.Host :=
  {| Continue.getExtension := Continue.Found;
     Continue.isActive := true;
     Continue.activate := Continue.Fulfils ();
     Continue.activeTextEditor := None;
     Continue.executeCommand := λ _ _, Continue.Never;
     Continue.getCommands :=
       Continue.Fulfils ["continue.quickEdit"; "continue.sendChatMessage"] |}.

Definition continue_default : Continue.ContinueConnector :=
  Continue.new_connector
    (Continue.createContinueConfig
       {| Continue.opt_enableChat := None; Continue.opt_enableEdit := None;
          Continue.opt_enableCompletion := None;
          Continue.opt_maxResponseTime := None |}).

(** A configuration with a negative retry budget. *)
Definition negative_budget : MCP.CustomMCPConfig :=
  {| MCP.cfg_endpoint := "ws://localhost:3003"; MCP.cfg_apiKey := None;
     MCP.cfg_timeout := None; MCP.cfg_retryAttempts := Some (-1) |}.

(** Two providers that score alike on every count and differ in their id
    only, a third one that is unavailable, and a router configuration. *)
Definition provider (n : N) (caps : list string) (hs : Router.HealthState)
  : Router.Provider :=
  {| Router.id := n; Router.transportKind := Router.MessageRpc;
     Router.declared := caps; Router.probed := caps; Router.health := hs |}.

Definition router_config : Router.RouterConfig :=
  {| Router.w_fit := 4; Router.w_preference := 2; Router.w_performance := 1;
     Router.w_health := 1; Router.fit_exact := 10; Router.fit_generic := 3;
     Router.bonus_healthy := 2; Router.bonus_degraded := 1;
     Router.normalized := λ r, Router.successRate r - Router.latency r / 100;
     Router.generic := "general-purpose";
     Router.parallelWorthy := ["analysis"];
     Router.maxParallelism := 1 |}.

Definition flat_history (n : N) : Router.PerformanceRecord :=
  {| Router.successRate := 90; Router.latency := 50 |}.

Definition no_preferences (taskType : string) (n : N) : Z := 0.

Definition completion_task : Router.RouterTask :=
  {| Router.taskId := "t1"; Router.taskType := "completion";
     Router.requiredCapabilities := ["completion"]; Router.deadline := 1000 |}.

Definition snapshot : list Router.Provider :=
  [provider 7 ["completion"] Router.Healthy;
   provider 3 ["completion"] Router.Healthy;
   provider 5 ["completion"; "planning"] Router.Unavailable].

(** The providers A, B and C of the design's scenarios, as ids 1, 2 and 3,
    with latencies of 50 and 200 ms for A and B. *)
Definition providers_ABC : list Router.Provider :=
  [provider 1 ["completion"] Router.Healthy;
   provider 2 ["completion"; "planning"] Router.Healthy;
   provider 3 ["planning"] Router.Unavailable].

Definition history_ABC (n : N) : Router.PerformanceRecord :=
  {| Router.successRate := 90;
     Router.latency := if N.eqb n 1 then 50 else 200 |}.

Definition task_requiring (capability : string) : Router.RouterTask :=
  {| Router.taskId := "t"; Router.taskType := capability;
     Router.requiredCapabilities := [capability]; Router.deadline := 1000 |}.

End Scenario.

(** ** Further definitions used by the properties of the connectors *)

Module More.
Import Client Await.

(** The ids [1, 2, ..., n], in this order. *)
Definition ids_upto (n : N) : list N := N.of_nat <$> seq 1 (N.to_nat n).

(** [s.toLowerCase()] on the letters A to Z. *)
Fixpoint to_lower (s : string) : string :=
  match s with
  | EmptyString => EmptyString
  | String a s' => String (lower a) (to_lower s')
  end.

(** The request that [CustomMCPConnector.invoke] builds for a task once it
    has found the tool. *)
Definition tool_call (task : Task) (context : WorkspaceContext)
    (mcpTool : CustomMCPTool) : Request :=
  {| method := "tools/call";
     params := CallParams (name mcpTool)
       {| arg_description := task_description task;
          arg_context := MCP.serializeContext context;
          arg_language := task_language task;
          arg_complexity := task_complexity task |} |}.

(** The client that a connector holds, if it holds one, has no request
    outstanding. *)
Definition client_quiet (k : MCP.CustomMCPConnector) : Prop :=
  match MCP.client k with
  | Some c => quiet c
  | None => True
  end.

(** The failure that [CustomMCPConnector.invoke] returns for the error [e]. *)
Definition mcp_failure (cfg : MCP.CustomMCPConfig) (e : JsError) : ToolResponse :=
  {| success := false; data := None; error := Some (message e);
     toolId := "custom-mcp";
     metadata := [("errorType", Str (errorType e));
                  ("retryAttempts", Num (or_default (MCP.cfg_retryAttempts cfg) 0))] |}.

Definition tools_list : Request := {| method := "tools/list"; params := NoParams |}.

(** [result.tools] of a value that is not [undefined]. *)
Definition tools_of (v : JsValue) : option (list CustomMCPTool) :=
  match v with
  | ToolsObject l => Some l
  | _ => None
  end.

(** A server that accepts every connection and answers every request after
    5 ms with the result 'analysis done'. *)
Definition obliging : Server :=
  {| construct := λ _, None;
     accept := λ _, AcceptOpen 0;
     answer := λ _ id _,
       AnsMessage 5 {| msg_id := id; msg_error := None;
                       msg_result := Str "analysis done";
                       msg_tokensUsed := Some 42 |} |}.

(** The sockets of a sequence of effects: [true] for a socket created,
    [false] for a call of [ws.close()], in program order. *)
Definition socket_of (fx : Effect) : list bool :=
  match fx with
  | Opened _ => [true]
  | SocketClosed => [false]
  | _ => []
  end.
Definition sockets (fx : list Effect) : list bool := fx ≫= socket_of.

(** [n] sockets created and closed, one after the other. *)
Definition cycles (n : nat) : list bool := mjoin (replicate n [true; false]).

(** The socket that a connector holds: the one of its client, if it holds a
    client and the socket of that client could be constructed. *)
Definition held_socket (k : MCP.CustomMCPConnector) : list bool :=
  match MCP.client k with
  | Some c => match ws c with Some _ => [true] | None => [] end
  | None => []
  end.

(** A connector and the sockets of its world: the sockets were created and
    closed one after the other, and the last one is still there exactly
    when the connector holds a socket. *)
Definition tidy (k : MCP.CustomMCPConnector) (w : World) : Prop :=
  ∃ n, sockets (trace w) = cycles n ++ held_socket k.

(** The calls that a user of a [CustomMCPConnector] can make. One caller
    awaits each call before the next; no call stays pending. *)
Inductive Op :=
| OConnect
| OInvoke (task : Task) (context : WorkspaceContext)
| OTestHealth
| ODisconnect.

Definition perform (srv : Server) (op : Op) (k : MCP.CustomMCPConnector) (w : World)
  : MCP.CustomMCPConnector * World :=
  match op with
  | OConnect => ((MCP.connect srv k w).1.2, (MCP.connect srv k w).2)
  | OInvoke task context =>
      ((MCP.invoke srv task context k w).1.2, (MCP.invoke srv task context k w).2)
  | OTestHealth => ((MCP.testHealth srv k w).1.2, (MCP.testHealth srv k w).2)
  | ODisconnect => MCP.disconnect k w
  end.

Fixpoint perform_all (srv : Server) (ops : list Op) (k : MCP.CustomMCPConnector)
    (w : World) : MCP.CustomMCPConnector * World :=
  match ops with
  | [] => (k, w)
  | op :: ops' =>
      let '(k1, w1) := perform srv op k w in
      perform_all srv ops' k1 w1
  end.

(** A configuration read as the options of [createCustomMCPConfig]
    ([CustomMCPConfig] is a [Partial<CustomMCPConfig>]). *)
Definition as_options (cfg : MCP.CustomMCPConfig) : MCP.Options :=
  {| MCP.opt_endpoint := Some (MCP.cfg_endpoint cfg);
     MCP.opt_apiKey := MCP.cfg_apiKey cfg;
     MCP.opt_timeout := MCP.cfg_timeout cfg;
     MCP.opt_retryAttempts := MCP.cfg_retryAttempts cfg |}.

(** The editor command that [ContinueConnector.invoke] runs for a task. *)
Definition command_of (task : Task) : string :=
  if bool_decide (task_type task = "completion") then "continue.quickEdit"
  else if bool_decide (task_type task = "refactoring") then "continue.continueEdit"
  else "continue.sendChatMessage".

(** The editor command whose presence makes [testContinueCapabilities]
    report a capability. *)
Definition command_behind (capability : string) : option string :=
  if bool_decide (capability ∈ ["completion"; "refactoring"])
  then Some "continue.quickEdit"
  else if bool_decide (capability ∈ ["planning"; "analysis"; "general-purpose"])
  then Some "continue.sendChatMessage"
  else if bool_decide (capability = "code-editing")
  then Some "continue.continueEdit"
  else None.

(** An editor host in which the extension is installed and not yet active,
    a file is open, and every command fulfils with its own argument. *)
Definition dormant : Continue.Host :=
  {| Continue.getExtension := Continue.Found;
     Continue.isActive := false;
     Continue.activate := Continue.Fulfils ();
     Continue.activeTextEditor :=
       Some {| Continue.fileName := "main.ts"; Continue.selectedText := "let x";
               Continue.selection_active := Num 0;
               Continue.selection_range := Num 0 |};
     Continue.executeCommand := λ _ argument, Continue.Fulfils (Str argument);
     Continue.getCommands :=
       Continue.Fulfils ["continue.quickEdit"; "continue.sendChatMessage"] |}.

(** A server that lists the analyzer and then drops the connection on the
    next message. *)
Definition dropping : Server :=
  {| construct := λ _, None;
     accept := λ _, AcceptOpen 0;
     answer := λ _ id r,
       if bool_decide (method r = "tools/list")
       then AnsMessage 5 (Scenario.tool_list id [Scenario.analyzer])
       else AnsDrop 5 |}.

(** A client without its API key, and two connectors that are alike but
    for the API key of their configuration and of the client they hold. *)
Definition forget_key (c : CustomMCPClient) : CustomMCPClient :=
  {| Client.config :=
       {| endpoint := endpoint (Client.config c); apiKey := None;
          timeout := timeout (Client.config c) |};
     ws := ws c; requestId := requestId c;
     pendingRequests := pendingRequests c |}.

Definition same_but_key (k k' : MCP.CustomMCPConnector) : Prop :=
  MCP.cfg_endpoint (MCP.config k) = MCP.cfg_endpoint (MCP.config k') ∧
  MCP.cfg_timeout (MCP.config k) = MCP.cfg_timeout (MCP.config k') ∧
  MCP.cfg_retryAttempts (MCP.config k) = MCP.cfg_retryAttempts (MCP.config k') ∧
  MCP.availableTools k = MCP.availableTools k' ∧
  forget_key <$> MCP.client k = forget_key <$> MCP.client k'.

(** A plugin-command connector with another [maxResponseTime]. *)
Definition with_maxResponseTime (t : Z) (k : Continue.ContinueConnector)
  : Continue.ContinueConnector :=
  {| Continue.config :=
       {| Continue.enableChat := Continue.enableChat (Continue.config k);
          Continue.enableEdit := Continue.enableEdit (Continue.config k);
          Continue.enableCompletion := Continue.enableCompletion (Continue.config k);
          Continue.maxResponseTime := t |};
     Continue.extension := Continue.extension k;
     Continue.isInitialized := Continue.isInitialized k |}.

(** [ExtensionCapabilityProbe.probeExtension] of the extension notes. The
    four tests on the commands of an extension belong to the probe class and
    are not given. *)
Section ExtensionCapabilityProbe.
Context {Extension : Type}.
Variable hasLintCommands : Extension → bool.
Variable hasTestCommands : Extension → bool.
Variable hasBuildCommands : Extension → bool.
Variable hasDeploymentCommands : Extension → bool.

Definition probeExtension (extension : Extension) : list string :=
  (if hasLintCommands extension then ["linting"; "code-analysis"] else [])
  ++ (if hasTestCommands extension then ["testing"; "coverage"] else [])
  ++ (if hasBuildCommands extension then ["building"; "bundling"] else [])
  ++ (if hasDeploymentCommands extension then ["deployment"; "infrastructure"] else []).

End ExtensionCapabilityProbe.

End More.

(** * Properties *)

(** ** The pending-request table *)

Module ClientFacts.
Import Client.

(** The entries of a table in the order in which the code visits them. *)
Lemma entries_Permutation (t : gmap N Callbacks) : entries t ≡ₚ map_to_list t.
Proof. unfold entries. apply merge_sort_Permutation. Qed.

Lemma elem_of_entries (t : gmap N Callbacks) i x :
  (i, x) ∈ entries t ↔ t !! i = Some x.
Proof. rewrite entries_Permutation. apply elem_of_map_to_list. Qed.

Lemma NoDup_fst_entries (t : gmap N Callbacks) : NoDup (entries t).*1.
Proof. rewrite entries_Permutation. apply NoDup_fst_map_to_list. Qed.

Lemma entries_singleton i x : entries {[i := x]} = [(i, x)].
Proof. unfold entries. by rewrite map_to_list_singleton. Qed.




Lemma settled_app fx1 fx2 : settled (fx1 ++ fx2) = settled fx1 ++ settled fx2.
Proof. unfold settled. apply bind_app. Qed.

Lemma sent_app fx1 fx2 : sent (fx1 ++ fx2) = sent fx1 ++ sent fx2.
Proof. unfold sent. apply bind_app. Qed.

Lemma Inv_new cfg : Inv (new_client cfg) [].
Proof.
  split; simpl.
  - constructor.
  - intros id H. by apply elem_of_nil in H.
  - constructor.
  - intros p H. by apply elem_of_nil in H.
  - intros id cb H. by rewrite lookup_empty in H.
Qed.

(** An entry that is still in the table has not been settled. *)
Lemma Inv_pending_unsettled c tr id cb :
  Inv c tr → pendingRequests c !! id = Some cb → id ∉ settled tr.
Proof.
  intros HI Hp Hs. apply (inv_settled _ _ HI) in Hs as [_ Hn]. congruence.
Qed.

(** Effects that neither send nor settle keep the invariant when the table
    and the counter stay as they are. *)
Lemma Inv_silent c c' tr fx :
  Inv c tr →
  requestId c' = requestId c →
  pendingRequests c' = pendingRequests c →
  sent fx = [] → settled fx = [] →
  Inv c' (tr ++ fx).
Proof.
  intros [H1 H2 H3 H4 H5] Hr Hp Hs Hd.
  split; rewrite ?sent_app, ?settled_app, ?Hs, ?Hd, ?app_nil_r, ?Hr, ?Hp; auto.
Qed.

(** Removing one entry and settling its promise keeps the invariant. *)
Lemma Inv_settle_one c tr id cb fx :
  Inv c tr →
  pendingRequests c !! id = Some cb →
  sent fx = [] → settled fx = [promise cb] →
  Inv (set_pending (delete id (pendingRequests c)) c) (tr ++ fx).
Proof.
  intros HI Hp Hs Hd.
  pose proof (Inv_pending_unsettled _ _ _ _ HI Hp) as Hfresh.
  destruct HI as [H1 H2 H3 H4 H5].
  destruct (H5 _ _ Hp) as [Hprom Hsent].
  split; rewrite ?sent_app, ?settled_app, ?Hs, ?Hd, ?app_nil_r; simpl; auto.
  - rewrite Hprom. apply NoDup_app. split; [done|]. split.
    + intros x Hx Hx'. apply list_elem_of_singleton in Hx'. by subst.
    + apply NoDup_singleton.
  - intros p Hp'. apply elem_of_app in Hp' as [Hp'|Hp'].
    + destruct (H4 _ Hp') as [? Hn]. split; [done|].
      destruct (decide (id = p)) as [->|Hne].
      * apply lookup_delete_eq.
      * by rewrite lookup_delete_ne.
    + apply list_elem_of_singleton in Hp'. subst p. rewrite Hprom.
      split; [done|]. apply lookup_delete_eq.
  - intros id' cb' Hl.
    destruct (decide (id = id')) as [->|Hne].
    + by rewrite lookup_delete_eq in Hl.
    + rewrite lookup_delete_ne in Hl by done. eauto.
Qed.

(** What a bulk rejection settles: the promises of all entries. *)
Lemma settled_reject_all (e : JsError) (l : list (N * Callbacks)) :
  settled ((λ kv : N * Callbacks, Rejected (promise kv.2) e) <$> l)
  = (λ kv : N * Callbacks, promise kv.2) <$> l.
Proof.
  induction l as [|kv l IH]; [done|].
  rewrite !fmap_cons. change (settled (?x :: ?l)) with (settled_of x ++ settled l).
  rewrite IH. done.
Qed.

Lemma sent_reject_all (e : JsError) (l : list (N * Callbacks)) :
  sent ((λ kv : N * Callbacks, Rejected (promise kv.2) e) <$> l) = [].
Proof.
  induction l as [|kv l IH]; [done|].
  rewrite !fmap_cons. change (sent (?x :: ?l)) with (sent_of x ++ sent l).
  rewrite IH. done.
Qed.

(** Under the invariant the promise of an entry is its key. *)
Lemma promises_are_keys c tr :
  Inv c tr →
  (λ kv : N * Callbacks, promise kv.2) <$> entries (pendingRequests c)
  = (entries (pendingRequests c)).*1.
Proof.
  intros HI. apply list_fmap_ext. intros i [id cb] Hin. simpl.
  apply list_elem_of_lookup_2, elem_of_entries in Hin.
  by destruct (inv_pending _ _ HI _ _ Hin).
Qed.


Lemma Inv_rejectPendingRequests e c tr :
  Inv c tr → Inv (rejectPendingRequests e c).1 (tr ++ (rejectPendingRequests e c).2).
Proof.
  intros HI. unfold rejectPendingRequests. simpl.
  pose proof (promises_are_keys _ _ HI) as Hkeys.
  assert (Hs : sent (((λ kv : N * Callbacks, Rejected (promise kv.2) e)
                        <$> entries (pendingRequests c)) ++ [Cleared]) = []).
  { by rewrite sent_app, sent_reject_all. }
  assert (Hd : settled (((λ kv : N * Callbacks, Rejected (promise kv.2) e)
                        <$> entries (pendingRequests c)) ++ [Cleared])
               = (entries (pendingRequests c)).*1).
  { rewrite settled_app, settled_reject_all, Hkeys. apply app_nil_r. }
  assert (Hin : ∀ p, p ∈ (entries (pendingRequests c)).*1 →
                     ∃ cb, pendingRequests c !! p = Some cb).
  { intros p Hp. apply list_elem_of_fmap in Hp as [[id cb] [-> Hp]].
    apply elem_of_entries in Hp. eauto. }
  destruct HI as [H1 H2 H3 H4 H5].
  split; rewrite ?(sent_app tr), ?(settled_app tr), ?Hs, ?Hd, ?app_nil_r;
    simpl; auto.
  - apply NoDup_app. split; [done|]. split.
    + intros p Hp Hp'. apply Hin in Hp' as [cb Hcb].
      destruct (H4 _ Hp) as [_ Hn]. congruence.
    + apply NoDup_fst_entries.
  - intros p Hp. split; [|apply lookup_empty].
    apply elem_of_app in Hp as [Hp|Hp].
    + by destruct (H4 _ Hp).
    + apply Hin in Hp as [cb Hcb]. by destruct (H5 _ _ Hcb).
  - intros id cb Hl. by rewrite lookup_empty in Hl.
Qed.

(** The socket state is no part of the invariant. *)
Lemma Inv_set_ws s c tr : Inv c tr → Inv (set_ws s c) tr.
Proof. intros [H1 H2 H3 H4 H5]. by split. Qed.

Lemma Inv_request_send r c tr id c' fx :
  Inv c tr → request_send r c = inr (id, c', fx) → Inv c' (tr ++ fx).
Proof.
  intros HI Hreq. unfold request_send in Hreq.
  destruct (ws c) as [[]|]; simplify_eq.
  destruct HI as [H1 H2 H3 H4 H5].
  assert (Hnew : N.succ (requestId c) ∉ sent tr).
  { intros Hin. apply H2 in Hin. lia. }
  split; rewrite ?sent_app, ?settled_app; unfold sent, settled; simpl;
    rewrite ?app_nil_r; fold (sent tr); fold (settled tr).
  - apply NoDup_app. split; [done|]. split.
    + intros x Hx Hx'. apply list_elem_of_singleton in Hx'. by subst.
    + apply NoDup_singleton.
  - intros id Hid. apply elem_of_app in Hid as [Hid|Hid].
    + apply H2 in Hid. lia.
    + apply list_elem_of_singleton in Hid. lia.
  - done.
  - intros p Hp. destruct (H4 _ Hp) as [Hs Hn]. split.
    + apply elem_of_app. by left.
    + rewrite lookup_insert_ne; [done|]. intros Heq. apply Hnew. by rewrite Heq.
  - intros id cb Hl. destruct (decide (N.succ (requestId c) = id)) as [<-|Hne].
    + rewrite lookup_insert_eq in Hl. simplify_eq. simpl. split; [done|].
      apply elem_of_app. right. by apply list_elem_of_singleton.
    + rewrite lookup_insert_ne in Hl by done.
      destruct (H5 _ _ Hl). split; [done|]. apply elem_of_app. by left.
Qed.

Lemma Inv_request_timer id c tr :
  Inv c tr → Inv (request_timer id c).1 (tr ++ (request_timer id c).2).
Proof.
  intros HI. unfold request_timer.
  destruct (pendingRequests c !! id) as [cb|] eqn:Hp; simpl.
  - by apply (Inv_settle_one _ _ _ cb).
  - by rewrite app_nil_r.
Qed.

Lemma Inv_handleMessage m c tr :
  Inv c tr → Inv (handleMessage m c).1 (tr ++ (handleMessage m c).2).
Proof.
  intros HI. unfold handleMessage.
  destruct (negb (msg_id m =? 0)%N); simpl; [|by rewrite app_nil_r].
  destruct (pendingRequests c !! msg_id m) as [cb|] eqn:Hp; simpl;
    [|by rewrite app_nil_r].
  destruct (msg_error m); simpl; by apply (Inv_settle_one _ _ _ cb).
Qed.

Lemma Inv_close c tr : Inv c tr → Inv (close c).1 (tr ++ (close c).2).
Proof.
  intros HI. unfold close.
  destruct (ws c) as [s|].
  - pose proof (Inv_rejectPendingRequests (Error "Client closing") (set_ws None c)
                  (tr ++ [SocketClosed])) as H.
    destruct (rejectPendingRequests (Error "Client closing") (set_ws None c))
      as [c2 fx2] eqn:Hr. simpl in *.
    change (tr ++ SocketClosed :: fx2) with (tr ++ [SocketClosed] ++ fx2).
    rewrite app_assoc. apply H. apply Inv_set_ws.
    by apply (Inv_silent c c).
  - pose proof (Inv_rejectPendingRequests (Error "Client closing") c tr) as H.
    destruct (rejectPendingRequests (Error "Client closing") c) as [c2 fx2].
    simpl in *. auto.
Qed.

Lemma Inv_step e c tr : Inv c tr → Inv (step e c).1 (tr ++ (step e c).2).
Proof.
  intros HI. destruct e; cbn [step].
  - by apply (Inv_silent c).
  - cbn [fst snd]. by rewrite app_nil_r.
  - cbn [fst snd]. rewrite app_nil_r. by apply Inv_set_ws.
  - cbn [fst snd]. rewrite app_nil_r. by apply Inv_set_ws.
  - destruct (request_send r c) as [err|[[id c'] fx]] eqn:Hreq; cbn [fst snd].
    + by rewrite app_nil_r.
    + by apply (Inv_request_send r c tr id).
  - by apply Inv_request_timer.
  - by apply Inv_handleMessage.
  - unfold onclose. apply Inv_rejectPendingRequests. by apply Inv_set_ws.
  - by apply Inv_close.
Qed.




(** A message or a timer that comes after its request was settled finds no
    entry and does nothing: the awaited operations need not track them. *)
Lemma late_message_ignored m c :
  pendingRequests c !! msg_id m = None → handleMessage m c = (c, []).
Proof.
  intros H. unfold handleMessage. rewrite H. by destruct (negb _).
Qed.

Lemma late_timer_ignored id c :
  pendingRequests c !! id = None → request_timer id c = (c, []).
Proof. intros H. unfold request_timer. by rewrite H. Qed.

(** What [close] leaves behind, and what it rejects. *)
Lemma close_table c : pendingRequests (close c).1 = ∅ ∧ ws (close c).1 = None.
Proof. unfold close. by destruct (ws c) eqn:E; simpl; rewrite ?E. Qed.

Lemma close_settled c tr :
  Inv c tr → settled (close c).2 = (entries (pendingRequests c)).*1.
Proof.
  intros HI. rewrite <- (promises_are_keys c tr HI).
  unfold close. destruct (ws c); cbn [rejectPendingRequests set_ws set_pending
    pendingRequests fst snd app].
  - change (settled (SocketClosed :: ?l)) with (settled l).
    by rewrite settled_app, settled_reject_all, app_nil_r.
  - by rewrite settled_app, settled_reject_all, app_nil_r.
Qed.


(** The synchronous part of a request takes the incremented counter as id
    and registers the request under it. *)
Lemma request_send_id r c id c' fx :
  request_send r c = inr (id, c', fx) →
  id = N.succ (requestId c) ∧ requestId c' = id ∧
  pendingRequests c' = <[id := {| promise := id |}]> (pendingRequests c) ∧
  fx = [Registered id; Sent id r].
Proof.
  unfold request_send. destruct (ws c) as [[]|]; intros H; by simplify_eq.
Qed.

End ClientFacts.




(** ** Awaited requests *)

Module AwaitFacts.
Import Client Await.

Lemma settlement_settled p fx : p ∈ settled fx → is_Some (settlement p fx).
Proof.
  induction fx as [|e fx IH]; intros Hin.
  - by apply elem_of_nil in Hin.
  - change (settled (e :: fx)) with (settled_of e ++ settled fx) in Hin.
    apply elem_of_app in Hin as [Hin|Hin].
    + destruct e; simpl in Hin; try by apply elem_of_nil in Hin.
      all: apply list_elem_of_singleton in Hin; subst; simpl;
        rewrite N.eqb_refl; eauto.
    + destruct e; simpl; auto; destruct (p =? _)%N; eauto.
Qed.

Lemma sent_request_timer id c : sent (request_timer id c).2 = [].
Proof. unfold request_timer. by destruct (pendingRequests c !! id). Qed.

Lemma sent_handleMessage m c : sent (handleMessage m c).2 = [].
Proof.
  unfold handleMessage. destruct (negb _); [|done].
  destruct (pendingRequests c !! msg_id m); [|done]. by destruct (msg_error m).
Qed.

Lemma sent_onclose c : sent (onclose c).2 = [].
Proof.
  unfold onclose, rejectPendingRequests. simpl.
  by rewrite ClientFacts.sent_app, ClientFacts.sent_reject_all.
Qed.

Lemma slept_app fx1 fx2 : slept (fx1 ++ fx2) = slept fx1 ++ slept fx2.
Proof. unfold slept. apply bind_app. Qed.

Lemma sent_cons e fx : sent (e :: fx) = sent_of e ++ sent fx.
Proof. done. Qed.

Lemma slept_cons e fx : slept (e :: fx) = slept_of e ++ slept fx.
Proof. done. Qed.

Lemma slept_request_timer id c : slept (request_timer id c).2 = [].
Proof. unfold request_timer. by destruct (pendingRequests c !! id). Qed.

Lemma slept_handleMessage m c : slept (handleMessage m c).2 = [].
Proof.
  unfold handleMessage. destruct (negb _); [|done].
  destruct (pendingRequests c !! msg_id m); [|done]. by destruct (msg_error m).
Qed.

Lemma slept_onclose c : slept (onclose c).2 = [].
Proof.
  unfold onclose, rejectPendingRequests. simpl. rewrite slept_app.
  induction (entries (pendingRequests c)) as [|kv l IH]; [done|].
  rewrite fmap_cons. by change (slept (?x :: ?l)) with (slept_of x ++ slept l).
Qed.

Lemma timer_pos t : 1 ≤ timer t.
Proof. unfold timer. destruct ((1 <=? t) && (t <=? TIMEOUT_MAX)) eqn:E; lia. Qed.

Lemma timer_nonneg t : 0 ≤ timer t.
Proof. pose proof (timer_pos t). lia. Qed.

Lemma timer_id t : 1 ≤ t ≤ TIMEOUT_MAX → timer t = t.
Proof.
  intros H. unfold timer.
  destruct ((1 <=? t) && (t <=? TIMEOUT_MAX)) eqn:E; [done|].
  apply andb_false_iff in E. lia.
Qed.

Lemma timer_le t : 1 ≤ t → timer t ≤ t.
Proof.
  intros H. unfold timer. destruct ((1 <=? t) && (t <=? TIMEOUT_MAX)); lia.
Qed.

(** In time: there, before the timer fires. *)
Lemma in_time_iff d t : in_time d t = true ↔ 0 ≤ d < timer t.
Proof. unfold in_time. rewrite andb_true_iff, Z.leb_le, Z.ltb_lt. done. Qed.

Lemma in_time_timer d t : in_time d t = true → 0 ≤ d ≤ timer t.
Proof. unfold in_time. intros H. apply andb_true_iff in H. lia. Qed.

Section WithServer.
Variable srv : Server.

(** A client that is not connected refuses the request on the spot. *)
Lemma request_disconnected r c w :
  ws c ≠ Some OPEN →
  request srv r c w = (Threw (ThrownError (Error "MCP client not connected")), c, w).
Proof.
  intros H. unfold request, request_send. by destruct (ws c) as [[]|].
Qed.

Lemma arrival_sent r id t c1 w : sent (arrival srv r id t c1 w).1.2 = [].
Proof.
  unfold arrival. destruct (answer srv _ id r) as [d m|d|]; [| |done].
  - destruct (in_time d t); [apply sent_handleMessage|done].
  - destruct (in_time d t); [apply sent_onclose|done].
Qed.

Lemma arrival_slept r id t c1 w : slept (arrival srv r id t c1 w).1.2 = [].
Proof.
  unfold arrival. destruct (answer srv _ id r) as [d m|d|]; [| |done].
  - destruct (in_time d t); [apply slept_handleMessage|done].
  - destruct (in_time d t); [apply slept_onclose|done].
Qed.

Lemma arrival_delay r id t c1 w : 0 ≤ (arrival srv r id t c1 w).2 ≤ timer t.
Proof.
  unfold arrival. pose proof (timer_nonneg t).
  destruct (answer srv _ id r) as [d m|d|]; simpl; [| |lia].
  - destruct (in_time d t) eqn:E; simpl; [by apply in_time_timer|lia].
  - destruct (in_time d t) eqn:E; simpl; [by apply in_time_timer|lia].
Qed.

Lemma arrival_config r id t c1 w :
  Client.config (arrival srv r id t c1 w).1.1 = Client.config c1.
Proof.
  unfold arrival. destruct (answer srv _ id r) as [d m|d|]; [| |done].
  - destruct (in_time d t); [|done]. unfold handleMessage.
    destruct (negb _); [|done].
    destruct (pendingRequests c1 !! msg_id m); [|done]. by destruct (msg_error m).
  - by destruct (in_time d t).
Qed.

(** A request that what arrived has not settled is still in the table. *)
Lemma arrival_unsettled r id t c1 w :
  pendingRequests c1 !! id = Some {| promise := id |} →
  settlement id (arrival srv r id t c1 w).1.2 = None →
  pendingRequests (arrival srv r id t c1 w).1.1 !! id = Some {| promise := id |}.
Proof.
  intros Hp. unfold arrival.
  destruct (answer srv _ id r) as [d m|d|]; [| |done].
  - destruct (in_time d t); [|done]. unfold handleMessage.
    destruct (negb _); [|done].
    destruct (pendingRequests c1 !! msg_id m) as [cb|] eqn:Hm; [|done].
    destruct (decide (msg_id m = id)) as [Heq|Hne].
    + rewrite Heq in Hm. rewrite Hp in Hm. simplify_eq.
      destruct (msg_error m); simpl; rewrite N.eqb_refl; done.
    + destruct (msg_error m); simpl; intros _; by rewrite lookup_delete_ne.
  - destruct (in_time d t); [|done]. cbn [fst snd]. intros Hs. exfalso.
    assert (His : is_Some (settlement id (onclose c1).2)); [|by rewrite Hs in His; destruct His].
    apply settlement_settled. unfold onclose, rejectPendingRequests. simpl.
    rewrite ClientFacts.settled_app, ClientFacts.settled_reject_all.
    apply elem_of_app. left. apply list_elem_of_fmap.
    exists (id, {| promise := id |}). split; [done|].
    by apply ClientFacts.elem_of_entries.
Qed.

Lemma request_timer_pending id c :
  pendingRequests c !! id = Some {| promise := id |} →
  request_timer id c
  = (set_pending (delete id (pendingRequests c)) c,
     [Deleted id; Rejected id (Error "Request timeout")]).
Proof. intros H. unfold request_timer. by rewrite H. Qed.

(** The promise of a request is always settled: by what arrives, or else by
    the timer. *)
Lemma request_not_hung r c w : (request srv r c w).1.1 ≠ Hung.
Proof.
  unfold request.
  destruct (request_send r c) as [e|[[id c1] fx1]] eqn:Hsend; [done|].
  destruct (ClientFacts.request_send_id _ _ _ _ _ Hsend) as (_ & _ & Hp & _).
  assert (Hl : pendingRequests c1 !! id = Some {| promise := id |}).
  { rewrite Hp. apply lookup_insert_eq. }
  pose proof (arrival_unsettled r id (timeout (Client.config c)) c1 w Hl) as Hu.
  destruct (arrival srv r id (timeout (Client.config c)) c1 w) as [[c2 fx2] d].
  simpl in Hu.
  destruct (settlement id fx2) as [[m|e]|]; [done|done|].
  rewrite (request_timer_pending id c2 (Hu eq_refl)). simpl.
  by rewrite N.eqb_refl.
Qed.

(** What a request throws is an error object. *)
Lemma request_throws_error r c w t :
  (request srv r c w).1.1 = Threw t → ∃ e, t = ThrownError e.
Proof.
  unfold request.
  destruct (request_send r c) as [e|[[id c1] fx1]]; simpl.
  { intros H. simplify_eq. eauto. }
  destruct (arrival srv r id (timeout (Client.config c)) c1 w) as [[c2 fx2] d].
  destruct (settlement id fx2) as [[m|e]|]; simpl;
    [done|intros H; simplify_eq; eauto|].
  destruct (request_timer id c2) as [c3 fx3].
  destruct (settlement id fx3) as [[m|e]|]; simpl;
    [done|intros H; simplify_eq; eauto|done].
Qed.

(** A request puts at most one message on the wire, sleeps never, and takes
    no longer than its timer. *)
Lemma request_effects r c w :
  (∃ l, sent (trace (request srv r c w).2) = sent (trace w) ++ l ∧ (length l ≤ 1)%nat) ∧
  slept (trace (request srv r c w).2) = slept (trace w) ∧
  now w ≤ now (request srv r c w).2 ≤ now w + timer (timeout (Client.config c)) ∧
  Client.config (request srv r c w).1.2 = Client.config c.
Proof.
  unfold request.
  destruct (request_send r c) as [e|[[id c1] fx1]] eqn:Hsend; simpl.
  { pose proof (timer_nonneg (timeout (Client.config c))).
    split_and!; try done; try lia.
    exists []. split; [by rewrite app_nil_r|simpl; lia]. }
  destruct (ClientFacts.request_send_id _ _ _ _ _ Hsend) as (_ & _ & Hp & ->).
  assert (Hc1 : Client.config c1 = Client.config c).
  { unfold request_send in Hsend. destruct (ws c) as [[]|]; by simplify_eq. }
  pose proof (arrival_sent r id (timeout (Client.config c)) c1 w) as Hs.
  pose proof (arrival_slept r id (timeout (Client.config c)) c1 w) as Hz.
  pose proof (arrival_delay r id (timeout (Client.config c)) c1 w) as Hd.
  pose proof (arrival_config r id (timeout (Client.config c)) c1 w) as Hc.
  destruct (arrival srv r id (timeout (Client.config c)) c1 w) as [[c2 fx2] d].
  simpl in Hs, Hz, Hd, Hc.
  assert (Htimer : 0 ≤ timer (timeout (Client.config c))) by apply AwaitFacts.timer_nonneg.
  destruct (settlement id fx2) as [s|]; simpl.
  - rewrite !ClientFacts.sent_app, !slept_app, !sent_cons, !slept_cons, Hs, Hz.
    simpl. split_and!; try lia; try congruence; try (by rewrite app_nil_r).
    exists [id]. split; [done|simpl; lia].
  - pose proof (sent_request_timer id c2) as Hs3.
    pose proof (slept_request_timer id c2) as Hz3.
    assert (Hc3 : Client.config (request_timer id c2).1 = Client.config c2).
    { unfold request_timer. by destruct (pendingRequests c2 !! id). }
    destruct (request_timer id c2) as [c3 fx3]. simpl in Hs3, Hz3, Hc3.
    assert (Hgoal :
      (∃ l, sent (trace w ++ Registered id :: Sent id r :: fx2 ++ fx3)
            = sent (trace w) ++ l ∧ (length l ≤ 1)%nat) ∧
      slept (trace w ++ Registered id :: Sent id r :: fx2 ++ fx3) = slept (trace w) ∧
      now w ≤ now w + timer (timeout (Client.config c))
        ≤ now w + timer (timeout (Client.config c)) ∧
      Client.config c3 = Client.config c).
    { rewrite !ClientFacts.sent_app, !slept_app, !sent_cons, !slept_cons,
        !ClientFacts.sent_app, !slept_app, Hs, Hz, Hs3, Hz3. simpl.
      split_and!; try lia; try congruence; try (by rewrite app_nil_r).
    exists [id]. split; [done|simpl; lia]. }
    by destruct (settlement id fx3).
Qed.

(** The request of a quiet, connected client, case by case: its outcome, the
    client it leaves, the time it takes and the one message it sends. *)
Lemma request_quiet r c w :
  quiet c → ws c = Some OPEN →
  let id := N.succ (requestId c) in
  let res := reply (timeout (Client.config c)) id
               (answer srv (length (sent (trace w))) id r) in
  (request srv r c w).1.1 = awaited res.1.1 ∧
  (request srv r c w).1.2
    = {| Client.config := Client.config c;
         ws := Some (if res.2 then CLOSED else OPEN);
         requestId := id; pendingRequests := ∅ |} ∧
  now (request srv r c w).2 = now w + res.1.2 ∧
  sent (trace (request srv r c w).2) = sent (trace w) ++ [id] ∧
  slept (trace (request srv r c w).2) = slept (trace w).
Proof.
  destruct c as [cfg s rid pend]. unfold quiet. simpl. intros -> ->.
  pose proof (request_effects r
    {| Client.config := cfg; ws := Some OPEN; requestId := rid;
       pendingRequests := ∅ |} w) as (_ & Hslept & _ & _).
  split_and!; [| | | |exact Hslept]; clear Hslept.
  all: unfold request, request_send, arrival, reply; simpl.
  all: rewrite insert_empty.
  all: destruct (answer srv _ _ r) as [d m|d|]; simpl.
  all: try (destruct (in_time d (timeout cfg)) eqn:Hin; simpl).
  all: try (unfold handleMessage; simpl;
            destruct (decide (msg_id m = N.succ rid)) as [Heq|Hne];
            [rewrite Heq, ?N.eqb_refl; simpl;
             rewrite (proj2 (N.eqb_neq (N.succ rid) 0) ltac:(lia)); simpl;
             rewrite lookup_singleton_eq;
             destruct (msg_error m); simpl; rewrite ?N.eqb_refl; simpl
            |rewrite ?(proj2 (N.eqb_neq _ _) Hne);
             destruct (negb (msg_id m =? 0)%N); simpl;
             rewrite ?lookup_singleton_ne by done; simpl]).
  all: unfold request_timer, onclose, rejectPendingRequests; simpl.
  all: rewrite ?lookup_singleton_eq, ?ClientFacts.entries_singleton; simpl.
  all: rewrite ?N.eqb_refl; simpl.
  all: rewrite ?delete_singleton_eq.
  all: rewrite ?ClientFacts.sent_app; simpl; rewrite ?app_nil_r.
  all: try done.
Qed.

End WithServer.
End AwaitFacts.

(** ** The message-RPC connector *)

Module MCPFacts.
Import Client Await MCP.


(** The patterns are searched anywhere in the message, in any letter case;
    the errors that the client itself raises on a closed connection are not
    retryable. *)
Lemma isRetryableError_examples :
  isRetryableError (Error "429 Rate Limit exceeded") = true ∧
  isRetryableError (Error "ECONNRESET: Connection Reset by peer") = true ∧
  isRetryableError (Error "Request timeout") = true ∧
  isRetryableError (Error "Connection closed") = false ∧
  isRetryableError (Error "MCP client not connected") = false ∧
  isRetryableError (Error "Client closing") = false.
Proof. split_and!; reflexivity. Qed.

Lemma backoffs_S attempt k :
  backoffs attempt (S k) = 2 ^ attempt * 1000 :: backoffs (attempt + 1) k.
Proof.
  unfold backoffs. simpl. rewrite Z.add_0_r. f_equal.
  rewrite <- fmap_S_seq, <- list_fmap_compose. apply list_fmap_ext.
  intros i x _. simpl. f_equal. f_equal. lia.
Qed.

Section WithServer.
Variable srv : Server.

(** [initialize] settles, and what it throws is an error object. *)
Lemma initialize_outcome c w :
  (initialize srv c w).1.1 ≠ Hung ∧
  (∀ t, (initialize srv c w).1.1 = Threw t → ∃ e, t = ThrownError e) ∧
  sent (trace (initialize srv c w).2) = sent (trace w) ∧
  pendingRequests (initialize srv c w).1.2 = pendingRequests c ∧
  ((initialize srv c w).1.1 = Returned () → ws (initialize srv c w).1.2 = Some OPEN).
Proof.
  unfold initialize, initialize_start.
  assert (Hs : sent (trace w ++ [Opened (replace_http_ws (endpoint (Client.config c)))])
               = sent (trace w)).
  { rewrite ClientFacts.sent_app. simpl. apply app_nil_r. }
  destruct (construct srv _) as [e0|];
    [|destruct (accept srv _) as [d|d|]; try destruct (in_time d _)]; simpl.
  all: split_and!; try done.
  all: intros t H; simplify_eq; eauto.
Qed.

Lemma listTools_outcome c w :
  (listTools srv c w).1.1 ≠ Hung ∧
  (∀ t, (listTools srv c w).1.1 = Threw t → ∃ e, t = ThrownError e).
Proof.
  unfold listTools.
  pose proof (AwaitFacts.request_not_hung srv
                {| method := "tools/list"; params := NoParams |} c w) as Hh.
  pose proof (AwaitFacts.request_throws_error srv
                {| method := "tools/list"; params := NoParams |} c w) as Ht.
  destruct (request srv _ c w) as [[[m|t|] c'] w']; simpl in *; [| |done].
  - destruct (msg_result m); simpl; split; try done.
    intros t H. simplify_eq. eauto.
  - split; [done|]. intros t' H. simplify_eq. eauto.
Qed.

(** [connect] settles; what it throws is an error object; the client it
    returns is the one the connector holds; the configuration is kept. *)
Lemma connect_outcome k w :
  (connect srv k w).1.1 ≠ Hung ∧
  (∀ t, (connect srv k w).1.1 = Threw t → ∃ e, t = ThrownError e) ∧
  (∀ c, (connect srv k w).1.1 = Returned c → client (connect srv k w).1.2 = Some c) ∧
  config (connect srv k w).1.2 = config k.
Proof.
  unfold connect. destruct (client k) as [c|] eqn:Hc.
  { simpl. split_and!; try done. intros c' H. by simplify_eq. }
  set (c0 := new_client _).
  pose proof (initialize_outcome c0 w) as (Hh & Ht & _).
  destruct (initialize srv c0 w) as [[[u|t|] c1] w1]; simpl in *; [| |done].
  - pose proof (listTools_outcome c1 w1) as (Hh' & Ht').
    destruct (listTools srv c1 w1) as [[[tools|t|] c2] w2]; simpl in *; [| |done].
    + split_and!; try done. intros c H. by simplify_eq.
    + split_and!; try done. intros t' H. simplify_eq. eauto.
  - split_and!; try done. intros t' H. simplify_eq. eauto.
Qed.

(** The loop settles; it throws [undefined] only when it never ran. *)
Lemma retry_loop_outcome n attempt max r last c w :
  (retry_loop srv n attempt max r last c w).1.1 ≠ Hung ∧
  ((retry_loop srv n attempt max r last c w).1.1 = Threw ThrownUndefined →
   n = O ∧ last = None).
Proof.
  revert attempt last c w. induction n as [|n IH]; intros attempt last c w; simpl.
  { destruct last; simpl; split; try done. }
  pose proof (AwaitFacts.request_not_hung srv r c w) as Hh.
  pose proof (AwaitFacts.request_throws_error srv r c w) as Ht.
  destruct (request srv r c w) as [[[m|t|] c'] w']; simpl in *; [done| |done].
  destruct (Ht t eq_refl) as [e ->].
  destruct ((attempt <? max) && isRetryableError e); simpl; [|done].
  destruct (IH (attempt + 1) (Some e) c'
              (tick (timer (2 ^ attempt * 1000)) (emit [Slept (2 ^ attempt * 1000)] w')))
    as [H1 H2].
  split; [done|]. intros H. by destruct (H2 H).
Qed.

(** What the loop does to the wire and how it sleeps: after [k] backoffs it
    has sent at most [k + 1] requests, and [k] is less than the number of
    attempts it may make. *)
Lemma retry_loop_effects n attempt max r last c w :
  Z.of_nat n = Z.max 0 (max + 1 - attempt) →
  ∃ (k : nat) (l : list N),
    (k ≤ pred n)%nat ∧ (length l ≤ S k)%nat ∧ (length l ≤ n)%nat ∧
    slept (trace (retry_loop srv n attempt max r last c w).2)
      = slept (trace w) ++ backoffs attempt k ∧
    sent (trace (retry_loop srv n attempt max r last c w).2)
      = sent (trace w) ++ l.
Proof.
  revert attempt last c w. induction n as [|n IH]; intros attempt last c w Hn.
  { exists O, []. simpl. rewrite !app_nil_r. split_and!; done || lia. }
  simpl.
  pose proof (AwaitFacts.request_effects srv r c w) as ((l0 & Hs & Hl0) & Hz & _).
  destruct (request srv r c w) as [[o c'] w']. simpl in Hs, Hz.
  assert (Hstop : ∃ (k : nat) (l : list N),
            (k ≤ n)%nat ∧ (length l ≤ S k)%nat ∧ (length l ≤ S n)%nat ∧
            slept (trace w') = slept (trace w) ++ backoffs attempt k ∧
            sent (trace w') = sent (trace w) ++ l).
  { exists O, l0. simpl. rewrite app_nil_r. split_and!; done || lia. }
  destruct o as [m|[e|]|]; simpl; try done.
  - destruct ((attempt <? max) && isRetryableError e) eqn:Hretry; [|done].
    apply andb_true_iff in Hretry as [Hlt _]. apply Z.ltb_lt in Hlt.
    destruct (IH (attempt + 1) (Some e) c'
                (tick (timer (2 ^ attempt * 1000))
                   (emit [Slept (2 ^ attempt * 1000)] w')))
      as (k & l & Hk & Hl & Hln & Hslept & Hsent); [lia|].
    exists (S k), (l0 ++ l).
    rewrite Hslept, Hsent. simpl.
    rewrite AwaitFacts.slept_app, ClientFacts.sent_app, Hs, Hz. simpl.
    rewrite backoffs_S, length_app, app_nil_r, <- !app_assoc. simpl.
    split_and!; done || lia.
  - by destruct (attempt <? max).
Qed.

Lemma timeout_is_retryable : isRetryableError (Error "Request timeout") = true.
Proof. reflexivity. Qed.




(** The first 22 backoffs are within the range of the timers. *)
Lemma backoff_timer attempt :
  0 ≤ attempt < 22 → timer (2 ^ attempt * 1000) = 2 ^ attempt * 1000.
Proof.
  intros H. apply AwaitFacts.timer_id.
  assert (0 < 2 ^ attempt) by (apply Z.pow_pos_nonneg; lia).
  assert (Hle : 2 ^ attempt ≤ 2 ^ 21) by (apply Z.pow_le_mono_r; lia).
  change (2 ^ 21) with 2097152 in Hle. unfold TIMEOUT_MAX. lia.
Qed.

(** Every backoff takes at most the delay it is set to. *)
Lemma backoff_timer_le attempt :
  0 ≤ attempt → timer (2 ^ attempt * 1000) ≤ 2 ^ attempt * 1000.
Proof.
  intros H. apply AwaitFacts.timer_le.
  assert (0 < 2 ^ attempt) by (apply Z.pow_pos_nonneg; lia). lia.
Qed.

(** A provider that never answers: every attempt runs into the request
    timer, is retried after its backoff, and the last one surfaces. The
    time this takes is given for a budget of at most 22, whose backoffs no
    timer cuts short. *)
Lemma retry_loop_silent n attempt max r last c w :
  (∀ i id r', answer srv i id r' = AnsSilent) →
  quiet c → ws c = Some OPEN → 0 ≤ attempt →
  Z.of_nat n = max + 1 - attempt → (0 < n)%nat →
  (retry_loop srv n attempt max r last c w).1.1
    = Threw (ThrownError (Error "Request timeout")) ∧
  (max ≤ 22 →
   now (retry_loop srv n attempt max r last c w).2
     = now w + Z.of_nat n * timer (timeout (Client.config c))
       + 1000 * (2 ^ max - 2 ^ attempt)) ∧
  length (sent (trace (retry_loop srv n attempt max r last c w).2))
    = (length (sent (trace w)) + n)%nat ∧
  slept (trace (retry_loop srv n attempt max r last c w).2)
    = slept (trace w) ++ backoffs attempt (pred n).
Proof.
  intros Hsilent. revert attempt last c w.
  induction n as [|n IH]; intros attempt last c w Hq Hopen Hatt Hn Hpos; [lia|].
  simpl.
  pose proof (AwaitFacts.request_quiet srv r c w Hq Hopen) as (Ho & Hc & Hnow & Hs & Hz).
  rewrite Hsilent in Ho, Hc, Hnow. simpl in Ho, Hc, Hnow.
  destruct (request srv r c w) as [[o c'] w']. simpl in Ho, Hc, Hnow, Hs, Hz.
  subst o. rewrite timeout_is_retryable, andb_true_r.
  destruct (attempt <? max) eqn:Hlt; simpl.
  - apply Z.ltb_lt in Hlt.
    assert (Hpow : 0 < 2 ^ attempt) by (apply Z.pow_pos_nonneg; lia).
    destruct (IH (attempt + 1) (Some (Error "Request timeout")) c'
                (tick (timer (2 ^ attempt * 1000))
                   (emit [Slept (2 ^ attempt * 1000)] w')))
      as (Ho' & Hnow' & Hs' & Hz'); [by subst c'|by subst c'|lia|lia|lia|].
    split_and!.
    + exact Ho'.
    + intros Hb. rewrite (Hnow' Hb). simpl. rewrite Hnow.
      rewrite backoff_timer by lia.
      rewrite Z.pow_add_r, Z.pow_1_r by lia.
      subst c'. simpl. lia.
    + rewrite Hs'. simpl. rewrite ClientFacts.sent_app, Hs. simpl.
      rewrite !app_nil_r, length_app. simpl. lia.
    + rewrite Hz'. simpl. rewrite AwaitFacts.slept_app, Hz. simpl.
      destruct n as [|n']; [lia|]. simpl pred.
      by rewrite (backoffs_S attempt n'), <- app_assoc.
  - apply Z.ltb_ge in Hlt. assert (n = O) as -> by lia.
    assert (attempt = max) as -> by lia.
    rewrite Hnow, Hs, Hz, length_app. simpl. rewrite app_nil_r.
    split_and!; done || lia.
Qed.

(** With a retry budget that is not negative the loop runs at least once,
    so [executeWithRetry] returns or throws an error object. *)
Lemma executeWithRetry_outcome cfg r c w :
  0 ≤ maxRetries cfg →
  (∃ resp, (executeWithRetry srv cfg r c w).1.1 = Returned resp) ∨
  (∃ e, (executeWithRetry srv cfg r c w).1.1 = Threw (ThrownError e)).
Proof.
  intros Hmax. unfold executeWithRetry.
  pose proof (retry_loop_outcome (Z.to_nat (maxRetries cfg + 1)) 0
                (maxRetries cfg) r None c w) as [Hh Hu].
  destruct (retry_loop srv _ 0 _ r None c w) as [[[resp|[e|]|] c'] w']; simpl in *.
  - eauto.
  - eauto.
  - destruct (Hu eq_refl) as [Hn _]. lia.
  - done.
Qed.

(** The failure response of [invoke] has the uniform shape. *)
Lemma invoke_catch_shape cfg e :
  ∃ r, invoke_catch cfg (ThrownError e) = Returned r ∧
       uniform_shape r ∧ success r = false ∧ error r = Some (message e) ∧
       toolId r = "custom-mcp".
Proof. eexists. split; [reflexivity|]. unfold uniform_shape. simpl. eauto. Qed.

(** Once [connect] has returned, [invoke] returns a response of the uniform
    shape, whatever happens next. *)
Lemma invoke_after_connect task context k w c k1 w1 :
  connect srv k w = (Returned c, k1, w1) →
  0 ≤ maxRetries (config k) →
  ∃ r, (invoke srv task context k w).1.1 = Returned r ∧
       uniform_shape r ∧ toolId r = "custom-mcp".
Proof.
  intros Hc Hmax. unfold invoke. rewrite Hc.
  pose proof (connect_outcome k w) as (_ & _ & _ & Hcfg). rewrite Hc in Hcfg.
  simpl in Hcfg.
  unfold mapTaskToMCPTool. destruct (availableTools k1) as [tools|]; simpl.
  - destruct (match taskToToolMap !! task_type task with
              | Some toolName => _
              | None => None
              end) as [mcpTool|]; simpl.
    + match goal with |- context [executeWithRetry srv ?cfg ?r c w1] =>
        destruct (executeWithRetry_outcome cfg r c w1) as [[resp H]|[e H]];
          [by rewrite Hcfg|..];
          destruct (executeWithRetry srv cfg r c w1) as [[o c'] w'];
          simpl in H; subst o; simpl
      end.
      * eexists. split; [reflexivity|]. unfold uniform_shape. simpl. eauto.
      * eexists. split; [reflexivity|]. unfold uniform_shape. simpl. eauto.
    + eexists. split; [reflexivity|]. unfold uniform_shape. simpl. eauto.
  - eexists. split; [reflexivity|]. unfold uniform_shape. simpl. eauto.
Qed.

(** A failure of [connect] leaves [invoke] as it is: thrown to the caller. *)
Lemma invoke_connect_throws task context k w t :
  (connect srv k w).1.1 = Threw t → (invoke srv task context k w).1.1 = Threw t.
Proof.
  unfold invoke. destruct (connect srv k w) as [[[c|t'|] k1] w1]; simpl;
    intros H; by simplify_eq.
Qed.

(** [invoke] settles: nothing it awaits can stay pending for ever. *)
Lemma invoke_not_hung task context k w :
  (invoke srv task context k w).1.1 ≠ Hung.
Proof.
  unfold invoke.
  pose proof (connect_outcome k w) as (Hh & _).
  destruct (connect srv k w) as [[[c|t|] k1] w1]; simpl in *; [|done|done].
  unfold mapTaskToMCPTool. destruct (availableTools k1) as [tools|]; simpl; [|done].
  destruct (match taskToToolMap !! task_type task with
            | Some toolName => _
            | None => None
            end) as [mcpTool|]; simpl; [|done].
  match goal with |- context [executeWithRetry srv ?cfg ?r c w1] =>
    pose proof (retry_loop_outcome (Z.to_nat (maxRetries cfg + 1)) 0
                  (maxRetries cfg) r None c w1) as [Hn _];
    unfold executeWithRetry;
    destruct (retry_loop srv (Z.to_nat (maxRetries cfg + 1)) 0
                (maxRetries cfg) r None c w1) as [[[resp|[e|]|] c'] w']
  end; simpl in *; done.
Qed.

(** [testHealth] always returns a boolean. *)
Lemma testHealth_returns k w : ∃ b, (testHealth srv k w).1.1 = Returned b.
Proof.
  unfold testHealth.
  pose proof (connect_outcome k w) as (Hh & _).
  destruct (connect srv k w) as [[[c|t|] k1] w1]; simpl in *; [|eauto|done].
  pose proof (AwaitFacts.request_not_hung srv
                {| method := "ping"; params := NoParams |} c w1) as Hr.
  destruct (request srv _ c w1) as [[[m|t|] c'] w']; simpl in *; eauto. done.
Qed.

(** On a connected connector whose provider never answers, [invoke] reports
    a timeout after the whole retry schedule. *)
Lemma invoke_silent task context k w c mcpTool :
  client k = Some c → quiet c → ws c = Some OPEN →
  mapTaskToMCPTool task k = Returned (Some mcpTool) →
  0 ≤ maxRetries (config k) ≤ 22 →
  (∀ i id r, answer srv i id r = AnsSilent) →
  ∃ resp, (invoke srv task context k w).1.1 = Returned resp ∧
    success resp = false ∧ error resp = Some "Request timeout" ∧
    now (invoke srv task context k w).2
      = now w + (maxRetries (config k) + 1) * timer (timeout (Client.config c))
        + 1000 * (2 ^ maxRetries (config k) - 1).
Proof.
  intros Hc Hq Hopen Htool Hmax Hsilent.
  unfold invoke, connect. rewrite Hc, Htool. unfold executeWithRetry.
  match goal with |- context [retry_loop srv ?n 0 ?max ?r None c w] =>
    destruct (retry_loop_silent n 0 max r None c w Hsilent Hq Hopen)
      as (Ho & Hnow & _); [lia|lia|lia|];
    destruct (retry_loop srv n 0 max r None c w) as [[o c'] w']
  end.
  simpl in *. subst o. simpl. eexists. split; [reflexivity|]. simpl.
  split_and!; try done. rewrite Hnow, Z2Nat.id by lia. simpl. lia.
Qed.

(** The client that [connect] creates takes the configured timeout, 30000 ms
    when none is configured. *)
Lemma connect_client_timeout k w c :
  client k = None → (connect srv k w).1.1 = Returned c →
  timeout (Client.config c) = or_default (cfg_timeout (config k)) 30000.
Proof.
  intros Hnone. unfold connect. rewrite Hnone.
  set (c0 := new_client _).
  assert (Hc0 : timeout (Client.config c0) = or_default (cfg_timeout (config k)) 30000)
    by done.
  assert (Hi : Client.config (initialize srv c0 w).1.2 = Client.config c0).
  { unfold initialize, initialize_start. destruct (construct srv _); [done|].
    destruct (accept srv _) as [d|d|]; try destruct (in_time d _); done. }
  destruct (initialize srv c0 w) as [[[u|t|] c1] w1]; simpl in *; [|done|done].
  unfold listTools.
  pose proof (AwaitFacts.request_effects srv
                {| method := "tools/list"; params := NoParams |} c1 w1)
    as (_ & _ & _ & Hr).
  destruct (request srv _ c1 w1) as [[[m|t|] c2] w2]; simpl in *; [|done|done].
  destruct (msg_result m); simpl; intros H; simplify_eq; by rewrite Hr, Hi.
Qed.

End WithServer.
End MCPFacts.

(** ** The plugin-command connector *)

Module ContinueFacts.
Import Continue.

Lemma command_then_outcome h command argument build :
  (∀ result, uniform_shape (build result) ∧ toolId (build result) = "continue") →
  match command_then h command argument build with
  | Returned r => uniform_shape r ∧ toolId r = "continue"
  | Threw t => ∃ e, t = ThrownError e
  | Hung => executeCommand h command argument = Never
  end.
Proof.
  intros Hb. unfold command_then.
  destruct (executeCommand h command argument); eauto.
Qed.

(** A handler returns a success of the uniform shape, throws an error object,
    or waits for a command that never settles. *)
Lemma dispatch_outcome k h task context :
  match dispatch k h task context with
  | Returned r => uniform_shape r ∧ toolId r = "continue"
  | Threw t => ∃ e, t = ThrownError e
  | Hung => ∃ command argument, executeCommand h command argument = Never
  end.
Proof.
  assert (Hshape : ∀ d m,
    uniform_shape {| success := true; data := Some d; error := None;
                     toolId := "continue"; metadata := m |} ∧
    toolId {| success := true; data := Some d; error := None;
              toolId := "continue"; metadata := m |} = "continue").
  { intros d m. unfold uniform_shape. simpl. eauto. }
  unfold dispatch, handleCompletion, handlePlanning, handleRefactoring,
    handleAnalysis, handleGenericTask, throw.
  destruct (enableCompletion (config k)), (enableChat (config k)),
    (enableEdit (config k)), (activeTextEditor h) as [editor|];
    repeat case_bool_decide; simpl; eauto.
  all: match goal with
       | |- context [command_then ?h' ?c ?a ?b] =>
           pose proof (command_then_outcome h' c a b (λ result, Hshape _ _)) as Hcmd;
           destruct (command_then h' c a b); eauto
       end.
Qed.


Lemma continue_invoke_connect_throws task context k h t :
  (connect k h).1.1 = Threw t → (invoke task context k h).1.1 = Threw t.
Proof.
  unfold invoke. destruct (connect k h) as [[[c|t'|] k1] h1]; simpl;
    intros H; by simplify_eq.
Qed.

(** Once [connect] has returned, [invoke] does not throw: it returns a
    response of the uniform shape, unless the command it waits for never
    settles. *)
Lemma continue_invoke_after_connect task context k h e k1 h1 :
  connect k h = (Returned e, k1, h1) →
  match (invoke task context k h).1.1 with
  | Returned r => uniform_shape r ∧ toolId r = "continue"
  | Threw _ => False
  | Hung => ∃ command argument, executeCommand h1 command argument = Never
  end.
Proof.
  intros Hc. unfold invoke. rewrite Hc. simpl.
  pose proof (dispatch_outcome k1 h1 task context) as H.
  destruct (dispatch k1 h1 task context) as [r|t|]; [done| |done].
  destruct H as [err ->]. unfold uniform_shape. simpl. eauto.
Qed.

End ContinueFacts.



(** C3 (amended). A default-configured connector has a retry budget of 3:
    whatever the provider does, [executeWithRetry] sends the request at most
    4 times, each retry after an exponential backoff of 1000, 2000 and then
    4000 ms, before the last error is thrown. *)
Theorem default_retry_budget (env : option string) (srv : Server) (r : Request)
    (c : CustomMCPClient) (w : World) :
  MCP.maxRetries (MCP.createCustomMCPConfig env MCP.no_options) = 3 ∧
  ((∃ resp, (MCP.executeWithRetry srv
               (MCP.createCustomMCPConfig env MCP.no_options) r c w).1.1
            = Returned resp) ∨
   (∃ e, (MCP.executeWithRetry srv
            (MCP.createCustomMCPConfig env MCP.no_options) r c w).1.1
         = Threw (ThrownError e))) ∧
  ∃ (k : nat) (l : list N),
    (k ≤ 3)%nat ∧ (length l ≤ S k)%nat ∧
    sent (trace (MCP.executeWithRetry srv
                   (MCP.createCustomMCPConfig env MCP.no_options) r c w).2)
      = sent (trace w) ++ l ∧
    slept (trace (MCP.executeWithRetry srv
                    (MCP.createCustomMCPConfig env MCP.no_options) r c w).2)
      = slept (trace w) ++ take k [1000; 2000; 4000].
Proof.
  split; [reflexivity|].
  split; [by apply MCPFacts.executeWithRetry_outcome|].
  unfold MCP.executeWithRetry.
  change (MCP.maxRetries (MCP.createCustomMCPConfig env MCP.no_options)) with 3.
  destruct (MCPFacts.retry_loop_effects srv (Z.to_nat (3 + 1)) 0 3 r None c w)
    as (k & l & Hk & Hl & _ & Hslept & Hsent); [reflexivity|].
  exists k, l. rewrite Hslept, Hsent.
  change (pred (Z.to_nat (3 + 1))) with 3%nat in Hk.
  split_and!; try done.
  f_equal. destruct k as [|[|[|[|k]]]]; try reflexivity. lia.
Qed.

(** C3, as stated, fails: against a provider that never answers a tool call,
    the default connector retries three times, sleeping 1000, 2000 and
    4000 ms, before the timeout is reported. *)
Lemma default_connector_retries_three_times :
  let run := MCP.invoke (Scenario.listing [Scenario.analyzer])
               Scenario.analysis_task Scenario.empty_context
               (MCP.new_connector Scenario.default_config) Scenario.world0 in
  run.1.1 = Returned
    {| success := false; data := None; error := Some "Request timeout";
       toolId := "custom-mcp";
       metadata := [("errorType", Str "Error"); ("retryAttempts", Num 3)] |} ∧
  slept (trace run.2) = [1000; 2000; 4000] ∧
  sent (trace run.2) = [1; 2; 3; 4; 5]%N.
Proof. split_and!; reflexivity. Qed.




(** C5 (amended). When [connect] has returned and no tool is mapped to the
    task's type, [invoke] returns a failure response that names the type
    (error type 'Error'), and leaves connector and world as [connect] left
    them: no tool call is sent, nothing is retried, no time passes. A
    connector that was connected already sends nothing at all. *)
Theorem unsupported_task_fails_without_call (srv : Server) (task : Task)
    (context : WorkspaceContext) (k k1 : MCP.CustomMCPConnector) (w w1 : World)
    (c : CustomMCPClient) :
  MCP.connect srv k w = (Returned c, k1, w1) →
  MCP.mapTaskToMCPTool task k1 = Returned None →
  MCP.invoke srv task context k w
    = (Returned
         {| success := false; data := None;
            error := Some ("No MCP tool available for task type: " +:+ task_type task);
            toolId := "custom-mcp";
            metadata :=
              [("errorType", Str "Error");
               ("retryAttempts",
                Num (or_default (MCP.cfg_retryAttempts (MCP.config k)) 0))] |},
       k1, w1) ∧
  (is_Some (MCP.client k) → k1 = k ∧ w1 = w).
Proof.
  intros Hc Hmap. split.
  - unfold MCP.invoke. rewrite Hc, Hmap. simpl.
    pose proof (MCPFacts.connect_outcome srv k w) as (_ & _ & _ & Hcfg).
    rewrite Hc in Hcfg. simpl in Hcfg. by rewrite Hcfg.
  - intros [c0 Hc0]. unfold MCP.connect in Hc. rewrite Hc0 in Hc. by simplify_eq.
Qed.

Lemma unsupported_task_fails_without_call_witness :
  MCP.invoke (Scenario.listing [Scenario.analyzer]) Scenario.planning_task
    Scenario.empty_context
    (Scenario.connector_of (Scenario.listing [Scenario.analyzer]))
    (Scenario.world_of (Scenario.listing [Scenario.analyzer]))
  = (Returned
       {| success := false; data := None;
          error := Some "No MCP tool available for task type: planning";
          toolId := "custom-mcp";
          metadata := [("errorType", Str "Error"); ("retryAttempts", Num 3)] |},
     Scenario.connector_of (Scenario.listing [Scenario.analyzer]),
     Scenario.world_of (Scenario.listing [Scenario.analyzer])).
Proof.
  destruct (unsupported_task_fails_without_call
              (Scenario.listing [Scenario.analyzer]) Scenario.planning_task
              Scenario.empty_context
              (Scenario.connector_of (Scenario.listing [Scenario.analyzer]))
              (Scenario.connector_of (Scenario.listing [Scenario.analyzer]))
              (Scenario.world_of (Scenario.listing [Scenario.analyzer]))
              (Scenario.world_of (Scenario.listing [Scenario.analyzer]))
              (Scenario.client_of (Scenario.listing [Scenario.analyzer])))
    as [H _].
  - reflexivity.
  - reflexivity.
  - exact H.
Defined.

(** C5, as stated, fails: on a connector that is not connected yet, [invoke]
    first connects, which sends a 'tools/list' request to the provider and
    takes time, before the unsupported task type is reported. *)
Lemma unsupported_task_still_lists_tools :
  let run := MCP.invoke (Scenario.listing []) Scenario.planning_task
               Scenario.empty_context
               (MCP.new_connector Scenario.default_config) Scenario.world0 in
  run.1.1 = Returned
    {| success := false; data := None;
       error := Some "No MCP tool available for task type: planning";
       toolId := "custom-mcp";
       metadata := [("errorType", Str "Error"); ("retryAttempts", Num 3)] |} ∧
  trace run.2 !! 2%nat
    = Some (Sent 1 {| method := "tools/list"; params := NoParams |}) ∧
  now run.2 = 5.
Proof. split_and!; reflexivity. Qed.

(** C6 (amended). The message-RPC connector bounds every request by the
    timeout of its own configuration (30000 ms when none is configured), not
    by a deadline of the task: [invoke] never stays pending, and on a
    connected connector whose provider does not answer, every attempt fails
    with 'Request timeout' and [invoke] returns that failure once the retry
    schedule is through: for a retry budget R between 0 and 22, (R + 1)
    request timers and 1000 * (2^R - 1) ms of backoff after it started. A
    request timer takes the configured timeout when that lies between 1 and
    2^31 - 1 ms, and 1 ms otherwise; from the 23rd retry on a backoff would
    exceed 2^31 - 1 ms and take 1 ms as well. *)
Theorem invoke_bounded_by_connector_timeout (srv : Server) (task : Task)
    (context : WorkspaceContext) (k : MCP.CustomMCPConnector) (w : World)
    (c : CustomMCPClient) (mcpTool : CustomMCPTool) :
  MCP.client k = Some c → quiet c → ws c = Some OPEN →
  MCP.mapTaskToMCPTool task k = Returned (Some mcpTool) →
  0 ≤ MCP.maxRetries (MCP.config k) ≤ 22 →
  (∀ i id r, answer srv i id r = AnsSilent) →
  (∀ srv' task' context' k' w',
     (MCP.invoke srv' task' context' k' w').1.1 ≠ Hung) ∧
  (∀ srv' k' w' c',
     MCP.client k' = None → (MCP.connect srv' k' w').1.1 = Returned c' →
     timeout (Client.config c') = or_default (MCP.cfg_timeout (MCP.config k')) 30000) ∧
  (∀ t, (1 ≤ t ≤ 2147483647 → timer t = t) ∧
        (t < 1 ∨ 2147483647 < t → timer t = 1)) ∧
  ∃ resp,
    (MCP.invoke srv task context k w).1.1 = Returned resp ∧
    success resp = false ∧ error resp = Some "Request timeout" ∧
    now (MCP.invoke srv task context k w).2
      = now w
        + (MCP.maxRetries (MCP.config k) + 1) * timer (timeout (Client.config c))
        + 1000 * (2 ^ MCP.maxRetries (MCP.config k) - 1).
Proof.
  intros Hc Hq Hopen Htool Hmax Hsilent. split_and!.
  - intros. apply MCPFacts.invoke_not_hung.
  - intros srv' k' w' c'. apply MCPFacts.connect_client_timeout.
  - intros t. split; [apply AwaitFacts.timer_id|].
    intros H. unfold timer, TIMEOUT_MAX.
    destruct ((1 <=? t) && (t <=? 2147483647)) eqn:E; [|done].
    apply andb_true_iff in E. lia.
  - by apply (MCPFacts.invoke_silent srv task context k w c mcpTool).
Qed.

Lemma invoke_bounded_by_connector_timeout_witness :
  ∃ resp,
    (MCP.invoke Scenario.mute Scenario.analysis_task Scenario.empty_context
       (Scenario.connector_of (Scenario.listing [Scenario.analyzer]))
       (Scenario.world_of (Scenario.listing [Scenario.analyzer]))).1.1
      = Returned resp ∧
    success resp = false ∧ error resp = Some "Request timeout".
Proof.
  destruct (invoke_bounded_by_connector_timeout Scenario.mute
              Scenario.analysis_task Scenario.empty_context
              (Scenario.connector_of (Scenario.listing [Scenario.analyzer]))
              (Scenario.world_of (Scenario.listing [Scenario.analyzer]))
              (Scenario.client_of (Scenario.listing [Scenario.analyzer]))
              Scenario.analyzer)
    as (_ & _ & _ & resp & H1 & H2 & H3 & _).
  - reflexivity.
  - reflexivity.
  - reflexivity.
  - reflexivity.
  - vm_compute. split; discriminate.
  - intros i id r. reflexivity.
  - exists resp. split_and!; assumption.
Defined.

(** C6, as stated, fails: a task with a deadline of one second, sent to a
    provider that never answers the tool call, is reported as timed out only
    after 127 seconds; and the plugin-command connector waits for ever for a
    command that never settles. *)
Lemma deadline_of_task_is_not_enforced :
  let run := MCP.invoke (Scenario.listing [Scenario.analyzer])
               Scenario.analysis_task Scenario.empty_context
               (MCP.new_connector Scenario.default_config) Scenario.world0 in
  task_deadline Scenario.analysis_task = 1000 ∧
  now run.2 - now Scenario.world0 = 127005 ∧
  (Continue.invoke Scenario.planning_task Scenario.empty_context
     Scenario.continue_default Scenario.unresponsive).1.1 = Hung.
Proof. split_and!; reflexivity. Qed.

(** ** The router *)

Module RouterFacts.
Import Router.

Lemma filter_Permutation {A} (f : A → bool) (l l' : list A) :
  l ≡ₚ l' → List.filter f l ≡ₚ List.filter f l'.
Proof.
  induction 1 as [|x l l' _ IH|x y l|l1 l2 l3 _ IH1 _ IH2]; simpl.
  - done.
  - destruct (f x); [by constructor|done].
  - destruct (f x), (f y); try done. apply perm_swap.
  - by etrans.
Qed.

Lemma filter_elem_of {A} (f : A → bool) (l : list A) x :
  x ∈ List.filter f l → x ∈ l.
Proof. rewrite !list_elem_of_In. intros H. by apply filter_In in H as [H _]. Qed.

(** Providers of one snapshot with the same id are the same provider. *)
Lemma same_id_same_provider {ProviderId} (l : list (@Provider ProviderId)) a b :
  NoDup (id <$> l) → a ∈ l → b ∈ l → id a = id b → a = b.
Proof.
  induction l as [|x l IH]; intros Hnd Ha Hb Hid.
  - by apply elem_of_nil in Ha.
  - rewrite fmap_cons in Hnd. apply NoDup_cons in Hnd as [Hx Hnd].
    apply elem_of_cons in Ha as [->|Ha]; apply elem_of_cons in Hb as [->|Hb].
    + done.
    + exfalso. apply Hx. rewrite Hid. by apply list_elem_of_fmap_2.
    + exfalso. apply Hx. rewrite <- Hid. by apply list_elem_of_fmap_2.
    + by apply IH.
Qed.

Section Route.
Context {ProviderId : Type} (id_le : relation ProviderId).
Context `{!RelDecision id_le, !PartialOrder id_le, !Total id_le}.
Variable cfg : RouterConfig.
Variable preferences : string → ProviderId → Z.
Variable performanceHistory : ProviderId → PerformanceRecord.

Lemma ranks_before_total t :
  Total (ranks_before id_le cfg preferences performanceHistory t).
Proof.
  intros a b. unfold ranks_before.
  destruct (Z.lt_trichotomy (score cfg preferences performanceHistory t a)
              (score cfg preferences performanceHistory t b)) as [Hs|[Hs|Hs]];
    [right; by left| |left; by left].
  destruct (Z.lt_trichotomy (latency (performanceHistory (id a)))
              (latency (performanceHistory (id b)))) as [Hl|[Hl|Hl]].
  - left. right. split; [done|]. by left.
  - destruct (total id_le (id a) (id b)) as [Hi|Hi]; [left|right]; right;
      (split; [done|]); right; by split.
  - right. right. split; [done|]. by left.
Qed.

Lemma ranks_before_trans t :
  Transitive (ranks_before id_le cfg preferences performanceHistory t).
Proof.
  intros a b c. unfold ranks_before.
  intros [H1|(H1 & [H1'|(H1' & H1'')])] [H2|(H2 & [H2'|(H2' & H2'')])].
  all: try (left; lia).
  all: try (right; split; [lia|]; left; lia).
  right. split; [lia|]. right. split; [lia|]. by etrans.
Qed.

(** Two providers that rank before each other carry the same id. *)
Lemma ranks_before_antisym t a b :
  ranks_before id_le cfg preferences performanceHistory t a b →
  ranks_before id_le cfg preferences performanceHistory t b a →
  id a = id b.
Proof.
  unfold ranks_before.
  intros [H1|(H1 & [H1'|(H1' & H1'')])] [H2|(H2 & [H2'|(H2' & H2'')])].
  all: try lia.
  by apply (anti_symm id_le).
Qed.

(** The ranking of a snapshot does not depend on the order in which the
    snapshot lists its providers. *)
Lemma rank_Permutation t (l l' : list (@Provider ProviderId)) :
  NoDup (id <$> l) → l ≡ₚ l' →
  rank id_le cfg preferences performanceHistory t l
  = rank id_le cfg preferences performanceHistory t l'.
Proof.
  intros Hnd Hperm. unfold rank.
  pose proof (ranks_before_total t) as Htotal.
  pose proof (ranks_before_trans t) as Htrans.
  apply (Sorted_unique_strong
           (ranks_before id_le cfg preferences performanceHistory t)).
  - intros a b Ha Hb Hab Hba.
    apply (same_id_same_provider l); [done| | |by apply (ranks_before_antisym t)].
    + by rewrite merge_sort_Permutation in Ha.
    + by rewrite merge_sort_Permutation, <- Hperm in Hb.
  - apply Sorted_merge_sort, _.
  - apply Sorted_merge_sort, _.
  - by rewrite !merge_sort_Permutation.
Qed.

Lemma NoDup_filter_ids (f : @Provider ProviderId → bool)
    (l : list (@Provider ProviderId)) :
  NoDup (id <$> l) → NoDup (id <$> List.filter f l).
Proof.
  induction l as [|x l IH]; [done|].
  rewrite fmap_cons. intros Hnd. apply NoDup_cons in Hnd as [Hx Hnd].
  simpl. destruct (f x); [|by apply IH].
  rewrite fmap_cons. apply NoDup_cons. split; [|by apply IH].
  intros Hin. apply Hx. apply list_elem_of_fmap in Hin as (y & -> & Hy).
  apply list_elem_of_fmap_2. by apply filter_elem_of in Hy.
Qed.

End Route.
End RouterFacts.

(** C2. [route] is deterministic: for a fixed task, preferences and
    performance history, two snapshots that hold the same providers (with
    pairwise different ids), in whatever order they list them, yield the same
    plan, that is the same primary, the same supporting providers and the
    same fallback chain in the same order; with equal scores and latencies
    the order of the provider ids decides. *)
Theorem route_deterministic {ProviderId : Type} (id_le : relation ProviderId)
    `{!RelDecision id_le, !PartialOrder id_le, !Total id_le}
    (cfg : Router.RouterConfig) (preferences : string → ProviderId → Z)
    (performanceHistory : ProviderId → Router.PerformanceRecord)
    (t : Router.RouterTask) (snapshot snapshot' : list Router.Provider) :
  NoDup (Router.id <$> snapshot) →
  snapshot ≡ₚ snapshot' →
  Router.route id_le cfg preferences performanceHistory t snapshot
  = Router.route id_le cfg preferences performanceHistory t snapshot'.
Proof.
  intros Hnd Hperm. unfold Router.route.
  pose proof (RouterFacts.filter_Permutation (Router.capable t) _ _ Hperm) as Hc.
  pose proof (RouterFacts.filter_Permutation (Router.relaxed cfg) _ _ Hperm) as Hr.
  pose proof (RouterFacts.rank_Permutation id_le cfg preferences performanceHistory t
                _ _ (RouterFacts.NoDup_filter_ids _ _ Hnd) Hc) as Hrc.
  pose proof (RouterFacts.rank_Permutation id_le cfg preferences performanceHistory t
                _ _ (RouterFacts.NoDup_filter_ids _ _ Hnd) Hr) as Hrr.
  destruct (List.filter (Router.capable t) snapshot) as [|x l] eqn:E1;
    destruct (List.filter (Router.capable t) snapshot') as [|x' l'] eqn:E2.
  - by rewrite Hrr.
  - by apply Permutation_nil_cons in Hc.
  - symmetry in Hc. by apply Permutation_nil_cons in Hc.
  - by rewrite Hrc.
Qed.

(** An instance with equal scores: providers 7 and 3 tie on every count, and
    the snapshot listed in either order puts provider 3 first. *)
Lemma route_deterministic_witness :
  Router.route N.le Scenario.router_config Scenario.no_preferences
    Scenario.flat_history Scenario.completion_task Scenario.snapshot
  = Router.route N.le Scenario.router_config Scenario.no_preferences
      Scenario.flat_history Scenario.completion_task (reverse Scenario.snapshot).
Proof.
  apply (route_deterministic N.le).
  - apply (bool_decide_unpack _). vm_compute. exact I.
  - symmetry. apply reverse_Permutation.
Defined.

(** The scenarios of the design, on the router as modelled: a task that
    requires completion goes to A, with B as fallback; one that requires
    planning goes to B alone, C being unavailable; a capability nobody
    offers yields a plan without primary. *)
Lemma route_design_scenarios :
  Router.route N.le Scenario.router_config Scenario.no_preferences
    Scenario.history_ABC (Scenario.task_requiring "completion")
    Scenario.providers_ABC
  = {| Router.plan_task := "t"; Router.primary := Some 1%N;
       Router.supporting := []; Router.fallback := [2%N];
       Router.degraded := false |} ∧
  Router.route N.le Scenario.router_config Scenario.no_preferences
    Scenario.history_ABC (Scenario.task_requiring "planning")
    Scenario.providers_ABC
  = {| Router.plan_task := "t"; Router.primary := Some 2%N;
       Router.supporting := []; Router.fallback := [];
       Router.degraded := false |} ∧
  Router.primary
    (Router.route N.le Scenario.router_config Scenario.no_preferences
       Scenario.history_ABC (Scenario.task_requiring "security-scan")
       Scenario.providers_ABC) = None.
Proof. split_and!; reflexivity. Qed.

(** The hybrid router takes the traditional tools first for linting, and the
    AI tools first for planning. *)
Lemma routeTask_branches {Tools Plan : Type} (getAITools getTraditionalTools : Task → Tools)
    (preferTraditionalTools preferAITools coordinateHybridApproach : Tools → Tools → Plan)
    (task : Task) :
  (task_type task = "linting" →
   Router.routeTask getAITools getTraditionalTools preferTraditionalTools
     preferAITools coordinateHybridApproach task
   = preferTraditionalTools (getTraditionalTools task) (getAITools task)) ∧
  (task_type task = "planning" →
   Router.routeTask getAITools getTraditionalTools preferTraditionalTools
     preferAITools coordinateHybridApproach task
   = preferAITools (getAITools task) (getTraditionalTools task)).
Proof.
  unfold Router.routeTask. split; intros H; by rewrite H.
Qed.

(** C7 (amended). [disconnect] is idempotent on both connectors: a second
    call leaves connector and world as the first call left them. After
    [disconnect] the message-RPC connector has released its transport: it
    holds no client, and the client it held has closed and dropped its socket
    and emptied its table. The plugin-command connector releases nothing: it
    keeps its reference to the extension and its configuration and is only
    marked as not initialized, so that the next [connect] looks the
    extension up afresh instead of using the reference it holds. *)
Theorem disconnect_idempotent (k : MCP.CustomMCPConnector) (w : World)
    (kc : Continue.ContinueConnector) (h : Continue.Host) :
  MCP.disconnect (MCP.disconnect k w).1 (MCP.disconnect k w).2 = MCP.disconnect k w ∧
  MCP.client (MCP.disconnect k w).1 = None ∧
  match MCP.client k with
  | Some c =>
      ws (close c).1 = None ∧ pendingRequests (close c).1 = ∅ ∧
      trace (MCP.disconnect k w).2 = trace w ++ (close c).2 ∧
      match ws c with
      | Some _ => head (close c).2 = Some SocketClosed
      | None => True
      end
  | None => MCP.disconnect k w = (k, w)
  end ∧
  Continue.disconnect (Continue.disconnect kc) = Continue.disconnect kc ∧
  Continue.isInitialized (Continue.disconnect kc) = false ∧
  Continue.extension (Continue.disconnect kc) = Continue.extension kc ∧
  Continue.config (Continue.disconnect kc) = Continue.config kc ∧
  match Continue.getExtension h with
  | Continue.Found => True
  | _ => ∃ t, (Continue.connect (Continue.disconnect kc) h).1.1 = Threw t
  end.
Proof.
  split_and!.
  - unfold MCP.disconnect. destruct (MCP.client k) as [c|] eqn:Hc; simpl.
    + by destruct (close c).
    + by rewrite Hc.
  - unfold MCP.disconnect. destruct (MCP.client k) as [c|] eqn:Hc; simpl; [|done].
    by destruct (close c).
  - unfold MCP.disconnect. destruct (MCP.client k) as [c|] eqn:Hc; [|done].
    destruct (ClientFacts.close_table c) as [Ht Hw].
    split_and!; try done.
    + by destruct (close c).
    + unfold close. by destruct (ws c).
  - done.
  - done.
  - done.
  - done.
  - unfold Continue.connect, Continue.disconnect. simpl.
    destruct (Continue.getExtension h); [done|..]; destruct (Continue.extension kc); eauto.
Qed.

(** C7, as stated, fails: the plugin-command connector that has connected
    holds a reference to the extension, and still holds it after
    [disconnect]. *)
Lemma continue_disconnect_keeps_reference :
  let kc := (Continue.connect Scenario.continue_default Scenario.unresponsive).1.2 in
  Continue.extension kc = Some Continue.ContinueExtension ∧
  Continue.extension (Continue.disconnect kc) = Some Continue.ContinueExtension ∧
  Continue.extension (Continue.disconnect (Continue.disconnect kc))
    = Some Continue.ContinueExtension.
Proof. split_and!; reflexivity. Qed.

(** C9 (amended). The capability probe of the plugin-command provider: a
    provider that is missing or inactive yields the empty capability list,
    nothing is thrown for it; an active provider whose host hands out its
    list of commands yields a sublist of the six capabilities the probe
    knows, without repetition. The probe catches nothing: when the lookup of
    the extension throws, or the host rejects the request for its commands,
    the probe throws that error, and while the host does not answer the
    probe stays pending. The probe is a function of the editor host alone
    and changes no provider. *)
Theorem probe_yields_capability_list (h : Continue.Host) :
  match Continue.getExtension h with
  | Continue.NotFound => Continue.testContinueCapabilities h = Returned []
  | Continue.Found =>
      if Continue.isActive h
      then match Continue.getCommands h with
           | Continue.Fulfils _ =>
               ∃ caps, Continue.testContinueCapabilities h = Returned caps ∧
                       caps `sublist_of` Continue.capabilities ∧ NoDup caps
           | Continue.Rejects e =>
               Continue.testContinueCapabilities h = Threw (ThrownError e)
           | Continue.Never => Continue.testContinueCapabilities h = Hung
           end
      else Continue.testContinueCapabilities h = Returned []
  | Continue.LookupThrows e =>
      Continue.testContinueCapabilities h = Threw (ThrownError e)
  end.
Proof.
  unfold Continue.testContinueCapabilities.
  destruct (Continue.getExtension h); try done.
  destruct (Continue.isActive h); simpl; [|done].
  destruct (Continue.getCommands h) as [commands| |]; try done.
  eexists. split; [reflexivity|].
  destruct (Continue.includes commands "continue.quickEdit"),
    (Continue.includes commands "continue.sendChatMessage"),
    (Continue.includes commands "continue.continueEdit"); simpl.
  all: split;
    [unfold Continue.capabilities;
     repeat first [apply sublist_nil | apply sublist_skip | apply sublist_cons]
    |apply (bool_decide_unpack _); vm_compute; exact I].
Qed.

(** C9, as stated, fails: for an active extension on a host that rejects the
    request for its commands, the probe throws instead of returning a
    capability list. *)
Lemma probe_throws_when_commands_fail :
  Continue.testContinueCapabilities
    {| Continue.getExtension := Continue.Found;
       Continue.isActive := true;
       Continue.activate := Continue.Fulfils ();
       Continue.activeTextEditor := None;
       Continue.executeCommand := λ _ _, Continue.Never;
       Continue.getCommands := Continue.Rejects (Error "command service failed") |}
  = Threw (ThrownError (Error "command service failed")).
Proof. reflexivity. Qed.

(** On a connected connector the health check is true exactly when the
    server answers the ping in time, under the id of the request, without an
    error and with the result 'pong'. *)
Lemma testHealth_connected (srv : Server) (k : MCP.CustomMCPConnector) (w : World)
    (c : CustomMCPClient) :
  MCP.client k = Some c → quiet c → ws c = Some OPEN →
  ((MCP.testHealth srv k w).1.1 = Returned true ↔
   ∃ d m,
     answer srv (length (sent (trace w))) (N.succ (requestId c)) Scenario.ping
       = AnsMessage d m ∧
     in_time d (timeout (Client.config c)) = true ∧
     msg_id m = N.succ (requestId c) ∧
     msg_error m = None ∧ msg_result m = Str "pong").
Proof.
  intros Hc Hq Hopen. unfold MCP.testHealth, MCP.connect. rewrite Hc.
  pose proof (AwaitFacts.request_quiet srv Scenario.ping c w Hq Hopen) as (Ho & _).
  change {| method := "ping"; params := NoParams |} with Scenario.ping.
  destruct (request srv Scenario.ping c w) as [[o c'] w']. simpl in Ho. subst o.
  unfold reply.
  destruct (answer srv _ _ Scenario.ping) as [d m|d|]; simpl.
  - destruct (in_time d (timeout (Client.config c))) eqn:Hin; simpl.
    + destruct (msg_id m =? N.succ (requestId c))%N eqn:Hid; simpl.
      * apply N.eqb_eq in Hid.
        destruct (msg_error m) as [msg|] eqn:He; simpl.
        { split; [done|]. intros (d' & m' & Heq & _ & _ & He' & _).
          injection Heq as <- <-. congruence. }
        destruct (msg_result m) as [|s| | |] eqn:Hr; simpl.
        2: { split.
             - intros H. simplify_eq. apply bool_decide_eq_true in H. subst s.
               exists d, m. by rewrite Hr.
             - intros (d' & m' & Heq & _ & _ & _ & Hr').
               injection Heq as <- <-. rewrite Hr in Hr'.
               injection Hr' as ->. reflexivity. }
        all: split; [done|]; intros (d' & m' & Heq & _ & _ & _ & Hr');
          injection Heq as <- <-; congruence.
      * apply N.eqb_neq in Hid. split; [done|].
        intros (d' & m' & Heq & _ & Hid' & _). injection Heq as <- <-. done.
    + split; [done|]. intros (d' & m' & Heq & Hin' & _).
      injection Heq as <- <-. congruence.
  - destruct (in_time d (timeout (Client.config c))); simpl;
      (split; [done|]; intros (d' & m' & Heq & _); done).
  - split; [done|]. intros (d' & m' & Heq & _). done.
Qed.

(** C8. The health check of either connector returns a boolean, whatever the
    state of the provider, and never throws. On the message-RPC connector it
    is true exactly when [connect] succeeds and the ping is answered with the
    result 'pong' (for a connected connector: when the server answers
    before the request timer of the platform fires, without error, 'pong';
    that timer fires after the configured timeout when it lies between 1 and
    2^31 - 1 ms, and after 1 ms otherwise), and false when the connection or
    the ping fails; on the plugin-command connector it is true exactly when
    the extension is found and active. *)
Theorem health_check_returns_boolean (srv : Server) (k : MCP.CustomMCPConnector)
    (w : World) (kc : Continue.ContinueConnector) (h : Continue.Host) :
  (∃ b, (MCP.testHealth srv k w).1.1 = Returned b) ∧
  match MCP.connect srv k w with
  | (Returned c, _, w1) =>
      match (request srv Scenario.ping c w1).1.1 with
      | Returned m =>
          (MCP.testHealth srv k w).1.1 = Returned true ↔ msg_result m = Str "pong"
      | _ => (MCP.testHealth srv k w).1.1 = Returned false
      end
  | _ => (MCP.testHealth srv k w).1.1 = Returned false
  end ∧
  (∀ c, MCP.client k = Some c → quiet c → ws c = Some OPEN →
     ((MCP.testHealth srv k w).1.1 = Returned true ↔
      ∃ d m,
        answer srv (length (sent (trace w))) (N.succ (requestId c)) Scenario.ping
          = AnsMessage d m ∧
        0 ≤ d < timer (timeout (Client.config c)) ∧
        msg_id m = N.succ (requestId c) ∧
        msg_error m = None ∧ msg_result m = Str "pong")) ∧
  (∃ b, Continue.testHealth kc h = Returned b) ∧
  (Continue.testHealth kc h = Returned true ↔
   Continue.getExtension h = Continue.Found ∧ Continue.isActive h = true).
Proof.
  split_and!.
  - apply MCPFacts.testHealth_returns.
  - unfold MCP.testHealth.
    pose proof (MCPFacts.connect_outcome srv k w) as (Hh & _).
    destruct (MCP.connect srv k w) as [[[c|t|] k1] w1]; simpl in *; try done.
    change {| method := "ping"; params := NoParams |} with Scenario.ping.
    pose proof (AwaitFacts.request_not_hung srv Scenario.ping c w1) as Hr.
    destruct (request srv Scenario.ping c w1) as [[[m|t|] c'] w']; simpl in *;
      try done.
    destruct (msg_result m) as [|s| | |]; simpl; try (split; intros H; done).
    split; intros H.
    + injection H as H. apply bool_decide_eq_true in H. by subst.
    + injection H as ->. reflexivity.
  - intros c Hc Hq Hopen. rewrite (testHealth_connected srv k w c Hc Hq Hopen).
    split; intros (d & m & Ha & Hin & Hrest); exists d, m;
      (split; [done|]); (split; [|done]); by apply AwaitFacts.in_time_iff.
  - unfold Continue.testHealth. destruct (Continue.getExtension h); eauto.
  - unfold Continue.testHealth.
    destruct (Continue.getExtension h); split; try (intros [? ?]); try done.
    + intros H. injection H as H. by rewrite H.
    + match goal with Hact : Continue.isActive h = true |- _ => by rewrite Hact end.
Qed.

(** An instance of the health check: a connected connector whose server
    answers the ping with 'pong' is healthy. *)
Lemma health_check_returns_boolean_witness :
  (MCP.testHealth (Scenario.listing [Scenario.analyzer])
     (Scenario.connector_of (Scenario.listing [Scenario.analyzer]))
     (Scenario.world_of (Scenario.listing [Scenario.analyzer]))).1.1
  = Returned true.
Proof.
  destruct (health_check_returns_boolean (Scenario.listing [Scenario.analyzer])
              (Scenario.connector_of (Scenario.listing [Scenario.analyzer]))
              (Scenario.world_of (Scenario.listing [Scenario.analyzer]))
              Scenario.continue_default Scenario.no_extension)
    as (_ & _ & H & _).
  apply (H (Scenario.client_of (Scenario.listing [Scenario.analyzer]))).
  - reflexivity.
  - reflexivity.
  - reflexivity.
  - exists 5, (Scenario.pong 2). split_and!; try reflexivity. by vm_compute.
Defined.

(** With a negative retry budget the loop of [executeWithRetry] never runs
    and throws its unassigned [lastError]; the [catch] block of [invoke]
    then fails in turn, and that error reaches the caller. *)
Lemma negative_retry_budget_escapes :
  (MCP.invoke Scenario.mute Scenario.analysis_task Scenario.empty_context
     (MCP.set_tools (Some [Scenario.analyzer])
        (MCP.set_client (Some (Scenario.client_of Scenario.mute))
           (MCP.new_connector Scenario.negative_budget)))
     Scenario.world0).1.1
  = Threw (ThrownError
      (TypeError "Cannot read properties of undefined (reading 'message')")).
Proof. reflexivity. Qed.

(** * Further properties of the connectors *)

(** ** The client: no request is lost *)

Module ClientMore.
Import Client More.

Lemma ids_upto_succ n : ids_upto (N.succ n) = ids_upto n ++ [N.succ n].
Proof.
  unfold ids_upto. rewrite N2Nat.inj_succ, seq_S, fmap_app. simpl.
  do 2 f_equal. lia.
Qed.

Lemma sent_close c : sent (close c).2 = [].
Proof.
  assert (H : ∀ c0, sent (rejectPendingRequests (Error "Client closing") c0).2 = []).
  { intros c0. unfold rejectPendingRequests. cbn [snd].
    by rewrite ClientFacts.sent_app, ClientFacts.sent_reject_all. }
  unfold close. destruct (ws c).
  - specialize (H (set_ws None c)).
    destruct (rejectPendingRequests _ (set_ws None c)) as [c2 fx2].
    cbn [fst snd app] in *. by rewrite AwaitFacts.sent_cons.
  - specialize (H c). by destruct (rejectPendingRequests _ c) as [c2 fx2].
Qed.

Lemma requestId_close c : requestId (close c).1 = requestId c.
Proof. unfold close. by destruct (ws c). Qed.

(** The invariant of the claims, extended: the ids sent are consecutive, and
    whatever was sent is settled or still in the table. *)
Lemma accounted_run es cfg :
  let c := (run es (new_client cfg)).1 in
  let fx := (run es (new_client cfg)).2 in
  Inv c fx ∧ sent fx = ids_upto (requestId c) ∧
  ∀ id, id ∈ sent fx → id ∈ settled fx ∨ is_Some (pendingRequests c !! id).
Proof.
  assert (Hgen : ∀ es c tr,
    Inv c tr → sent tr = ids_upto (requestId c) →
    (∀ id, id ∈ sent tr → id ∈ settled tr ∨ is_Some (pendingRequests c !! id)) →
    Inv (run es c).1 (tr ++ (run es c).2) ∧
    sent (tr ++ (run es c).2) = ids_upto (requestId (run es c).1) ∧
    ∀ id, id ∈ sent (tr ++ (run es c).2) →
          id ∈ settled (tr ++ (run es c).2)
          ∨ is_Some (pendingRequests (run es c).1 !! id)).
  { clear es. intros es. induction es as [|e es IH]; intros c tr HI Hs Ha.
    { simpl. by rewrite app_nil_r. }
    simpl.
    pose proof (ClientFacts.Inv_step e c tr HI) as HI1.
    assert (Hstep : sent (tr ++ (step e c).2) = ids_upto (requestId (step e c).1) ∧
              ∀ id, id ∈ sent (tr ++ (step e c).2) →
                    id ∈ settled (tr ++ (step e c).2)
                    ∨ is_Some (pendingRequests (step e c).1 !! id)).
    { rewrite !ClientFacts.sent_app, !ClientFacts.settled_app.
      assert (Hkeep : ∀ c' fx, sent fx = [] → requestId c' = requestId c →
                (∀ id, is_Some (pendingRequests c !! id) →
                       id ∈ settled fx ∨ is_Some (pendingRequests c' !! id)) →
                sent tr ++ sent fx = ids_upto (requestId c') ∧
                ∀ id, id ∈ sent tr ++ sent fx →
                      id ∈ settled tr ++ settled fx
                      ∨ is_Some (pendingRequests c' !! id)).
      { intros c' fx Hs' Hr Hp. rewrite Hs', app_nil_r, Hr. split; [done|].
        intros id Hid. destruct (Ha id Hid) as [H|H].
        - left. apply elem_of_app. by left.
        - destruct (Hp id H) as [H'|H']; [left|by right].
          apply elem_of_app. by right. }
      assert (Hall : ∀ e' (c0 : CustomMCPClient),
                pendingRequests c0 = pendingRequests c →
                ∀ id, is_Some (pendingRequests c !! id) →
                  id ∈ settled (rejectPendingRequests e' c0).2
                  ∨ is_Some (pendingRequests (rejectPendingRequests e' c0).1 !! id)).
      { intros e' c0 Hc0 id [cb Hcb]. left.
        unfold rejectPendingRequests. simpl.
        rewrite ClientFacts.settled_app, ClientFacts.settled_reject_all, Hc0.
        apply elem_of_app. left. apply list_elem_of_fmap.
        exists (id, cb). split.
        - simpl. by destruct (inv_pending _ _ HI _ _ Hcb).
        - by apply ClientFacts.elem_of_entries. }
      destruct e; cbn [step].
      - by apply Hkeep; [| |auto].
      - by apply Hkeep; [| |auto].
      - by apply Hkeep; [| |auto].
      - by apply Hkeep; [| |auto].
      - destruct (request_send r c) as [err|[[id c'] fx]] eqn:Hreq; cbn [fst snd].
        + by apply Hkeep; [| |auto].
        + destruct (ClientFacts.request_send_id _ _ _ _ _ Hreq) as (-> & Hr & Hp & ->).
          rewrite Hr, ids_upto_succ, <- Hs. split; [done|].
          intros id Hid. apply elem_of_app in Hid as [Hid|Hid].
          * destruct (Ha id Hid) as [H|[cb H]].
            { left. apply elem_of_app. by left. }
            right. rewrite Hp.
            destruct (decide (N.succ (requestId c) = id)) as [->|Hne].
            { rewrite lookup_insert_eq. eauto. }
            rewrite lookup_insert_ne by done. eauto.
          * apply list_elem_of_singleton in Hid. subst id. right.
            rewrite Hp, lookup_insert_eq. eauto.
      - unfold request_timer.
        destruct (pendingRequests c !! id) as [cb|] eqn:Hcb; cbn [fst snd].
        + destruct (inv_pending _ _ HI _ _ Hcb) as [Hprom _].
          apply Hkeep; [done|done|]. intros id' [cb' Hcb'].
          destruct (decide (id = id')) as [->|Hne].
          * left. unfold settled. simpl. rewrite Hprom. constructor.
          * right. simpl. rewrite lookup_delete_ne by done. eauto.
        + by apply Hkeep; [| |auto].
      - unfold handleMessage.
        destruct (negb (msg_id m =? 0)%N); [|by apply Hkeep; [| |auto]].
        destruct (pendingRequests c !! msg_id m) as [cb|] eqn:Hcb;
          [|by apply Hkeep; [| |auto]].
        destruct (inv_pending _ _ HI _ _ Hcb) as [Hprom _].
        destruct (msg_error m); cbn [fst snd].
        all: apply Hkeep; [done|done|]; intros id' [cb' Hcb'];
          destruct (decide (msg_id m = id')) as [<-|Hne];
          [left; unfold settled; simpl; rewrite Hprom; constructor
          |right; simpl; rewrite lookup_delete_ne by done; eauto].
      - unfold onclose. apply Hkeep.
        + unfold rejectPendingRequests. simpl.
          by rewrite ClientFacts.sent_app, ClientFacts.sent_reject_all.
        + done.
        + by apply Hall.
      - apply Hkeep; [apply sent_close|apply requestId_close|].
        intros id [cb Hcb]. left.
        rewrite (ClientFacts.close_settled c tr HI).
        apply list_elem_of_fmap. exists (id, cb). split; [done|].
        by apply ClientFacts.elem_of_entries. }
    destruct Hstep as [Hs1 Ha1].
    destruct (step e c) as [c1 fx1]. simpl in *.
    specialize (IH c1 (tr ++ fx1) HI1 Hs1 Ha1).
    destruct (run es c1) as [c2 fx2]. simpl in *.
    by rewrite app_assoc. }
  intros c fx.
  apply (Hgen es (new_client cfg) []); [apply ClientFacts.Inv_new|done|].
  intros id Hid. by apply elem_of_nil in Hid.
Qed.

End ClientMore.

(** X1. No request of the client is lost: at any time in the life of a
    client, whatever was sent has been settled or is still in the table; and
    once [close] has run, the requests settled are exactly the requests
    sent, each of them once. *)
Theorem no_request_is_lost (cfg : ClientConfig) (es : list Event)
    (c : CustomMCPClient) (fx : list Effect) :
  run es (new_client cfg) = (c, fx) →
  (∀ id, id ∈ sent fx → id ∈ settled fx ∨ is_Some (pendingRequests c !! id)) ∧
  settled (fx ++ (close c).2) ≡ₚ sent fx.
Proof.
  intros Hrun.
  pose proof (ClientMore.accounted_run es cfg) as H. rewrite Hrun in H.
  simpl in H. destruct H as (HI & _ & Ha). split; [done|].
  pose proof (ClientFacts.Inv_close c fx HI) as HIc.
  apply NoDup_Permutation.
  - apply (inv_once _ _ HIc).
  - apply (inv_fresh _ _ HI).
  - intros id. split.
    + intros Hid. apply (inv_settled _ _ HIc) in Hid as [Hid _].
      by rewrite ClientFacts.sent_app, ClientMore.sent_close, app_nil_r in Hid.
    + intros Hid. rewrite ClientFacts.settled_app. apply elem_of_app.
      destruct (Ha id Hid) as [H|[cb Hcb]]; [by left|right].
      rewrite (ClientFacts.close_settled c fx HI).
      apply list_elem_of_fmap. exists (id, cb). split; [done|].
      by apply ClientFacts.elem_of_entries.
Qed.

Lemma no_request_is_lost_witness :
  settled ((run [EInitialize; EOpen; ERequest Scenario.ping; ERequest Scenario.ping;
                 EMessage (Scenario.pong 2)] (new_client Scenario.cfg0)).2
           ++ (close (run [EInitialize; EOpen; ERequest Scenario.ping;
                           ERequest Scenario.ping; EMessage (Scenario.pong 2)]
                        (new_client Scenario.cfg0)).1).2)
  ≡ₚ [1; 2]%N.
Proof.
  apply (no_request_is_lost Scenario.cfg0
           [EInitialize; EOpen; ERequest Scenario.ping; ERequest Scenario.ping;
            EMessage (Scenario.pong 2)]).
  reflexivity.
Defined.

(** X2. The request ids of a client are consecutive: the n-th request that
    is sent carries the id n, and the counter is the number of requests sent
    so far (a request that is refused takes no id). *)
Theorem request_ids_are_consecutive (cfg : ClientConfig) (es : list Event)
    (c : CustomMCPClient) (fx : list Effect) :
  run es (new_client cfg) = (c, fx) →
  sent fx = More.ids_upto (requestId c) ∧
  length (sent fx) = N.to_nat (requestId c).
Proof.
  intros Hrun.
  pose proof (ClientMore.accounted_run es cfg) as H. rewrite Hrun in H.
  simpl in H. destruct H as (_ & Hs & _). split; [done|].
  rewrite Hs. unfold More.ids_upto. by rewrite length_fmap, length_seq.
Qed.

Lemma request_ids_are_consecutive_witness :
  sent (run (ERequest Scenario.ping :: Scenario.life) (new_client Scenario.cfg0)).2
  = [1; 2]%N.
Proof.
  apply (request_ids_are_consecutive Scenario.cfg0
           (ERequest Scenario.ping :: Scenario.life)
           (run (ERequest Scenario.ping :: Scenario.life)
              (new_client Scenario.cfg0)).1).
  reflexivity.
Defined.

(** X3. A client whose socket is not open refuses every request on the spot:
    after [close], before [initialize] and while the socket is connecting,
    [request] throws 'MCP client not connected', takes no id, registers and
    sends nothing, and no time passes. *)
Theorem request_refused_unless_open (srv : Server) (r : Request)
    (c : CustomMCPClient) (cfg : ClientConfig) (w : World) :
  request srv r (close c).1 w
    = (Threw (ThrownError (Error "MCP client not connected")), (close c).1, w) ∧
  request srv r (new_client cfg) w
    = (Threw (ThrownError (Error "MCP client not connected")), new_client cfg, w) ∧
  request srv r (initialize_start c).1 w
    = (Threw (ThrownError (Error "MCP client not connected")),
       (initialize_start c).1, w) ∧
  request srv r (onclose (onopen (initialize_start c).1)).1 w
    = (Threw (ThrownError (Error "MCP client not connected")),
       (onclose (onopen (initialize_start c).1)).1, w).
Proof.
  split_and!; apply AwaitFacts.request_disconnected.
  - destruct (ClientFacts.close_table c) as [_ ->]. done.
  - done.
  - done.
  - done.
Qed.

(** ** The awaited request and the retry loop, in full *)

Module MCPMore.
Import Client Await MCP More.

Section WithServer.
Variable srv : Server.

(** The retry loop keeps the configuration of the client, takes no longer
    than its attempts and backoffs allow, and a response it returns tells the
    number of its attempt and the duration of that attempt alone. *)
Lemma retry_loop_bounds n attempt max r last c w :
  0 ≤ attempt → Z.of_nat n = Z.max 0 (max + 1 - attempt) →
  Client.config (retry_loop srv n attempt max r last c w).1.2 = Client.config c ∧
  now w ≤ now (retry_loop srv n attempt max r last c w).2 ∧
  now (retry_loop srv n attempt max r last c w).2
    ≤ now w + Z.of_nat n * timer (timeout (Client.config c))
      + 1000 * (2 ^ Z.max attempt max - 2 ^ attempt) ∧
  ∀ resp, (retry_loop srv n attempt max r last c w).1.1 = Returned resp →
    attempt < MCP.attempt resp ∧ MCP.attempt resp ≤ max + 1 ∧
    0 ≤ executionTime resp ∧ executionTime resp ≤ timer (timeout (Client.config c)) ∧
    slept (trace (retry_loop srv n attempt max r last c w).2)
      = slept (trace w)
        ++ backoffs attempt (Z.to_nat (MCP.attempt resp - attempt - 1)).
Proof.
  revert attempt last c w. induction n as [|n IH]; intros attempt last c w Hatt Hn.
  { simpl. assert (2 ^ attempt ≤ 2 ^ Z.max attempt max)
      by (apply Z.pow_le_mono_r; lia).
    split_and!; try done; try lia. intros resp Hr. by destruct last. }
  assert (Hle : attempt ≤ max) by lia.
  assert (Hpow : 0 < 2 ^ attempt) by (apply Z.pow_pos_nonneg; lia).
  assert (Hmono : 2 ^ attempt ≤ 2 ^ max) by (apply Z.pow_le_mono_r; lia).
  assert (Htimer : 0 ≤ timer (timeout (Client.config c))) by apply AwaitFacts.timer_nonneg.
  assert (Hn0 : 0 ≤ Z.of_nat n * timer (timeout (Client.config c))) by nia.
  rewrite Z.max_r by lia. simpl retry_loop.
  pose proof (AwaitFacts.request_effects srv r c w) as (_ & Hz & Hnow & Hcfg).
  destruct (request srv r c w) as [[o c'] w']. simpl in Hz, Hnow, Hcfg.
  assert (Hstop : ∀ o' : Outcome RetryResponse,
    (∀ resp, o' = Returned resp →
       MCP.attempt resp = attempt + 1 ∧ executionTime resp = now w' - now w) →
    Client.config c' = Client.config c ∧ now w ≤ now w' ∧
    now w' ≤ now w + Z.of_nat (S n) * timer (timeout (Client.config c))
             + 1000 * (2 ^ max - 2 ^ attempt) ∧
    ∀ resp, o' = Returned resp →
      attempt < MCP.attempt resp ∧ MCP.attempt resp ≤ max + 1 ∧
      0 ≤ executionTime resp ∧ executionTime resp ≤ timer (timeout (Client.config c)) ∧
      slept (trace w')
        = slept (trace w) ++ backoffs attempt (Z.to_nat (MCP.attempt resp - attempt - 1))).
  { intros o' Ho'.
    assert (HSn : Z.of_nat (S n) * timer (timeout (Client.config c))
                  = Z.of_nat n * timer (timeout (Client.config c))
                    + timer (timeout (Client.config c))) by lia.
    split; [done|]. split; [lia|]. split; [lia|].
    intros resp Hresp. destruct (Ho' resp Hresp) as [-> ->].
    replace (attempt + 1 - attempt - 1) with 0 by lia. simpl.
    rewrite app_nil_r. split_and!; done || lia. }
  destruct o as [m|[e|]|]; simpl.
  - apply Hstop. intros resp Hr. by simplify_eq.
  - destruct ((attempt <? max) && isRetryableError e) eqn:Hretry;
      [|by apply Hstop].
    apply andb_true_iff in Hretry as [Hlt _]. apply Z.ltb_lt in Hlt.
    destruct (IH (attempt + 1) (Some e) c'
                (tick (timer (2 ^ attempt * 1000))
                   (emit [Slept (2 ^ attempt * 1000)] w')))
      as (Hc & Hlo & Hhi & Hresp); [lia|lia|].
    rewrite Z.max_r in Hhi by lia.
    rewrite Z.pow_add_r, Z.pow_1_r in Hhi by lia.
    rewrite Hcfg in Hc, Hhi, Hresp. simpl in Hlo, Hhi.
    pose proof (MCPFacts.backoff_timer_le attempt Hatt) as Hdle.
    pose proof (AwaitFacts.timer_nonneg (2 ^ attempt * 1000)) as Hd0.
    assert (HSn : Z.of_nat (S n) * timer (timeout (Client.config c))
                  = Z.of_nat n * timer (timeout (Client.config c))
                    + timer (timeout (Client.config c))) by lia.
    split; [done|]. split; [lia|]. split; [lia|].
    intros resp Hr. destruct (Hresp resp Hr) as (H1 & H2 & H3 & H4 & H5).
    split_and!; try done; try lia.
    rewrite H5. simpl. rewrite AwaitFacts.slept_app, Hz. simpl.
    replace (Z.to_nat (MCP.attempt resp - attempt - 1))
      with (S (Z.to_nat (MCP.attempt resp - (attempt + 1) - 1))) by lia.
    by rewrite MCPFacts.backoffs_S, <- app_assoc.
  - destruct (attempt <? max); by apply Hstop.
  - by apply Hstop.
Qed.

Lemma reply_returned t id a m :
  awaited (reply t id a).1.1 = Returned m ↔
  ∃ d, a = AnsMessage d m ∧ in_time d t = true ∧ msg_id m = id ∧ msg_error m = None.
Proof.
  unfold reply. destruct a as [d m'|d|]; simpl.
  - destruct (in_time d t) eqn:Hin; simpl.
    + destruct (msg_id m' =? id)%N eqn:Hid; simpl.
      * apply N.eqb_eq in Hid.
        destruct (msg_error m') as [msg|] eqn:He; simpl.
        { split; [done|]. intros (d' & Heq & _ & _ & He').
          injection Heq as <- <-. congruence. }
        split.
        { intros H. injection H as <-. by exists d. }
        intros (d' & Heq & _). by injection Heq as <- <-.
      * apply N.eqb_neq in Hid. split; [done|].
        intros (d' & Heq & _ & Hid' & _). by injection Heq as <- <-.
    + split; [done|]. intros (d' & Heq & Hin' & _).
      injection Heq as <- <-. congruence.
  - destruct (in_time d t); simpl; (split; [done|]; by intros (d' & Heq & _)).
  - split; [done|]. by intros (d' & Heq & _).
Qed.

Lemma reply_threw t id a th :
  awaited (reply t id a).1.1 = Threw th →
  (th = ThrownError (Error "Request timeout") ∧ (reply t id a).2 = false
   ∧ (reply t id a).1.2 = timer t) ∨
  (th = ThrownError (Error "Connection closed") ∧ (reply t id a).2 = true) ∨
  (∃ d m msg, a = AnsMessage d m ∧ in_time d t = true ∧ msg_id m = id ∧
     msg_error m = Some msg ∧ th = ThrownError (Error msg)
     ∧ (reply t id a).2 = false).
Proof.
  unfold reply. destruct a as [d m|d|]; simpl.
  - destruct (in_time d t) eqn:Hin; simpl.
    + destruct (msg_id m =? id)%N eqn:Hid; simpl.
      * apply N.eqb_eq in Hid.
        destruct (msg_error m) as [msg|] eqn:He; simpl; [|done].
        intros H. injection H as <-. right. right. by exists d, m, msg.
      * intros H. injection H as <-. by left.
    + intros H. injection H as <-. by left.
  - destruct (in_time d t); simpl; intros H; injection H as <-.
    + right. by left.
    + by left.
  - intros H. injection H as <-. by left.
Qed.

End WithServer.
End MCPMore.

(** X4. On a connected client without outstanding requests, a request
    returns a message exactly when the server answers it before the request
    timer fires with a message that carries the id of this request and no
    error; the message returned is that answer. The timer is the one of the
    platform: it fires after the configured timeout when that lies between
    1 and 2^31 - 1 ms, and after 1 ms otherwise. *)
Theorem request_returns_own_response (srv : Server) (r : Request)
    (c : CustomMCPClient) (w : World) (m : Message) :
  quiet c → ws c = Some OPEN →
  ((request srv r c w).1.1 = Returned m ↔
   ∃ d, answer srv (length (sent (trace w))) (N.succ (requestId c)) r
          = AnsMessage d m ∧
        0 ≤ d < timer (timeout (Client.config c)) ∧
        msg_id m = N.succ (requestId c) ∧ msg_error m = None).
Proof.
  intros Hq Hopen.
  pose proof (AwaitFacts.request_quiet srv r c w Hq Hopen) as (Ho & _).
  simpl in Ho. rewrite Ho, MCPMore.reply_returned.
  split; intros (d & Ha & Hin & Hrest); exists d;
    (split; [done|]); (split; [|done]); by apply AwaitFacts.in_time_iff.
Qed.

Lemma request_returns_own_response_witness :
  (request (Scenario.listing []) Scenario.ping
     (Scenario.client_of (Scenario.listing []))
     (Scenario.world_of (Scenario.listing []))).1.1
  = Returned (Scenario.pong 2).
Proof.
  apply (request_returns_own_response (Scenario.listing []) Scenario.ping
           (Scenario.client_of (Scenario.listing []))
           (Scenario.world_of (Scenario.listing []))).
  - reflexivity.
  - reflexivity.
  - exists 5. split_and!; try reflexivity. by vm_compute.
Defined.

(** X5. The ways a request of a connected client without outstanding
    requests can fail: with 'Request timeout', exactly when the timer of the
    platform has fired (after the configured timeout when that lies between
    1 and 2^31 - 1 ms, after 1 ms otherwise), the socket staying open; with
    'Connection closed', the socket being closed afterwards; or with the
    message of the error that the server sent, before the timer fired, under
    the id of the request. Whichever it is, no request is outstanding
    afterwards. *)
Theorem request_failure_modes (srv : Server) (r : Request)
    (c : CustomMCPClient) (w : World) (th : Thrown) :
  quiet c → ws c = Some OPEN →
  (request srv r c w).1.1 = Threw th →
  quiet (request srv r c w).1.2 ∧
  ((th = ThrownError (Error "Request timeout") ∧
    ws (request srv r c w).1.2 = Some OPEN ∧
    now (request srv r c w).2 = now w + timer (timeout (Client.config c))) ∨
   (th = ThrownError (Error "Connection closed") ∧
    ws (request srv r c w).1.2 = Some CLOSED) ∨
   (∃ d m msg,
      answer srv (length (sent (trace w))) (N.succ (requestId c)) r
        = AnsMessage d m ∧
      0 ≤ d < timer (timeout (Client.config c)) ∧
      msg_id m = N.succ (requestId c) ∧ msg_error m = Some msg ∧
      th = ThrownError (Error msg) ∧
      ws (request srv r c w).1.2 = Some OPEN)).
Proof.
  intros Hq Hopen Hth.
  pose proof (AwaitFacts.request_quiet srv r c w Hq Hopen) as (Ho & Hc & Hnow & _).
  simpl in Ho, Hc, Hnow. rewrite Ho in Hth.
  split; [by rewrite Hc|].
  destruct (MCPMore.reply_threw _ _ _ _ Hth)
    as [(-> & Hd & Ht)|[(-> & Hd)|(d & m & msg & Ha & Hin & Hid & He & -> & Hd)]].
  - left. rewrite Hc, Hnow, Hd, Ht. done.
  - right. left. by rewrite Hc, Hd.
  - right. right. exists d, m, msg. apply AwaitFacts.in_time_iff in Hin.
    by rewrite Hc, Hd.
Qed.

Lemma request_failure_modes_witness :
  ws (request Scenario.mute Scenario.ping
        (Scenario.client_of (Scenario.listing []))
        (Scenario.world_of (Scenario.listing []))).1.2 = Some OPEN ∧
  now (request Scenario.mute Scenario.ping
         (Scenario.client_of (Scenario.listing []))
         (Scenario.world_of (Scenario.listing []))).2 = 30005.
Proof.
  destruct (request_failure_modes Scenario.mute Scenario.ping
              (Scenario.client_of (Scenario.listing []))
              (Scenario.world_of (Scenario.listing []))
              (ThrownError (Error "Request timeout"))) as [_ H].
  - reflexivity.
  - reflexivity.
  - reflexivity.
  - destruct H as [(_ & Hws & Hnow)|[(Hth & _)|(d & m & msg & Ha & _)]].
    + split; [exact Hws|exact Hnow].
    + discriminate Hth.
    + discriminate Ha.
Defined.

(** X6. What [executeWithRetry] reports with a response: [attempt] is the
    number of the attempt that succeeded, between 1 and the retry budget plus
    one, and before it came the backoffs of the attempts that failed;
    [executionTime] is the duration of the successful attempt alone, between
    0 and the request timeout, so it leaves out the earlier attempts and
    their backoffs. *)
Theorem retry_response_metadata (srv : Server) (cfg : MCP.CustomMCPConfig)
    (r : Request) (c : CustomMCPClient) (w : World) (resp : MCP.RetryResponse) :
  (MCP.executeWithRetry srv cfg r c w).1.1 = Returned resp →
  1 ≤ MCP.attempt resp ∧ MCP.attempt resp ≤ MCP.maxRetries cfg + 1 ∧
  0 ≤ MCP.executionTime resp ∧
  MCP.executionTime resp ≤ timer (timeout (Client.config c)) ∧
  slept (trace (MCP.executeWithRetry srv cfg r c w).2)
    = slept (trace w) ++ MCP.backoffs 0 (Z.to_nat (MCP.attempt resp - 1)).
Proof.
  intros Hresp. unfold MCP.executeWithRetry in *.
  destruct (MCPMore.retry_loop_bounds srv (Z.to_nat (MCP.maxRetries cfg + 1)) 0
              (MCP.maxRetries cfg) r None c w) as (_ & _ & _ & H); [lia|lia|].
  destruct (H resp Hresp) as (H1 & H2 & H3 & H4 & H5).
  replace (MCP.attempt resp - 0 - 1) with (MCP.attempt resp - 1) in H5 by lia.
  split_and!; try done; lia.
Qed.

Lemma retry_response_metadata_witness :
  slept (trace (MCP.executeWithRetry Scenario.recovering Scenario.default_config
                  Scenario.analysis_call (Scenario.client_of Scenario.recovering)
                  (Scenario.world_of Scenario.recovering)).2)
  = slept (trace (Scenario.world_of Scenario.recovering)) ++ MCP.backoffs 0 1.
Proof.
  apply (retry_response_metadata Scenario.recovering Scenario.default_config
           Scenario.analysis_call (Scenario.client_of Scenario.recovering)
           (Scenario.world_of Scenario.recovering)
           {| MCP.response :=
                {| msg_id := 3; msg_error := None;
                   msg_result := Str "analysis done"; msg_tokensUsed := Some 42 |};
              MCP.executionTime := 5; MCP.attempt := 2 |}).
  reflexivity.
Defined.



(** ** The connector between its operations *)

Module ConnectorMore.
Import Client Await MCP More.

Section WithServer.
Variable srv : Server.

Lemma request_keeps_quiet r c w : quiet c → quiet (request srv r c w).1.2.
Proof.
  intros Hq. destruct (decide (ws c = Some OPEN)) as [Hopen|Hclosed].
  - pose proof (AwaitFacts.request_quiet srv r c w Hq Hopen) as (_ & Hc & _).
    simpl in Hc. by rewrite Hc.
  - by rewrite AwaitFacts.request_disconnected.
Qed.

Lemma retry_loop_keeps_quiet n attempt max r last c w :
  quiet c → quiet (retry_loop srv n attempt max r last c w).1.2.
Proof.
  revert attempt last c w. induction n as [|n IH]; intros attempt last c w Hq; [done|].
  simpl. pose proof (request_keeps_quiet r c w Hq) as Hq'.
  destruct (request srv r c w) as [[[m|[e|]|] c'] w']; simpl in *; try done.
  - destruct ((attempt <? max) && isRetryableError e); [by apply IH|done].
  - by destruct (attempt <? max).
Qed.

Lemma connect_keeps_quiet k w : client_quiet k → client_quiet (connect srv k w).1.2.
Proof.
  unfold client_quiet, connect. destruct (client k) as [c|] eqn:Hc.
  { simpl. by rewrite Hc. }
  intros _. set (c0 := new_client _).
  pose proof (MCPFacts.initialize_outcome srv c0 w) as (_ & _ & _ & Hp & _).
  destruct (initialize srv c0 w) as [[[u|t|] c1] w1]; simpl in *; try done.
  unfold listTools.
  pose proof (request_keeps_quiet {| method := "tools/list"; params := NoParams |}
                c1 w1 Hp) as Hq.
  destruct (request srv _ c1 w1) as [[[m|t|] c2] w2]; simpl in *; try done.
  by destruct (msg_result m).
Qed.

End WithServer.
End ConnectorMore.

(** X8. Between its operations a connector never has a request outstanding:
    if the client it holds has none (or it holds no client), the same is true
    after [connect], [invoke], [testHealth] and [disconnect], whatever the
    provider does and however the operation ends. *)
Theorem connector_stays_quiet (srv : Server) (task : Task)
    (context : WorkspaceContext) (k : MCP.CustomMCPConnector) (w : World) :
  More.client_quiet k →
  More.client_quiet (MCP.connect srv k w).1.2 ∧
  More.client_quiet (MCP.invoke srv task context k w).1.2 ∧
  More.client_quiet (MCP.testHealth srv k w).1.2 ∧
  More.client_quiet (MCP.disconnect k w).1.
Proof.
  intros Hq. pose proof (ConnectorMore.connect_keeps_quiet srv k w Hq) as Hc.
  pose proof (MCPFacts.connect_outcome srv k w) as (_ & _ & Hcl & _).
  split_and!.
  - done.
  - unfold MCP.invoke.
    destruct (MCP.connect srv k w) as [[[c|t|] k1] w1]; simpl in *; try done.
    specialize (Hcl c eq_refl).
    assert (Hcq : quiet c) by (unfold More.client_quiet in Hc; by rewrite Hcl in Hc).
    destruct (MCP.mapTaskToMCPTool task k1) as [[mcpTool|]|t|]; try done.
    unfold MCP.executeWithRetry.
    match goal with |- context [MCP.retry_loop srv ?n 0 ?max ?r None c w1] =>
      pose proof (ConnectorMore.retry_loop_keeps_quiet srv n 0 max r None c w1 Hcq) as Hr;
      destruct (MCP.retry_loop srv n 0 max r None c w1) as [[[resp|t|] c'] w']
    end; done.
  - unfold MCP.testHealth.
    destruct (MCP.connect srv k w) as [[[c|t|] k1] w1]; simpl in *; try done.
    specialize (Hcl c eq_refl).
    assert (Hcq : quiet c) by (unfold More.client_quiet in Hc; by rewrite Hcl in Hc).
    pose proof (ConnectorMore.request_keeps_quiet srv
                  {| method := "ping"; params := NoParams |} c w1 Hcq) as Hr.
    by destruct (request srv _ c w1) as [[[m|t|] c'] w'].
  - unfold MCP.disconnect, More.client_quiet.
    destruct (MCP.client k); [|done]. by destruct (close _).
Qed.

Lemma connector_stays_quiet_witness :
  More.client_quiet
    (MCP.invoke Scenario.recovering Scenario.analysis_task Scenario.empty_context
       (MCP.new_connector Scenario.default_config) Scenario.world0).1.2.
Proof.
  apply (connector_stays_quiet Scenario.recovering Scenario.analysis_task
           Scenario.empty_context (MCP.new_connector Scenario.default_config)
           Scenario.world0).
  exact I.
Defined.

Lemma reply_returned_open t id a m :
  awaited (reply t id a).1.1 = Returned m → (reply t id a).2 = false.
Proof.
  unfold reply. destruct a as [d m'|d|]; simpl; [| |done].
  - by destruct (in_time d t && (msg_id m' =? id)%N).
  - by destruct (in_time d t).
Qed.

(** X9. A successful [connect] of a connector that holds no client: the
    socket has opened, exactly one request has been sent over it, 'tools/list'
    under the id 1, the server has answered it in time and without error, and
    the tools of that answer are the tools of the connector; the client is
    open, has no request outstanding, and every later [connect] returns it
    as it is, without a new socket or request. *)
Theorem connect_loads_tools_once (srv : Server) (k k1 : MCP.CustomMCPConnector)
    (w w1 : World) (c : CustomMCPClient) :
  MCP.client k = None →
  MCP.connect srv k w = (Returned c, k1, w1) →
  sent (trace w1) = sent (trace w) ++ [1%N] ∧
  quiet c ∧ ws c = Some OPEN ∧ requestId c = 1%N ∧
  MCP.client k1 = Some c ∧
  (∃ d m,
     answer srv (length (sent (trace w))) 1 More.tools_list = AnsMessage d m ∧
     in_time d (or_default (MCP.cfg_timeout (MCP.config k)) 30000) = true ∧
     msg_id m = 1%N ∧ msg_error m = None ∧ msg_result m ≠ Undefined ∧
     MCP.availableTools k1 = More.tools_of (msg_result m)) ∧
  ∀ srv' w', MCP.connect srv' k1 w' = (Returned c, k1, w').
Proof.
  intros Hnone Hconn.
  assert (Hagain : MCP.client k1 = Some c).
  { pose proof (MCPFacts.connect_outcome srv k w) as (_ & _ & H & _).
    rewrite Hconn in H. by apply H. }
  assert (Hidem : ∀ srv' w', MCP.connect srv' k1 w' = (Returned c, k1, w')).
  { intros srv' w'. unfold MCP.connect. by rewrite Hagain. }
  unfold MCP.connect in Hconn. rewrite Hnone in Hconn.
  unfold initialize, initialize_start in Hconn. cbn [fst snd] in Hconn.
  match type of Hconn with
  | context [construct srv ?u] => destruct (construct srv u) as [e0|]
  end; [done|].
  set (t := or_default (MCP.cfg_timeout (MCP.config k)) 30000) in *.
  destruct (accept srv (length (opened (trace w)))) as [d0|d0|];
    simpl in Hconn; try destruct (in_time d0 t); try done.
  match type of Hconn with
  | context [listTools srv ?c' ?w'] =>
      set (c1 := c') in *; set (w1' := w') in *
  end.
  assert (Hq : quiet c1) by done.
  assert (Hopen : ws c1 = Some OPEN) by done.
  assert (Hsent : sent (trace w1') = sent (trace w)).
  { unfold w1'. simpl. rewrite ClientFacts.sent_app. apply app_nil_r. }
  unfold listTools in Hconn.
  pose proof (AwaitFacts.request_quiet srv More.tools_list c1 w1' Hq Hopen)
    as (Ho & Hc & _ & Hs & _).
  change {| method := "tools/list"; params := NoParams |} with More.tools_list in Hconn.
  rewrite Hsent in Ho, Hc, Hs. simpl in Ho, Hc, Hs.
  change (timeout (Client.config c1)) with t in Ho, Hc.
  change (N.succ (requestId c1)) with 1%N in Ho, Hc, Hs.
  destruct (request srv More.tools_list c1 w1') as [[o c2] w2].
  simpl in Ho, Hc, Hs.
  destruct o as [m|th|]; [|done|done].
  symmetry in Ho.
  pose proof (reply_returned_open _ _ _ _ Ho) as Hdrop.
  apply MCPMore.reply_returned in Ho as (d & Ha & Hin & Hid & He).
  rewrite Hdrop in Hc.
  assert (Hres : msg_result m ≠ Undefined ∧ c = c2 ∧ w1 = w2 ∧
                 MCP.availableTools k1 = More.tools_of (msg_result m)).
  { destruct (msg_result m); simpl in Hconn; [done|..];
      injection Hconn as <- <- <-; done. }
  destruct Hres as (Hnu & -> & -> & Htools). subst c2.
  split_and!; try done. by exists d, m.
Qed.

Lemma connect_loads_tools_once_witness :
  MCP.availableTools (Scenario.connector_of (Scenario.listing [Scenario.analyzer]))
  = Some [Scenario.analyzer] ∧
  sent (trace (Scenario.world_of (Scenario.listing [Scenario.analyzer]))) = [1%N].
Proof.
  destruct (connect_loads_tools_once (Scenario.listing [Scenario.analyzer])
              (MCP.new_connector Scenario.default_config)
              (Scenario.connector_of (Scenario.listing [Scenario.analyzer]))
              Scenario.world0
              (Scenario.world_of (Scenario.listing [Scenario.analyzer]))
              (Scenario.client_of (Scenario.listing [Scenario.analyzer])))
    as (Hs & _ & _ & _ & _ & (d & m & Ha & _ & _ & _ & _ & Ht) & _).
  - reflexivity.
  - reflexivity.
  - split; [|exact Hs]. rewrite Ht. injection Ha as _ <-. reflexivity.
Defined.

(** X10. A connector whose first [connect] has thrown keeps the client it
    created and its empty list of tools: every later [connect] returns that
    client at once, without opening a socket or asking for the tools again,
    so every later [invoke] returns the failure 'No MCP tool available for
    task type: ...' whatever the task and the server, leaving connector and
    world as they are. *)
Theorem failed_connect_is_never_repeated (srv : Server)
    (k k1 : MCP.CustomMCPConnector) (w w1 : World) (th : Thrown) :
  MCP.client k = None →
  MCP.availableTools k = Some [] →
  MCP.connect srv k w = (Threw th, k1, w1) →
  ∃ c, MCP.client k1 = Some c ∧
    (∀ srv' w', MCP.connect srv' k1 w' = (Returned c, k1, w')) ∧
    ∀ srv' task context w',
      MCP.invoke srv' task context k1 w' =
        (Returned (More.mcp_failure (MCP.config k)
           (Error ("No MCP tool available for task type: " +:+ task_type task))),
         k1, w').
Proof.
  intros Hnone Htools Hconn.
  assert (Hk1 : ∃ c, k1 = MCP.set_client (Some c) k).
  { unfold MCP.connect in Hconn. rewrite Hnone in Hconn.
    destruct (initialize srv _ w) as [[[?|?|] c1] w1']; [|naive_solver..].
    destruct (listTools srv c1 w1') as [[[?|?|] c2] w2]; naive_solver. }
  destruct Hk1 as [c ->]. exists c.
  assert (Hagain : ∀ srv' w',
    MCP.connect srv' (MCP.set_client (Some c) k) w'
    = (Returned c, MCP.set_client (Some c) k, w')) by done.
  split_and!; [done|done|].
  intros srv' task context w'. unfold MCP.invoke. rewrite Hagain.
  unfold MCP.mapTaskToMCPTool. simpl. rewrite Htools.
  by destruct (MCP.taskToToolMap !! task_type task).
Qed.

Lemma failed_connect_is_never_repeated_witness :
  MCP.invoke (Scenario.listing [Scenario.analyzer]) Scenario.analysis_task
    Scenario.empty_context (Scenario.connector_of Scenario.refusing) Scenario.world0
  = (Returned (More.mcp_failure Scenario.default_config
       (Error "No MCP tool available for task type: analysis")),
     Scenario.connector_of Scenario.refusing, Scenario.world0).
Proof.
  destruct (failed_connect_is_never_repeated Scenario.refusing
              (MCP.new_connector Scenario.default_config)
              (Scenario.connector_of Scenario.refusing)
              Scenario.world0 (Scenario.world_of Scenario.refusing)
              (ThrownError (Error "Failed to connect to MCP server")))
    as (c & _ & _ & H).
  - reflexivity.
  - reflexivity.
  - reflexivity.
  - apply (H (Scenario.listing [Scenario.analyzer]) Scenario.analysis_task
             Scenario.empty_context Scenario.world0).
Defined.

(** X11. The success path of [invoke], end to end: on a connected connector
    with a retry budget that is not negative, when the server answers the
    tool call before the request timer of the platform fires (after the
    configured timeout when that lies between 1 and 2^31 - 1 ms, after 1 ms
    otherwise), under the id of the request and without an error member, [invoke] returns a success whose [data] is the result of that
    message, whose metadata name the tool, the time the answer took and the
    [tokensUsed] of the message; one request has been sent, under the next
    id, nothing was slept, and the client the connector holds is open with
    no request outstanding. *)
Theorem invoke_returns_server_result (srv : Server) (task : Task)
    (context : WorkspaceContext) (k : MCP.CustomMCPConnector) (w : World)
    (c : CustomMCPClient) (mcpTool : CustomMCPTool) (d : Z) (m : Message) :
  MCP.client k = Some c → quiet c → ws c = Some OPEN →
  0 ≤ MCP.maxRetries (MCP.config k) →
  MCP.mapTaskToMCPTool task k = Returned (Some mcpTool) →
  answer srv (length (sent (trace w))) (N.succ (requestId c))
    (More.tool_call task context mcpTool) = AnsMessage d m →
  0 ≤ d < timer (timeout (Client.config c)) →
  msg_id m = N.succ (requestId c) → msg_error m = None →
  let res := MCP.invoke srv task context k w in
  res.1.1 = Returned
    {| success := true; data := Some (msg_result m); error := None;
       toolId := "custom-mcp";
       metadata := [("toolUsed", Str (name mcpTool));
                    ("executionTime", Num d);
                    ("tokensUsed", MCP.opt_num (msg_tokensUsed m))] |} ∧
  now res.2 = now w + d ∧
  sent (trace res.2) = sent (trace w) ++ [N.succ (requestId c)] ∧
  slept (trace res.2) = slept (trace w) ∧
  ∃ c', MCP.client res.1.2 = Some c' ∧ quiet c' ∧ ws c' = Some OPEN ∧
        requestId c' = N.succ (requestId c).
Proof.
  intros Hc Hq Hopen Hmax Htool Hans Hin Hid He.
  apply AwaitFacts.in_time_iff in Hin.
  unfold MCP.invoke, MCP.connect. rewrite Hc, Htool.
  unfold MCP.executeWithRetry.
  replace (Z.to_nat (MCP.maxRetries (MCP.config k) + 1))
    with (S (Z.to_nat (MCP.maxRetries (MCP.config k)))) by lia.
  simpl MCP.retry_loop.
  fold (More.tool_call task context mcpTool).
  pose proof (AwaitFacts.request_quiet srv (More.tool_call task context mcpTool)
                c w Hq Hopen) as (Ho & Hc' & Hnow & Hs & Hz).
  simpl in Ho, Hc', Hnow. rewrite Hans in Ho, Hc', Hnow.
  unfold reply in Ho, Hc', Hnow. rewrite Hin, Hid, N.eqb_refl, He in Ho, Hc', Hnow.
  simpl in Ho, Hc', Hnow.
  destruct (request srv (More.tool_call task context mcpTool) c w) as [[o c'] w'].
  simpl in Ho, Hc', Hnow, Hs, Hz. subst o. simpl.
  split_and!; [repeat f_equal; lia|done|done|done|].
  exists c'. by subst c'.
Qed.

Lemma invoke_returns_server_result_witness :
  (MCP.invoke More.obliging Scenario.analysis_task Scenario.empty_context
     (Scenario.connector_of (Scenario.listing [Scenario.analyzer]))
     (Scenario.world_of (Scenario.listing [Scenario.analyzer]))).1.1
  = Returned
      {| success := true; data := Some (Str "analysis done"); error := None;
         toolId := "custom-mcp";
         metadata := [("toolUsed", Str "code-analyzer");
                      ("executionTime", Num 5);
                      ("tokensUsed", Num 42)] |}.
Proof.
  apply (invoke_returns_server_result More.obliging Scenario.analysis_task
           Scenario.empty_context
           (Scenario.connector_of (Scenario.listing [Scenario.analyzer]))
           (Scenario.world_of (Scenario.listing [Scenario.analyzer]))
           (Scenario.client_of (Scenario.listing [Scenario.analyzer]))
           Scenario.analyzer 5
           {| msg_id := 2; msg_error := None; msg_result := Str "analysis done";
              msg_tokensUsed := Some 42 |}).
  - reflexivity.
  - reflexivity.
  - reflexivity.
  - vm_compute. discriminate.
  - reflexivity.
  - reflexivity.
  - split; by vm_compute.
  - reflexivity.
  - reflexivity.
Defined.

(** X12. The [retryAttempts] that a failure reports is the configured number
    with the default 0, the retries that are made follow the configured
    number with the default 3: on a connected connector whose configuration
    leaves [retryAttempts] unset (or sets it to 0) and whose provider never
    answers, [invoke] sends the tool call four times, sleeping 1000, 2000 and
    4000 ms in between, and then returns the failure 'Request timeout' with
    [retryAttempts: 0] in its metadata. *)
Theorem reported_retries_are_not_the_retries_made (srv : Server) (task : Task)
    (context : WorkspaceContext) (k : MCP.CustomMCPConnector) (w : World)
    (c : CustomMCPClient) (mcpTool : CustomMCPTool) :
  MCP.client k = Some c → quiet c → ws c = Some OPEN →
  MCP.mapTaskToMCPTool task k = Returned (Some mcpTool) →
  or_default (MCP.cfg_retryAttempts (MCP.config k)) 0 = 0 →
  (∀ i id r, answer srv i id r = AnsSilent) →
  let res := MCP.invoke srv task context k w in
  res.1.1 = Returned
    {| success := false; data := None; error := Some "Request timeout";
       toolId := "custom-mcp";
       metadata := [("errorType", Str "Error"); ("retryAttempts", Num 0)] |} ∧
  length (sent (trace res.2)) = (length (sent (trace w)) + 4)%nat ∧
  slept (trace res.2) = slept (trace w) ++ [1000; 2000; 4000].
Proof.
  intros Hc Hq Hopen Htool Hcfg Hsilent.
  assert (Hmax : MCP.maxRetries (MCP.config k) = 3).
  { unfold MCP.maxRetries. unfold or_default in *.
    destruct (MCP.cfg_retryAttempts (MCP.config k)) as [v|]; [|done].
    destruct (Z.eqb_spec v 0); [done|]. congruence. }
  unfold MCP.invoke, MCP.connect. rewrite Hc, Htool.
  unfold MCP.executeWithRetry. rewrite Hmax.
  match goal with |- context [MCP.retry_loop srv ?n 0 3 ?r None c w] =>
    destruct (MCPFacts.retry_loop_silent srv n 0 3 r None c w Hsilent Hq Hopen)
      as (Ho & _ & Hs & Hz); [lia|reflexivity|simpl; lia|];
    destruct (MCP.retry_loop srv n 0 3 r None c w) as [[o c'] w']
  end.
  simpl in Ho, Hs, Hz. subst o. simpl. rewrite Hcfg. done.
Qed.

Lemma reported_retries_are_not_the_retries_made_witness :
  (MCP.invoke Scenario.mute Scenario.analysis_task Scenario.empty_context
     (MCP.set_client (Some (Scenario.client_of (Scenario.listing [Scenario.analyzer])))
        {| MCP.config := {| MCP.cfg_endpoint := "ws://localhost:3003";
                            MCP.cfg_apiKey := None; MCP.cfg_timeout := None;
                            MCP.cfg_retryAttempts := None |};
           MCP.client := None;
           MCP.availableTools := Some [Scenario.analyzer] |})
     Scenario.world0).1.1
  = Returned
      {| success := false; data := None; error := Some "Request timeout";
         toolId := "custom-mcp";
         metadata := [("errorType", Str "Error"); ("retryAttempts", Num 0)] |}.
Proof.
  apply (reported_retries_are_not_the_retries_made Scenario.mute
           Scenario.analysis_task Scenario.empty_context _ Scenario.world0
           (Scenario.client_of (Scenario.listing [Scenario.analyzer]))
           Scenario.analyzer).
  - reflexivity.
  - reflexivity.
  - reflexivity.
  - reflexivity.
  - reflexivity.
  - intros i id r. reflexivity.
Defined.

Module TextFacts.

Lemma lower_idemp a : lower (lower a) = lower a.
Proof. destruct a as [[] [] [] [] [] [] [] []]; reflexivity. Qed.

Lemma starts_with_i_spec p s :
  starts_with_i p s = true ↔
  ∃ mid post, s = mid +:+ post ∧ More.to_lower mid = More.to_lower p.
Proof.
  revert s. induction p as [|a p IH]; intros s; simpl.
  { split; [|done]. intros _. by exists "", s. }
  destruct s as [|b s]; simpl.
  { split; [done|]. intros (mid & post & Hs & Hm).
    destruct mid; simpl in *; discriminate. }
  rewrite andb_true_iff, IH. unfold same_char_i. rewrite bool_decide_eq_true.
  split.
  - intros (Hab & mid & post & -> & Hm). exists (String b mid), post.
    simpl. split; [done|]. by rewrite Hm, Hab.
  - intros (mid & post & Hs & Hm). destruct mid as [|x mid]; simpl in *; [done|].
    injection Hs as -> ->. injection Hm as Hx Hm. split; [done|].
    by exists mid, post.
Qed.

Lemma test_i_spec p s :
  test_i p s = true ↔
  ∃ pre mid post, s = pre +:+ mid +:+ post ∧ More.to_lower mid = More.to_lower p.
Proof.
  induction s as [|b s IH]; simpl; rewrite orb_true_iff, starts_with_i_spec.
  - split.
    + intros [(mid & post & Hs & Hm)|]; [|done]. by exists "", mid, post.
    + intros (pre & mid & post & Hs & Hm). left. destruct pre; [|done].
      by exists mid, post.
  - rewrite IH. split.
    + intros [(mid & post & Hs & Hm)|(pre & mid & post & -> & Hm)].
      * by exists "", mid, post.
      * by exists (String b pre), mid, post.
    + intros (pre & mid & post & Hs & Hm). destruct pre as [|x pre]; simpl in Hs.
      * left. by exists mid, post.
      * right. injection Hs as -> ->. by exists pre, mid, post.
Qed.

Lemma to_lower_idemp s : More.to_lower (More.to_lower s) = More.to_lower s.
Proof. induction s as [|a s IH]; simpl; [done|]. by rewrite lower_idemp, IH. Qed.

Lemma to_lower_app s t :
  More.to_lower (s +:+ t) = More.to_lower s +:+ More.to_lower t.
Proof. induction s as [|a s IH]; simpl; [done|]. by rewrite IH. Qed.

Lemma starts_with_i_lower p s :
  starts_with_i p (More.to_lower s) = starts_with_i p s.
Proof.
  revert s. induction p as [|a p IH]; intros [|b s]; simpl; try done.
  unfold same_char_i. by rewrite lower_idemp, IH.
Qed.

Lemma test_i_lower p s : test_i p (More.to_lower s) = test_i p s.
Proof.
  induction s as [|b s IH]; simpl; [done|].
  rewrite IH. f_equal. apply (starts_with_i_lower p (String b s)).
Qed.

Lemma find_Some_split {A} (f : A → bool) l x :
  List.find f l = Some x ↔
  ∃ pre post, l = pre ++ x :: post ∧ f x = true ∧ Forall (λ y, f y = false) pre.
Proof.
  induction l as [|y l IH]; simpl.
  { split; [done|]. intros (pre & post & Hl & _). by destruct pre. }
  destruct (f y) eqn:Hy.
  - split.
    + intros [= ->]. by exists [], l.
    + intros (pre & post & Hl & Hx & Hpre). destruct pre as [|z pre].
      * by injection Hl as -> _.
      * injection Hl as -> _. apply Forall_cons in Hpre as [Hz _]. congruence.
  - rewrite IH. split.
    + intros (pre & post & -> & Hx & Hpre). exists (y :: pre), post.
      split_and!; [done|done|]. by constructor.
    + intros (pre & post & Hl & Hx & Hpre). destruct pre as [|z pre].
      * injection Hl as -> _. congruence.
      * injection Hl as -> ->. apply Forall_cons in Hpre as [_ Hpre].
        by exists pre, post.
Qed.

Lemma find_None_Forall {A} (f : A → bool) l :
  List.find f l = None ↔ Forall (λ y, f y = false) l.
Proof.
  induction l as [|y l IH]; simpl; [done|].
  destruct (f y) eqn:Hy.
  - split; [done|]. intros [H _]%Forall_cons. congruence.
  - rewrite IH. split; [by constructor|]. by intros [_ H]%Forall_cons.
Qed.

Lemma taskToToolMap_keys ty :
  is_Some (MCP.taskToToolMap !! ty) ↔
  ty ∈ ["analysis"; "optimization"; "security"; "refactoring"; "documentation"].
Proof.
  unfold MCP.taskToToolMap. simpl.
  rewrite !lookup_insert_is_Some, lookup_empty, !elem_of_cons, elem_of_nil.
  split.
  - intros H. destruct H as [<-|[_ H]]; [by left|]. right.
    destruct H as [<-|[_ H]]; [by left|]. right.
    destruct H as [<-|[_ H]]; [by left|]. right.
    destruct H as [<-|[_ H]]; [by left|]. right.
    destruct H as [<-|[_ H]]; [by left|]. by destruct H.
  - intros H.
    destruct (decide ("analysis" = ty)); [by left|right; split; [done|]].
    destruct (decide ("optimization" = ty)); [by left|right; split; [done|]].
    destruct (decide ("security" = ty)); [by left|right; split; [done|]].
    destruct (decide ("refactoring" = ty)); [by left|right; split; [done|]].
    destruct (decide ("documentation" = ty)); [by left|]. exfalso.
    destruct H as [->|[->|[->|[->|[->|[]]]]]]; done.
Qed.

End TextFacts.

(** X13. The tool that [mapTaskToMCPTool] finds for a task is the first of
    the available tools that bears the name the table gives for the type of
    the task; there is none exactly when no available tool bears that name,
    which is so for every task whose type is not one of 'analysis',
    'optimization', 'security', 'refactoring' and 'documentation'. *)
Theorem mapped_tool_is_first_of_its_name (task : Task)
    (k : MCP.CustomMCPConnector) (tools : list CustomMCPTool) :
  MCP.availableTools k = Some tools →
  ∃ found, MCP.mapTaskToMCPTool task k = Returned found ∧
    (∀ mcpTool, found = Some mcpTool ↔
       ∃ pre post, tools = pre ++ mcpTool :: post ∧
         MCP.taskToToolMap !! task_type task = Some (name mcpTool) ∧
         Forall (λ t, name t ≠ name mcpTool) pre) ∧
    (found = None ↔
       ∀ mcpTool, mcpTool ∈ tools →
         MCP.taskToToolMap !! task_type task ≠ Some (name mcpTool)) ∧
    (task_type task ∉ ["analysis"; "optimization"; "security"; "refactoring";
                       "documentation"] → found = None).
Proof.
  intros Htools. unfold MCP.mapTaskToMCPTool. rewrite Htools.
  eexists. split; [reflexivity|].
  pose proof (TextFacts.taskToToolMap_keys (task_type task)) as Hkeys.
  destruct (MCP.taskToToolMap !! task_type task) as [toolName|] eqn:Hty.
  - split_and!.
    + intros mcpTool. rewrite TextFacts.find_Some_split. split.
      * intros (pre & post & -> & Hn & Hpre). apply bool_decide_eq_true in Hn.
        exists pre, post. split_and!; [done|by rewrite Hn|].
        eapply Forall_impl; [exact Hpre|]. intros t Ht.
        apply bool_decide_eq_false in Ht. congruence.
      * intros (pre & post & -> & [= ->] & Hpre). exists pre, post.
        split_and!; [done|by apply bool_decide_eq_true|].
        eapply Forall_impl; [exact Hpre|]. intros t Ht.
        by apply bool_decide_eq_false.
    + rewrite TextFacts.find_None_Forall, Forall_forall. split.
      * intros H mcpTool Hin [= ->]. apply H in Hin.
        by apply bool_decide_eq_false in Hin.
      * intros H mcpTool Hin. apply bool_decide_eq_false. intros <-.
        by apply (H mcpTool Hin).
    + intros Hnot. destruct Hnot. apply Hkeys. by eexists.
  - split_and!; [|done|done].
    intros mcpTool. split; [done|]. by intros (_ & _ & _ & ? & _).
Qed.

Lemma mapped_tool_is_first_of_its_name_witness :
  ∃ found,
    MCP.mapTaskToMCPTool Scenario.planning_task
      (Scenario.connector_of (Scenario.listing [Scenario.analyzer]))
    = Returned found.
Proof.
  destruct (mapped_tool_is_first_of_its_name Scenario.planning_task
              (Scenario.connector_of (Scenario.listing [Scenario.analyzer]))
              [Scenario.analyzer]) as (found & H & _).
  - reflexivity.
  - by exists found.
Defined.

(** X14. [isRetryableError] holds exactly when the message of the error
    contains, somewhere and in any letter case, one of the four patterns;
    neither the case of the letters of the message nor the class of the
    error changes the verdict. *)
Theorem retryable_iff_message_contains_pattern (e : JsError) :
  (MCP.isRetryableError e = true ↔
   ∃ pattern pre mid post,
     pattern ∈ MCP.retryablePatterns ∧
     message e = pre +:+ mid +:+ post ∧ More.to_lower mid = pattern) ∧
  ∀ class,
    MCP.isRetryableError
      {| errorType := class; message := More.to_lower (message e) |}
    = MCP.isRetryableError e.
Proof.
  split.
  - unfold MCP.isRetryableError. rewrite existsb_exists. split.
    + intros (pattern & Hin & Ht). apply TextFacts.test_i_spec in Ht
        as (pre & mid & post & Hs & Hm).
      exists pattern, pre, mid, post. split_and!; [by apply list_elem_of_In|done|].
      rewrite Hm. unfold MCP.retryablePatterns in Hin. simpl in Hin.
      destruct Hin as [<-|[<-|[<-|[<-|[]]]]]; reflexivity.
    + intros (pattern & pre & mid & post & Hin & Hs & Hm).
      exists pattern. split; [by apply list_elem_of_In|].
      apply TextFacts.test_i_spec. exists pre, mid, post. split; [done|].
      rewrite Hm. rewrite <- Hm. by rewrite TextFacts.to_lower_idemp.
  - intros class. unfold MCP.isRetryableError. simpl.
    by rewrite !TextFacts.test_i_lower.
Qed.

(** ** The sockets of a connector *)

Module SocketFacts.
Import Client Await MCP.

Lemma sockets_app fx1 fx2 :
  More.sockets (fx1 ++ fx2) = More.sockets fx1 ++ More.sockets fx2.
Proof. unfold More.sockets. apply bind_app. Qed.

Lemma sockets_reject_all error (l : list (N * Callbacks)) :
  More.sockets ((λ kv : N * Callbacks, Rejected (promise kv.2) error) <$> l) = [].
Proof. induction l as [|kv l IH]; [done|]. rewrite fmap_cons. exact IH. Qed.

Lemma sockets_handleMessage m c :
  More.sockets (handleMessage m c).2 = [] ∧ ws (handleMessage m c).1 = ws c.
Proof.
  unfold handleMessage. destruct (negb _); [|done].
  destruct (pendingRequests c !! msg_id m); [|done]. by destruct (msg_error m).
Qed.

Lemma sockets_request_timer id c :
  More.sockets (request_timer id c).2 = [] ∧ ws (request_timer id c).1 = ws c.
Proof. unfold request_timer. by destruct (pendingRequests c !! id). Qed.

Lemma sockets_onclose c :
  More.sockets (onclose c).2 = [] ∧ (is_Some (ws c) → is_Some (ws (onclose c).1)).
Proof.
  unfold onclose, rejectPendingRequests. simpl. split.
  - by rewrite sockets_app, sockets_reject_all.
  - destruct (ws c); [eauto|done].
Qed.

Lemma cycles_S n : More.cycles n ++ [true; false] = More.cycles (S n).
Proof.
  induction n as [|n IH]; [done|].
  change (More.cycles (S (S n))) with (true :: false :: More.cycles (S n)).
  change (More.cycles (S n) ++ [true; false])
    with (true :: false :: (More.cycles n ++ [true; false])).
  by rewrite IH.
Qed.

(** Whether a client has a socket decides what its connector holds. *)
Lemma held_socket_set_client k c c' :
  client k = Some c → (is_Some (ws c') ↔ is_Some (ws c)) →
  More.held_socket (set_client (Some c') k) = More.held_socket k.
Proof.
  intros Hc Hws. unfold More.held_socket. simpl. rewrite Hc.
  destruct (ws c) as [s|], (ws c') as [s'|]; try done.
  - destruct Hws as [_ H]. by destruct H.
  - destruct Hws as [H _]. by destruct H.
Qed.

Section WithServer.
Variable srv : Server.

(** A request creates and closes no socket, and a client has a socket
    after it exactly when it had one before. *)
Lemma sockets_request r c w :
  More.sockets (trace (request srv r c w).2) = More.sockets (trace w) ∧
  (is_Some (ws (request srv r c w).1.2) ↔ is_Some (ws c)).
Proof.
  unfold request, request_send.
  destruct (ws c) as [[]|] eqn:Hws; simpl; try by rewrite ?Hws.
  unfold arrival.
  match goal with |- context [handleMessage _ ?c'] => set (c1 := c') end.
  assert (Hc1 : is_Some (ws c1)) by (simpl; eauto).
  assert (Hrest : ∀ c2 fx2 d,
    More.sockets fx2 = [] → is_Some (ws c2) →
    let res :=
      match settlement (N.succ (requestId c)) fx2 with
      | Some s =>
          (awaited s, c2,
           tick d (emit ([Registered (N.succ (requestId c));
                          Sent (N.succ (requestId c)) r] ++ fx2) w))
      | None =>
          let '(c3, fx3) := request_timer (N.succ (requestId c)) c2 in
          let w3 := tick (timer (timeout (Client.config c)))
                      (emit ([Registered (N.succ (requestId c));
                              Sent (N.succ (requestId c)) r] ++ fx2 ++ fx3) w) in
          match settlement (N.succ (requestId c)) fx3 with
          | Some s => (awaited s, c3, w3)
          | None => (Hung, c3, w3)
          end
      end in
    More.sockets (trace res.2) = More.sockets (trace w) ∧
    (is_Some (ws res.1.2) ↔ is_Some (Some OPEN))).
  { intros c2 fx2 d Hfx Hws2.
    destruct (settlement (N.succ (requestId c)) fx2); simpl.
    - rewrite sockets_app. simpl.
      change (More.sockets (Registered ?a :: Sent ?b ?c :: ?l)) with (More.sockets l).
      rewrite Hfx. rewrite app_nil_r. split; [done|]. split; eauto.
    - pose proof (sockets_request_timer (N.succ (requestId c)) c2) as [Hfx3 Hws3].
      destruct (request_timer (N.succ (requestId c)) c2) as [c3 fx3].
      simpl in Hfx3, Hws3.
      assert (More.sockets (trace w ++ Registered (N.succ (requestId c))
                :: Sent (N.succ (requestId c)) r :: fx2 ++ fx3) = More.sockets (trace w)).
      { rewrite sockets_app.
        change (More.sockets (Registered ?a :: Sent ?b ?c :: ?l)) with (More.sockets l).
        by rewrite sockets_app, Hfx, Hfx3, app_nil_r. }
      destruct (settlement (N.succ (requestId c)) fx3); simpl;
        (split; [done|]); rewrite Hws3; split; eauto. }
  destruct (answer srv _ _ r) as [d m|d|].
  - destruct (in_time d (timeout (Client.config c))).
    + pose proof (sockets_handleMessage m c1) as [Hfx Hws2].
      destruct (handleMessage m c1) as [c2 fx2]. simpl in Hfx, Hws2.
      apply (Hrest c2 fx2 d Hfx). by rewrite Hws2.
    + by apply (Hrest c1 [] _).
  - destruct (in_time d (timeout (Client.config c))).
    + pose proof (sockets_onclose c1) as [Hfx Hws2].
      destruct (onclose c1) as [c2 fx2]. simpl in Hfx, Hws2.
      apply (Hrest c2 fx2 d Hfx). by apply Hws2.
    + by apply (Hrest c1 [] _).
  - by apply (Hrest c1 [] _).
Qed.

Lemma sockets_retry_loop n attempt max r last c w :
  More.sockets (trace (retry_loop srv n attempt max r last c w).2)
    = More.sockets (trace w) ∧
  (is_Some (ws (retry_loop srv n attempt max r last c w).1.2) ↔ is_Some (ws c)).
Proof.
  revert attempt last c w. induction n as [|n IH]; intros attempt last c w; [done|].
  simpl. pose proof (sockets_request r c w) as [Hs Hws].
  destruct (request srv r c w) as [[[m|[e|]|] c'] w']; simpl in Hs, Hws; try done.
  - destruct ((attempt <? max) && isRetryableError e); [|done].
    match goal with |- context [retry_loop srv n ?a max r ?l c' ?w1] =>
      destruct (IH a l c' w1) as [Hs' Hws'] end.
    split.
    + rewrite Hs'. simpl. rewrite sockets_app, Hs. simpl. by rewrite app_nil_r.
    + by rewrite Hws'.
  - by destruct (attempt <? max).
Qed.

(** [initialize] creates one socket, unless the constructor throws: then
    it creates none and leaves the client as it is. *)
Lemma sockets_initialize c w :
  match construct srv (replace_http_ws (endpoint (Client.config c))) with
  | Some _ =>
      More.sockets (trace (initialize srv c w).2) = More.sockets (trace w) ∧
      (initialize srv c w).1.2 = c ∧
      ∃ t, (initialize srv c w).1.1 = Threw t
  | None =>
      More.sockets (trace (initialize srv c w).2) = More.sockets (trace w) ++ [true] ∧
      is_Some (ws (initialize srv c w).1.2)
  end.
Proof.
  unfold initialize, initialize_start.
  destruct (construct srv _) as [e|]; [eauto|]. cbn [fst snd].
  destruct (accept srv _) as [d|d|]; try destruct (in_time d _); simpl;
    rewrite sockets_app; eauto.
Qed.

Lemma tidy_connect k w :
  More.tidy k w → More.tidy (connect srv k w).1.2 (connect srv k w).2 ∧
  (∀ c, (connect srv k w).1.1 = Returned c → client (connect srv k w).1.2 = Some c).
Proof.
  intros Ht. pose proof Ht as [n Hn]. unfold connect.
  destruct (client k) as [c|] eqn:Hc.
  { simpl. split; [done|]. by intros c' [= ->]. }
  clear Ht. unfold More.held_socket in Hn. rewrite Hc, app_nil_r in Hn.
  set (c0 := new_client _).
  pose proof (sockets_initialize c0 w) as Hi.
  assert (Hthrow : ∀ c' w' (held : list bool),
    More.sockets (trace w') = More.cycles n ++ held →
    match ws c' with Some _ => [true] | None => [] end = held →
    More.tidy (set_client (Some c') k) w').
  { intros c' w' held Hs' Hws'. exists n. unfold More.held_socket. simpl.
    by rewrite Hws'. }
  destruct (construct srv _) as [e|].
  { destruct Hi as (Hs1 & Hc1 & t & Ho1).
    destruct (initialize srv c0 w) as [[o1 c1] w1]. simpl in Hs1, Hc1, Ho1.
    subst o1 c1. simpl. split; [|done].
    apply (Hthrow c0 w1 []); [by rewrite app_nil_r, Hs1|done]. }
  destruct Hi as [Hs1 Hws1].
  destruct (initialize srv c0 w) as [[o1 c1] w1]. simpl in Hs1, Hws1.
  rewrite Hn in Hs1.
  assert (Hc1 : match ws c1 with Some _ => [true] | None => [] end = [true]).
  { by destruct Hws1 as [s ->]. }
  destruct o1 as [[]|t|]; simpl; [|by split; [apply (Hthrow c1 w1 [true])|]..].
  unfold listTools.
  pose proof (sockets_request {| method := "tools/list"; params := NoParams |} c1 w1)
    as [Hs2 Hws2].
  destruct (request srv _ c1 w1) as [[o2 c2] w2]. simpl in Hs2, Hws2.
  rewrite Hs1 in Hs2. apply Hws2 in Hws1.
  assert (Hc2 : match ws c2 with Some _ => [true] | None => [] end = [true]).
  { by destruct Hws1 as [s ->]. }
  destruct o2 as [m|t|]; simpl; [|by split; [apply (Hthrow c2 w2 [true])|]..].
  destruct (msg_result m); simpl; (split; [|by try intros ? [= <-]]).
  all: try (by apply (Hthrow c2 w2 [true])).
  all: exists n; unfold More.held_socket; simpl; by rewrite Hc2.
Qed.

Lemma tidy_invoke task context k w :
  More.tidy k w → More.tidy (invoke srv task context k w).1.2 (invoke srv task context k w).2.
Proof.
  intros Ht. unfold invoke.
  destruct (tidy_connect k w Ht) as [Ht1 Hcl].
  destruct (connect srv k w) as [[o k1] w1]. simpl in Ht1, Hcl.
  destruct o as [c|t|]; [|done|done].
  specialize (Hcl c eq_refl).
  destruct (mapTaskToMCPTool task k1) as [[mcpTool|]|t|];
    [|by try destruct (invoke_catch _ _)..].
  unfold executeWithRetry.
  match goal with |- context [retry_loop srv ?n 0 ?max ?r None c w1] =>
    pose proof (sockets_retry_loop n 0 max r None c w1) as [Hs Hws];
    destruct (retry_loop srv n 0 max r None c w1) as [[o c'] w']
  end.
  simpl in Hs, Hws.
  destruct Ht1 as [n Hn].
  assert (More.tidy (set_client (Some c') k1) w').
  { exists n. by rewrite Hs, (held_socket_set_client k1 c c'). }
  destruct o as [resp|t|]; simpl; try done.
Qed.

Lemma tidy_testHealth k w :
  More.tidy k w → More.tidy (testHealth srv k w).1.2 (testHealth srv k w).2.
Proof.
  intros Ht. unfold testHealth.
  destruct (tidy_connect k w Ht) as [Ht1 Hcl].
  destruct (connect srv k w) as [[o k1] w1]. simpl in Ht1, Hcl.
  destruct o as [c|t|]; [|done|done].
  specialize (Hcl c eq_refl).
  pose proof (sockets_request {| method := "ping"; params := NoParams |} c w1)
    as [Hs Hws].
  destruct (request srv _ c w1) as [[o c'] w']. simpl in Hs, Hws.
  destruct Ht1 as [n Hn].
  assert (More.tidy (set_client (Some c') k1) w').
  { exists n. by rewrite Hs, (held_socket_set_client k1 c c'). }
  by destruct o as [resp|t|].
Qed.

End WithServer.

Lemma tidy_disconnect k w :
  More.tidy k w →
  More.tidy (disconnect k w).1 (disconnect k w).2 ∧
  More.held_socket (disconnect k w).1 = [].
Proof.
  intros Ht. pose proof Ht as [n Hn]. unfold disconnect.
  destruct (client k) as [c|] eqn:Hc.
  2: { simpl. split; [done|]. unfold More.held_socket. by rewrite Hc. }
  clear Ht. unfold More.held_socket in Hn. rewrite Hc in Hn.
  unfold close, rejectPendingRequests.
  destruct (ws c) as [s|]; simpl; (split; [|done]).
  - exists (S n). cbn [emit trace]. rewrite sockets_app, Hn.
    change (More.sockets (SocketClosed :: ?l)) with (false :: More.sockets l).
    rewrite sockets_app, sockets_reject_all. simpl.
    unfold More.held_socket. simpl.
    rewrite app_nil_r, <- app_assoc. apply cycles_S.
  - exists n. cbn [emit trace]. rewrite sockets_app, Hn.
    rewrite sockets_app, sockets_reject_all. simpl.
    unfold More.held_socket. simpl. by rewrite !app_nil_r.
Qed.

Lemma tidy_perform srv op k w :
  More.tidy k w → More.tidy (More.perform srv op k w).1 (More.perform srv op k w).2.
Proof.
  intros Ht. destruct op as [|task context| |]; simpl.
  - by apply tidy_connect.
  - by apply tidy_invoke.
  - by apply tidy_testHealth.
  - by apply tidy_disconnect.
Qed.

Lemma tidy_perform_all srv ops k w :
  More.tidy k w → More.tidy (More.perform_all srv ops k w).1 (More.perform_all srv ops k w).2.
Proof.
  revert k w. induction ops as [|op ops IH]; intros k w Ht; [done|].
  simpl. pose proof (tidy_perform srv op k w Ht) as Ht1.
  destruct (More.perform srv op k w) as [k1 w1]. by apply IH.
Qed.

End SocketFacts.

(** X15. A connector never holds two sockets and never loses one: whatever
    sequence of [connect], [invoke], [testHealth] and [disconnect] a caller
    runs on a new connector, against whatever server and whether or not the
    socket can be constructed for the endpoint, the sockets were created and
    closed strictly one after the other, the last one being still unclosed
    exactly when the connector holds a client that has a socket (the client
    of a connector whose socket could not be constructed has none); a final
    [disconnect] leaves every socket that was created closed. *)
Theorem connector_never_leaks_a_socket (srv : Server) (cfg : MCP.CustomMCPConfig)
    (ops : list More.Op) (t : Z) :
  let res := More.perform_all srv ops (MCP.new_connector cfg)
               {| now := t; trace := [] |} in
  (∃ n, More.sockets (trace res.2)
        = More.cycles n ++ match MCP.client res.1 with
                           | Some c => match ws c with
                                       | Some _ => [true]
                                       | None => []
                                       end
                           | None => []
                           end) ∧
  (∃ n, More.sockets (trace (MCP.disconnect res.1 res.2).2) = More.cycles n) ∧
  MCP.client (MCP.disconnect res.1 res.2).1 = None.
Proof.
  intros res.
  assert (Ht : More.tidy res.1 res.2).
  { apply SocketFacts.tidy_perform_all. by exists 0%nat. }
  pose proof (SocketFacts.tidy_disconnect _ _ Ht) as [[n Hn] Hnone'].
  assert (Hnone : MCP.client (MCP.disconnect res.1 res.2).1 = None).
  { unfold MCP.disconnect. destruct (MCP.client res.1) eqn:Hc; [|done].
    by destruct (close _). }
  split_and!; [apply Ht| |done].
  exists n. rewrite Hn, Hnone'. apply app_nil_r.
Qed.

(** An instance with an endpoint for which no socket can be constructed:
    the connector holds a client without socket, and nothing was opened. *)
Lemma client_without_socket_example :
  let srv := {| construct := λ _, Some (Error "Invalid URL");
                accept := λ _, AcceptSilent;
                answer := λ _ _ _, AnsSilent |} in
  let res := More.perform_all srv [More.OConnect; More.OTestHealth]
               (MCP.new_connector Scenario.default_config) Scenario.world0 in
  is_Some (MCP.client res.1) ∧ More.sockets (trace res.2) = [].
Proof. split; [by eexists|reflexivity]. Qed.

(** X16. With a negative retry budget [invoke] never reaches the provider:
    on a connected connector that has a tool for the task, the loop of
    [executeWithRetry] does not run, its unassigned [lastError] is thrown,
    the [catch] block fails on reading its message, and [invoke] throws that
    TypeError, with connector and world as they were. *)
Theorem negative_budget_invoke_throws (srv : Server) (task : Task)
    (context : WorkspaceContext) (k : MCP.CustomMCPConnector) (w : World)
    (c : CustomMCPClient) (mcpTool : CustomMCPTool) :
  MCP.client k = Some c →
  MCP.mapTaskToMCPTool task k = Returned (Some mcpTool) →
  MCP.maxRetries (MCP.config k) < 0 →
  MCP.invoke srv task context k w
  = (Threw (ThrownError
       (TypeError "Cannot read properties of undefined (reading 'message')")),
     k, w).
Proof.
  intros Hc Htool Hneg. unfold MCP.invoke, MCP.connect. rewrite Hc, Htool.
  unfold MCP.executeWithRetry.
  replace (Z.to_nat (MCP.maxRetries (MCP.config k) + 1)) with 0%nat by lia.
  simpl. destruct k as [cfg cl tools]. simpl in *. by subst cl.
Qed.

Lemma negative_budget_invoke_throws_witness :
  (MCP.invoke Scenario.mute Scenario.analysis_task Scenario.empty_context
     (MCP.set_tools (Some [Scenario.analyzer])
        (MCP.set_client (Some (Scenario.client_of Scenario.mute))
           (MCP.new_connector Scenario.negative_budget)))
     Scenario.world0).2 = Scenario.world0.
Proof.
  rewrite (negative_budget_invoke_throws Scenario.mute Scenario.analysis_task
             Scenario.empty_context _ Scenario.world0
             (Scenario.client_of Scenario.mute) Scenario.analyzer).
  - reflexivity.
  - reflexivity.
  - reflexivity.
  - reflexivity.
Defined.

(** X17. No configuration gives a retry budget of zero, since a configured
    0 counts as unset: when the budget is not negative, a connected
    connector whose provider stays silent sends the tool call at least
    twice, budget + 1 times in all. *)
Theorem retry_budget_is_never_zero (srv : Server) (task : Task)
    (context : WorkspaceContext) (k : MCP.CustomMCPConnector) (w : World)
    (c : CustomMCPClient) (mcpTool : CustomMCPTool) :
  MCP.client k = Some c → quiet c → ws c = Some OPEN →
  MCP.mapTaskToMCPTool task k = Returned (Some mcpTool) →
  0 ≤ MCP.maxRetries (MCP.config k) →
  (∀ i id r, answer srv i id r = AnsSilent) →
  MCP.maxRetries (MCP.config k) ≠ 0 ∧
  Z.of_nat (length (sent (trace (MCP.invoke srv task context k w).2)))
    = Z.of_nat (length (sent (trace w))) + MCP.maxRetries (MCP.config k) + 1 ∧
  (length (sent (trace w)) + 2 ≤
     length (sent (trace (MCP.invoke srv task context k w).2)))%nat.
Proof.
  intros Hc Hq Hopen Htool Hmax Hsilent.
  assert (Hnz : MCP.maxRetries (MCP.config k) ≠ 0).
  { unfold MCP.maxRetries, or_default.
    destruct (MCP.cfg_retryAttempts (MCP.config k)) as [v|]; [|done].
    by destruct (Z.eqb_spec v 0). }
  assert (Hlen : Z.of_nat (length (sent (trace (MCP.invoke srv task context k w).2)))
    = Z.of_nat (length (sent (trace w))) + MCP.maxRetries (MCP.config k) + 1).
  { unfold MCP.invoke, MCP.connect. rewrite Hc, Htool.
    unfold MCP.executeWithRetry.
    match goal with |- context [MCP.retry_loop srv ?n 0 ?max ?r None c w] =>
      destruct (MCPFacts.retry_loop_silent srv n 0 max r None c w Hsilent Hq Hopen)
        as (Ho & _ & Hs & _); [lia|lia|lia|];
      destruct (MCP.retry_loop srv n 0 max r None c w) as [[o c'] w']
    end.
    simpl in Ho, Hs. subst o. simpl. lia. }
  split_and!; [done|done|lia].
Qed.

Lemma retry_budget_is_never_zero_witness :
  MCP.maxRetries
    (MCP.config (Scenario.connector_of (Scenario.listing [Scenario.analyzer]))) ≠ 0.
Proof.
  apply (retry_budget_is_never_zero Scenario.mute Scenario.analysis_task
           Scenario.empty_context
           (Scenario.connector_of (Scenario.listing [Scenario.analyzer]))
           (Scenario.world_of (Scenario.listing [Scenario.analyzer]))
           (Scenario.client_of (Scenario.listing [Scenario.analyzer]))
           Scenario.analyzer).
  - reflexivity.
  - reflexivity.
  - reflexivity.
  - reflexivity.
  - vm_compute. discriminate.
  - intros i id r. reflexivity.
Defined.

(** X18. [createCustomMCPConfig] normalises: applied to its own result it
    changes nothing; its timeout and retry budget are never 0, and are the
    values the connector would have defaulted to itself; and for a
    configuration it has built, the [retryAttempts] that a failure reports
    is the retry budget that [executeWithRetry] uses. *)
Theorem createCustomMCPConfig_normalises (env : option string)
    (options : MCP.Options) :
  let cfg := MCP.createCustomMCPConfig env options in
  MCP.createCustomMCPConfig env (More.as_options cfg) = cfg ∧
  MCP.maxRetries cfg = or_default (MCP.opt_retryAttempts options) 3 ∧
  or_default (MCP.cfg_timeout cfg) 30000 = or_default (MCP.opt_timeout options) 30000 ∧
  MCP.maxRetries cfg ≠ 0 ∧ or_default (MCP.cfg_timeout cfg) 30000 ≠ 0 ∧
  or_default (MCP.cfg_retryAttempts cfg) 0 = MCP.maxRetries cfg ∧
  MCP.cfg_endpoint cfg ≠ "".
Proof.
  assert (Hd : ∀ o d, d ≠ 0 → or_default o d ≠ 0 ∧
                      ∀ d', or_default (Some (or_default o d)) d' = or_default o d).
  { intros o d Hd. unfold or_default. destruct o as [v|].
    - destruct (Z.eqb_spec v 0) as [->|Hv].
      + split; [done|]. intros d'. by destruct (Z.eqb_spec d 0).
      + split; [done|]. intros d'. by destruct (Z.eqb_spec v 0).
    - split; [done|]. intros d'. by destruct (Z.eqb_spec d 0). }
  destruct (Hd (MCP.opt_retryAttempts options) 3 ltac:(done)) as [Hr Hr'].
  destruct (Hd (MCP.opt_timeout options) 30000 ltac:(done)) as [Ht Ht'].
  assert (He : ∀ o, or_default_str o "ws://localhost:3003" ≠ "" ∧
    or_default_str (Some (or_default_str o "ws://localhost:3003")) "ws://localhost:3003"
    = or_default_str o "ws://localhost:3003").
  { intros [[|a s]|]; done. }
  destruct (He (MCP.opt_endpoint options)) as [He1 He2].
  intros cfg. unfold cfg, MCP.createCustomMCPConfig, MCP.maxRetries.
  cbn [MCP.cfg_endpoint MCP.cfg_apiKey MCP.cfg_timeout MCP.cfg_retryAttempts
       More.as_options MCP.opt_endpoint MCP.opt_apiKey MCP.opt_timeout
       MCP.opt_retryAttempts].
  rewrite !Hr', !Ht', He2.
  split_and!; try done.
  f_equal. destruct (MCP.opt_apiKey options) as [[|a s]|]; try done.
  all: by destruct env as [[|b s']|].
Qed.

(** ** The plugin-command connector *)

(** X19. A [connect] of the plugin-command connector that is not served from
    the cache and returns has found the extension and left it active
    (activating it exactly when it was not), so that [testHealth] is true
    right after it; the connector is then initialized, and every later
    [connect] returns the cached reference without looking at the host, also
    on a host where the extension is gone and [testHealth] is false. *)
Theorem continue_connect_activates (k k1 : Continue.ContinueConnector)
    (h h1 : Continue.Host) (e : Continue.Extension) :
  Continue.isInitialized k = false →
  Continue.connect k h = (Returned e, k1, h1) →
  Continue.getExtension h = Continue.Found ∧
  h1 = (if Continue.isActive h then h else Continue.activated h) ∧
  (Continue.isActive h = false → Continue.activate h = Continue.Fulfils ()) ∧
  Continue.testHealth k1 h1 = Returned true ∧
  k1 = {| Continue.config := Continue.config k; Continue.extension := Some e;
          Continue.isInitialized := true |} ∧
  ∀ h', Continue.connect k1 h' = (Returned e, k1, h') ∧
        (Continue.getExtension h' = Continue.NotFound →
         Continue.testHealth k1 h' = Returned false).
Proof.
  intros Hinit Hconn. unfold Continue.connect in Hconn. rewrite Hinit in Hconn.
  assert (Hgone : ∀ k' h', Continue.getExtension h' = Continue.NotFound →
                           Continue.testHealth k' h' = Returned false).
  { intros k' h' H. unfold Continue.testHealth. by rewrite H. }
  destruct (Continue.extension k) as [e0|];
    destruct (Continue.getExtension h) eqn:Hget; try done;
    destruct (Continue.isActive h) eqn:Hact.
  all: try match type of Hconn with
           | context [Continue.activate ?h'] =>
               destruct (Continue.activate h') as [[]| |] eqn:Hactivate; [|done|done]
           end.
  all: injection Hconn as <- <-; destruct e.
  all: split_and!; try done.
  all: try (unfold Continue.testHealth; simpl; by rewrite Hget, ?Hact).
  all: intros h'; split; [done|apply Hgone].
Qed.

Lemma continue_connect_activates_witness :
  Continue.testHealth
    (Continue.connect Scenario.continue_default More.dormant).1.2
    (Continue.connect Scenario.continue_default More.dormant).2
  = Returned true.
Proof.
  apply (continue_connect_activates Scenario.continue_default _ More.dormant _
           Continue.ContinueExtension).
  - reflexivity.
  - reflexivity.
Defined.

(** X20. The chat switch of the configuration gates planning tasks only: on
    a connected connector with [enableChat] off, a planning task fails with
    'Chat not enabled for Continue' whatever the host does, while every task
    that is neither a completion, a planning nor a refactoring task is still
    sent through the chat command and succeeds as soon as that command
    fulfils. *)
Theorem chat_switch_gates_planning_only (task : Task) (context : WorkspaceContext)
    (k : Continue.ContinueConnector) (h : Continue.Host) (e : Continue.Extension) :
  Continue.extension k = Some e → Continue.isInitialized k = true →
  Continue.enableChat (Continue.config k) = false →
  (task_type task = "planning" →
   Continue.invoke task context k h
   = (Returned {| success := false; data := None;
                  error := Some "Chat not enabled for Continue";
                  toolId := "continue";
                  metadata := [("taskType", Str "planning");
                               ("errorType", Str "Error")] |}, k, h)) ∧
  (task_type task ∉ ["completion"; "planning"; "refactoring"] →
   (∀ prompt, ∃ result,
      Continue.executeCommand h "continue.sendChatMessage" prompt
      = Continue.Fulfils result) →
   ∃ resp, Continue.invoke task context k h = (Returned resp, k, h) ∧
     success resp = true ∧ metadata resp !! 0%nat = Some ("method", Str "chat")).
Proof.
  intros Hext Hinit Hchat.
  assert (Hconn : Continue.connect k h = (Returned e, k, h)).
  { unfold Continue.connect. by rewrite Hext, Hinit. }
  split.
  - intros Hty. unfold Continue.invoke. rewrite Hconn.
    unfold Continue.dispatch, Continue.handlePlanning. rewrite Hty, Hchat. done.
  - intros Hty Hcmd. unfold Continue.invoke. rewrite Hconn.
    unfold Continue.dispatch.
    rewrite !not_elem_of_cons in Hty. destruct Hty as (H1 & H2 & H3 & _).
    rewrite !bool_decide_eq_false_2 by done.
    unfold Continue.handleAnalysis, Continue.handleGenericTask, Continue.command_then.
    case_bool_decide.
    + destruct (Hcmd (Continue.buildAnalysisPrompt task context)) as [result ->].
      eexists. split; [reflexivity|done].
    + match goal with |- context [Continue.executeCommand h _ ?p] =>
        destruct (Hcmd p) as [result ->] end.
      eexists. split; [reflexivity|done].
Qed.

Lemma chat_switch_gates_planning_only_witness :
  ∃ resp,
    Continue.invoke Scenario.analysis_task Scenario.empty_context
      {| Continue.config :=
           {| Continue.enableChat := false; Continue.enableEdit := true;
              Continue.enableCompletion := true; Continue.maxResponseTime := 30000 |};
         Continue.extension := Some Continue.ContinueExtension;
         Continue.isInitialized := true |} More.dormant
    = (Returned resp,
       {| Continue.config :=
           {| Continue.enableChat := false; Continue.enableEdit := true;
              Continue.enableCompletion := true; Continue.maxResponseTime := 30000 |};
         Continue.extension := Some Continue.ContinueExtension;
         Continue.isInitialized := true |}, More.dormant) ∧
    success resp = true.
Proof.
  destruct (chat_switch_gates_planning_only Scenario.analysis_task
              Scenario.empty_context
              {| Continue.config :=
                   {| Continue.enableChat := false; Continue.enableEdit := true;
                      Continue.enableCompletion := true;
                      Continue.maxResponseTime := 30000 |};
                 Continue.extension := Some Continue.ContinueExtension;
                 Continue.isInitialized := true |} More.dormant
              Continue.ContinueExtension) as [_ H].
  - reflexivity.
  - reflexivity.
  - reflexivity.
  - destruct H as (resp & Hr & Hs & _).
    + simpl. rewrite !not_elem_of_cons. split_and!; try done. apply not_elem_of_nil.
    + intros prompt. by exists (Str prompt).
    + by exists resp.
Defined.

(** X21. [invoke] of the plugin-command connector runs no editor command
    but the one of the task ('continue.quickEdit' for a completion,
    'continue.continueEdit' for a refactoring, 'continue.sendChatMessage'
    for everything else) and never asks for the list of commands: two hosts
    that differ only in what their other commands do, and in the commands
    they list, give the same outcome and the same connector. *)
Theorem continue_invoke_runs_one_command (task : Task) (context : WorkspaceContext)
    (k : Continue.ContinueConnector) (h h' : Continue.Host) :
  Continue.getExtension h = Continue.getExtension h' →
  Continue.isActive h = Continue.isActive h' →
  Continue.activate h = Continue.activate h' →
  Continue.activeTextEditor h = Continue.activeTextEditor h' →
  (∀ argument,
     Continue.executeCommand h (More.command_of task) argument
     = Continue.executeCommand h' (More.command_of task) argument) →
  (Continue.invoke task context k h).1 = (Continue.invoke task context k h').1.
Proof.
  destruct h as [get act activate editor exec cmds].
  destruct h' as [get' act' activate' editor' exec' cmds'].
  simpl. intros <- <- <- <- Hcmd.
  unfold Continue.invoke, Continue.connect. simpl.
  assert (Hdispatch : ∀ k1 a1 a2,
    Continue.dispatch k1
      {| Continue.getExtension := get; Continue.isActive := a1;
         Continue.activate := activate; Continue.activeTextEditor := editor;
         Continue.executeCommand := exec; Continue.getCommands := cmds |}
      task context
    = Continue.dispatch k1
      {| Continue.getExtension := get; Continue.isActive := a2;
         Continue.activate := activate; Continue.activeTextEditor := editor;
         Continue.executeCommand := exec'; Continue.getCommands := cmds' |}
      task context).
  { intros k1 a1 a2. unfold Continue.dispatch, Continue.handleCompletion,
      Continue.handlePlanning, Continue.handleRefactoring, Continue.handleAnalysis,
      Continue.handleGenericTask, Continue.command_then,
      Continue.buildRefactoringPrompt. simpl.
    unfold More.command_of in Hcmd.
    repeat case_bool_decide; try congruence;
      try (destruct (negb _); [done|]); try (destruct editor; [|done]);
      by rewrite Hcmd. }
  destruct (Continue.extension k), (Continue.isInitialized k); simpl.
  all: try (by rewrite (Hdispatch _ act act)).
  all: destruct get; try done; destruct act; simpl;
    try (by rewrite (Hdispatch _ true true)).
  all: destruct activate; try done; unfold Continue.activated; simpl;
    by rewrite (Hdispatch _ true true).
Qed.

Lemma continue_invoke_runs_one_command_witness :
  (Continue.invoke Scenario.planning_task Scenario.empty_context
     Scenario.continue_default More.dormant).1
  = (Continue.invoke Scenario.planning_task Scenario.empty_context
       Scenario.continue_default
       {| Continue.getExtension := Continue.Found;
          Continue.isActive := false;
          Continue.activate := Continue.Fulfils ();
          Continue.activeTextEditor := Continue.activeTextEditor More.dormant;
          Continue.executeCommand := λ command argument,
            if bool_decide (command = "continue.sendChatMessage")
            then Continue.Fulfils (Str argument) else Continue.Never;
          Continue.getCommands := Continue.Never |}).1.
Proof.
  apply (continue_invoke_runs_one_command Scenario.planning_task
           Scenario.empty_context Scenario.continue_default More.dormant).
  - reflexivity.
  - reflexivity.
  - reflexivity.
  - reflexivity.
  - intros argument. reflexivity.
Defined.

(** X22. What [testContinueCapabilities] reports for an active extension is
    decided by three commands: a capability is in the list exactly when the
    command behind it is among the commands of the host, 'continue.quickEdit'
    for completion and refactoring, 'continue.sendChatMessage' for planning,
    analysis and general-purpose, 'continue.continueEdit' for code-editing. *)
Theorem capabilities_follow_commands (h : Continue.Host) (commands : list string) :
  Continue.getExtension h = Continue.Found → Continue.isActive h = true →
  Continue.getCommands h = Continue.Fulfils commands →
  ∃ caps, Continue.testContinueCapabilities h = Returned caps ∧
    ∀ capability, capability ∈ caps ↔
      ∃ command, More.command_behind capability = Some command ∧ command ∈ commands.
Proof.
  intros Hget Hact Hcmds. unfold Continue.testContinueCapabilities.
  rewrite Hget, Hact, Hcmds. simpl. eexists. split; [reflexivity|].
  intros capability.
  assert (Hif : ∀ (b : bool) (l : list string),
    capability ∈ (if b then l else []) ↔ b = true ∧ capability ∈ l).
  { intros [] l; split; [done|by intros [_ ?]| |by intros [? _]].
    intros Hin. by apply elem_of_nil in Hin. }
  rewrite !elem_of_app, !Hif. unfold Continue.includes.
  rewrite !bool_decide_eq_true. split.
  - rewrite !elem_of_cons, !elem_of_nil.
    intros [[Hq Hin]|[[Hs Hin]|[He Hin]]].
    + exists "continue.quickEdit". split; [|done].
      destruct Hin as [->|[->|[]]]; reflexivity.
    + exists "continue.sendChatMessage". split; [|done].
      destruct Hin as [->|[->|[->|[]]]]; reflexivity.
    + exists "continue.continueEdit". split; [|done].
      destruct Hin as [->|[]]; reflexivity.
  - intros (command & Hc & Hin). unfold More.command_behind in Hc.
    repeat case_bool_decide; simplify_eq.
    + by left.
    + right. by left.
    + right. right. split; [done|]. constructor.
Qed.

Lemma capabilities_follow_commands_witness :
  ∃ caps, Continue.testContinueCapabilities Scenario.unresponsive = Returned caps ∧
    ∀ capability, capability ∈ caps ↔
      ∃ command, More.command_behind capability = Some command ∧
        command ∈ ["continue.quickEdit"; "continue.sendChatMessage"].
Proof.
  apply (capabilities_follow_commands Scenario.unresponsive
           ["continue.quickEdit"; "continue.sendChatMessage"]).
  - reflexivity.
  - reflexivity.
  - reflexivity.
Defined.

(** ** How long the message-RPC connector takes *)

Module TimingFacts.
Import Client Await MCP.

Section WithServer.
Variable srv : Server.





End WithServer.
End TimingFacts.



(** X24. A connection that is lost is not opened again by the connector:
    while the client it holds is not open, [connect] still returns that
    client, every [invoke] for a task that has a tool fails at once with
    'MCP client not connected', which is not retried, and [testHealth] is
    false; connector and world stay as they are, no message is sent and no
    socket is created. *)
Theorem lost_connection_is_not_reopened (srv : Server) (task : Task)
    (context : WorkspaceContext) (k : MCP.CustomMCPConnector) (w : World)
    (c : CustomMCPClient) (mcpTool : CustomMCPTool) :
  MCP.client k = Some c → ws c ≠ Some OPEN →
  MCP.mapTaskToMCPTool task k = Returned (Some mcpTool) →
  0 ≤ MCP.maxRetries (MCP.config k) →
  MCP.connect srv k w = (Returned c, k, w) ∧
  MCP.invoke srv task context k w
  = (Returned (More.mcp_failure (MCP.config k) (Error "MCP client not connected")),
     k, w) ∧
  MCP.testHealth srv k w = (Returned false, k, w).
Proof.
  intros Hc Hws Htool Hmax.
  assert (Hk : MCP.set_client (Some c) k = k).
  { destruct k as [cfg cl tools]. simpl in *. by subst cl. }
  split_and!.
  - unfold MCP.connect. by rewrite Hc.
  - unfold MCP.invoke, MCP.connect. rewrite Hc, Htool.
    unfold MCP.executeWithRetry.
    replace (Z.to_nat (MCP.maxRetries (MCP.config k) + 1))
      with (S (Z.to_nat (MCP.maxRetries (MCP.config k)))) by lia.
    simpl MCP.retry_loop. rewrite AwaitFacts.request_disconnected by done.
    replace (MCP.isRetryableError (Error "MCP client not connected"))
      with false by reflexivity.
    rewrite andb_false_r. simpl. by rewrite Hk.
  - unfold MCP.testHealth, MCP.connect. rewrite Hc.
    rewrite AwaitFacts.request_disconnected by done. by rewrite Hk.
Qed.

Lemma lost_connection_is_not_reopened_witness :
  MCP.testHealth (Scenario.listing [Scenario.analyzer])
    (MCP.testHealth More.dropping
       (Scenario.connector_of (Scenario.listing [Scenario.analyzer]))
       (Scenario.world_of (Scenario.listing [Scenario.analyzer]))).1.2
    Scenario.world0
  = (Returned false,
     (MCP.testHealth More.dropping
        (Scenario.connector_of (Scenario.listing [Scenario.analyzer]))
        (Scenario.world_of (Scenario.listing [Scenario.analyzer]))).1.2,
     Scenario.world0).
Proof.
  eapply (lost_connection_is_not_reopened (Scenario.listing [Scenario.analyzer])
            Scenario.analysis_task Scenario.empty_context _ _ _ Scenario.analyzer).
  - reflexivity.
  - vm_compute. discriminate.
  - reflexivity.
  - vm_compute. discriminate.
Defined.

(** ** The capability probe for extensions *)

(** X25. [probeExtension] reports capabilities in pairs: each of the four
    tests on the commands of the extension contributes its two capabilities
    exactly when it holds, so the list has twice as many entries as tests
    hold, in the order linting, code-analysis, testing, coverage, building,
    bundling, deployment, infrastructure, and none of them twice. *)
Theorem probeExtension_reports_pairs {Extension : Type}
    (hasLintCommands hasTestCommands hasBuildCommands hasDeploymentCommands
       : Extension → bool) (extension : Extension) :
  let caps := More.probeExtension hasLintCommands hasTestCommands
                hasBuildCommands hasDeploymentCommands extension in
  (∀ capability, capability ∈ caps ↔
     (capability ∈ ["linting"; "code-analysis"] ∧ hasLintCommands extension = true) ∨
     (capability ∈ ["testing"; "coverage"] ∧ hasTestCommands extension = true) ∨
     (capability ∈ ["building"; "bundling"] ∧ hasBuildCommands extension = true) ∨
     (capability ∈ ["deployment"; "infrastructure"]
      ∧ hasDeploymentCommands extension = true)) ∧
  caps `sublist_of` ["linting"; "code-analysis"; "testing"; "coverage";
                     "building"; "bundling"; "deployment"; "infrastructure"] ∧
  NoDup caps ∧
  length caps
  = (2 * length (filter (λ b, b = true)
                   [hasLintCommands extension; hasTestCommands extension;
                    hasBuildCommands extension;
                    hasDeploymentCommands extension]))%nat.
Proof.
  intros caps. unfold caps, More.probeExtension.
  split.
  { intros capability.
    assert (Hif : ∀ (b : bool) (l : list string),
      capability ∈ (if b then l else []) ↔ capability ∈ l ∧ b = true).
    { intros [] l; split; [done|by intros [? _]| |by intros [_ ?]].
      intros Hin. by apply elem_of_nil in Hin. }
    by rewrite !elem_of_app, !Hif. }
  destruct (hasLintCommands extension), (hasTestCommands extension),
    (hasBuildCommands extension), (hasDeploymentCommands extension); simpl.
  all: split_and!;
    [repeat first [apply sublist_nil | apply sublist_skip | apply sublist_cons]
    |apply (bool_decide_unpack _); vm_compute; exact I
    |reflexivity].
Qed.

(** ** The API key *)

Module KeyFacts.
Import Client Await MCP.

Ltac crunch :=
  repeat (simpl;
          match goal with
          | |- context [match ?x with _ => _ end] =>
              lazymatch x with
              | context [match _ with _ => _ end] => fail
              | _ => destruct x eqn:?
              end
          end);
  simpl; try done.

Lemma same_but_key_set_client k k' c c' :
  More.same_but_key k k' → More.forget_key c = More.forget_key c' →
  More.same_but_key (set_client (Some c) k) (set_client (Some c') k').
Proof.
  intros (He & Ht & Hr & Htools & _) Hc. unfold More.same_but_key. simpl.
  by rewrite Hc.
Qed.

Section WithServer.
Variable srv : Server.

Lemma request_forget r c c2 w :
  More.forget_key c = More.forget_key c2 →
  (request srv r c w).1.1 = (request srv r c2 w).1.1 ∧
  (request srv r c w).2 = (request srv r c2 w).2 ∧
  More.forget_key (request srv r c w).1.2 = More.forget_key (request srv r c2 w).1.2.
Proof.
  destruct c as [[e a t] s i p], c2 as [[e2 a2 t2] s2 i2 p2].
  unfold More.forget_key. simpl. intros [= -> -> -> -> ->].
  unfold request, request_send, arrival, handleMessage, onclose,
    rejectPendingRequests, request_timer. crunch.
Qed.

Lemma retry_loop_forget n attempt max r last c c2 w :
  More.forget_key c = More.forget_key c2 →
  (retry_loop srv n attempt max r last c w).1.1
    = (retry_loop srv n attempt max r last c2 w).1.1 ∧
  (retry_loop srv n attempt max r last c w).2
    = (retry_loop srv n attempt max r last c2 w).2 ∧
  More.forget_key (retry_loop srv n attempt max r last c w).1.2
    = More.forget_key (retry_loop srv n attempt max r last c2 w).1.2.
Proof.
  revert attempt last c c2 w.
  induction n as [|n IH]; intros attempt last c c2 w Hc; [done|].
  simpl. pose proof (request_forget r c c2 w Hc) as (Ho & Hw & Hc').
  destruct (request srv r c w) as [[o c'] w'].
  destruct (request srv r c2 w) as [[o2 c2'] w2'].
  simpl in Ho, Hw, Hc'. subst o2 w2'.
  destruct o as [m|[e|]|]; try done.
  - destruct ((attempt <? max) && isRetryableError e); [|done]. by apply IH.
  - by destruct (attempt <? max).
Qed.

Lemma initialize_forget c c2 w :
  More.forget_key c = More.forget_key c2 →
  (initialize srv c w).1.1 = (initialize srv c2 w).1.1 ∧
  (initialize srv c w).2 = (initialize srv c2 w).2 ∧
  More.forget_key (initialize srv c w).1.2 = More.forget_key (initialize srv c2 w).1.2.
Proof.
  destruct c as [[e a t] s i p], c2 as [[e2 a2 t2] s2 i2 p2].
  unfold More.forget_key. simpl. intros [= -> -> -> -> ->].
  unfold initialize, initialize_start. crunch.
Qed.

(** Outcomes that are alike but for the API key of the client returned. *)
Lemma connect_forget k k' w :
  More.same_but_key k k' →
  match (connect srv k w).1.1, (connect srv k' w).1.1 with
  | Returned c, Returned c2 => More.forget_key c = More.forget_key c2
  | Threw t, Threw t2 => t = t2
  | Hung, Hung => True
  | _, _ => False
  end ∧
  (connect srv k w).2 = (connect srv k' w).2 ∧
  More.same_but_key (connect srv k w).1.2 (connect srv k' w).1.2.
Proof.
  destruct k as [[e a t ra] cl tools], k' as [[e' a' t' ra'] cl' tools'].
  unfold More.same_but_key. simpl. intros (-> & -> & -> & -> & Hcl).
  unfold connect. simpl.
  destruct cl as [c|], cl' as [c2|]; simpl in Hcl; try done.
  { assert (Hf : More.forget_key c = More.forget_key c2) by congruence.
    split_and!; done. }
  match goal with
  | |- context [initialize srv ?x w] =>
      match goal with
      | |- context [initialize srv ?y w] =>
          lazymatch x with
          | y => fail
          | _ => pose proof (initialize_forget x y w eq_refl) as (Ho & Hw & Hc);
                 destruct (initialize srv x w) as [[o1 c1] w1];
                 destruct (initialize srv y w) as [[o1' c1'] w1']
          end
      end
  end.
  simpl in Ho, Hw, Hc. subst o1' w1'.
  destruct o1 as [[]|th|]; simpl; [|by rewrite Hc..].
  unfold listTools.
  pose proof (request_forget {| method := "tools/list"; params := NoParams |}
                c1 c1' w1 Hc) as (Ho2 & Hw2 & Hc2).
  destruct (request srv _ c1 w1) as [[o2 c2] w2].
  destruct (request srv _ c1' w1) as [[o2' c2'] w2'].
  simpl in Ho2, Hw2, Hc2. subst o2' w2'.
  destruct o2 as [m|th|]; simpl; [|by rewrite Hc2..].
  destruct (msg_result m); simpl; by rewrite Hc2.
Qed.

Lemma invoke_forget task context k k' w :
  More.same_but_key k k' →
  (invoke srv task context k w).1.1 = (invoke srv task context k' w).1.1 ∧
  (invoke srv task context k w).2 = (invoke srv task context k' w).2 ∧
  More.same_but_key (invoke srv task context k w).1.2
    (invoke srv task context k' w).1.2.
Proof.
  intros Hk. unfold invoke.
  pose proof (connect_forget k k' w Hk) as (Ho & Hw & Hk1).
  destruct (connect srv k w) as [[o k1] w1].
  destruct (connect srv k' w) as [[o' k1'] w1'].
  simpl in Ho, Hw, Hk1. subst w1'.
  destruct o as [c|th|], o' as [c2|th'|]; try done; [|by subst].
  pose proof Hk1 as (He & Ht & Hr & Htools & Hcl).
  unfold mapTaskToMCPTool, executeWithRetry, maxRetries, invoke_catch.
  rewrite <- Htools, <- Hr.
  destruct (availableTools k1) as [tools|]; [|done].
  destruct (match taskToToolMap !! task_type task with
            | Some toolName => _
            | None => None
            end) as [mcpTool|]; [|done].
  match goal with |- context [retry_loop srv ?n 0 ?max ?r None c w1] =>
    pose proof (retry_loop_forget n 0 max r None c c2 w1 Ho) as (Ho3 & Hw3 & Hc3);
    destruct (retry_loop srv n 0 max r None c w1) as [[o3 c3] w3];
    destruct (retry_loop srv n 0 max r None c2 w1) as [[o3' c3'] w3']
  end.
  simpl in Ho3, Hw3, Hc3. subst o3' w3'.
  pose proof (same_but_key_set_client k1 k1' c3 c3' Hk1 Hc3) as Hset.
  destruct o3 as [resp|[err|]|]; by simpl.
Qed.

Lemma testHealth_forget k k' w :
  More.same_but_key k k' →
  (testHealth srv k w).1.1 = (testHealth srv k' w).1.1 ∧
  (testHealth srv k w).2 = (testHealth srv k' w).2 ∧
  More.same_but_key (testHealth srv k w).1.2 (testHealth srv k' w).1.2.
Proof.
  intros Hk. unfold testHealth.
  pose proof (connect_forget k k' w Hk) as (Ho & Hw & Hk1).
  destruct (connect srv k w) as [[o k1] w1].
  destruct (connect srv k' w) as [[o' k1'] w1'].
  simpl in Ho, Hw, Hk1. subst w1'.
  destruct o as [c|th|], o' as [c2|th'|]; try done.
  pose proof Hk1 as (He & Ht & Hr & Htools & Hcl).
  pose proof (request_forget {| method := "ping"; params := NoParams |}
                c c2 w1 Ho) as (Ho2 & Hw2 & Hc2).
  destruct (request srv _ c w1) as [[o2 c'] w2].
  destruct (request srv _ c2 w1) as [[o2' c2'] w2'].
  simpl in Ho2, Hw2, Hc2. subst o2' w2'.
  pose proof (same_but_key_set_client k1 k1' c' c2' Hk1 Hc2) as Hset.
  by destruct o2 as [m|th|].
Qed.

End WithServer.

Lemma disconnect_forget k k' w :
  More.same_but_key k k' →
  (disconnect k w).2 = (disconnect k' w).2 ∧
  More.same_but_key (disconnect k w).1 (disconnect k' w).1.
Proof.
  destruct k as [[e a t ra] cl tools], k' as [[e' a' t' ra'] cl' tools'].
  unfold More.same_but_key. simpl. intros (-> & -> & -> & -> & Hcl).
  unfold disconnect. simpl.
  destruct cl as [c|], cl' as [c2|]; simpl in Hcl; try done.
  injection Hcl as _ _ Hws Hid Hp.
  unfold close, rejectPendingRequests. rewrite Hws.
  destruct (ws c2); simpl; by rewrite Hp.
Qed.

Lemma perform_forget srv op k k' w :
  More.same_but_key k k' →
  (More.perform srv op k w).2 = (More.perform srv op k' w).2 ∧
  More.same_but_key (More.perform srv op k w).1 (More.perform srv op k' w).1.
Proof.
  intros Hk. destruct op as [|task context| |]; simpl.
  - by destruct (connect_forget srv k k' w Hk) as (_ & ? & ?).
  - by destruct (invoke_forget srv task context k k' w Hk) as (_ & ? & ?).
  - by destruct (testHealth_forget srv k k' w Hk) as (_ & ? & ?).
  - by apply disconnect_forget.
Qed.

Lemma perform_all_forget srv ops k k' w :
  More.same_but_key k k' →
  (More.perform_all srv ops k w).2 = (More.perform_all srv ops k' w).2 ∧
  More.same_but_key (More.perform_all srv ops k w).1 (More.perform_all srv ops k' w).1.
Proof.
  revert k k' w. induction ops as [|op ops IH]; intros k k' w Hk; [done|].
  simpl. pose proof (perform_forget srv op k k' w Hk) as [Hw Hk1].
  destruct (More.perform srv op k w) as [k1 w1].
  destruct (More.perform srv op k' w) as [k1' w1'].
  simpl in Hw, Hk1. subst w1'. by apply IH.
Qed.

End KeyFacts.

(** X26. The API key of the configuration is stored and never used: two
    connectors that are alike but for the key, the one of their own
    configuration and the one of a client they hold, open the same sockets
    and send the same messages at the same times, whatever sequence of
    calls is made on them and whatever the server does; [invoke] and
    [testHealth] return the same on both. *)
Theorem apiKey_is_never_used (srv : Server) (ops : list More.Op) (task : Task)
    (context : WorkspaceContext) (k k' : MCP.CustomMCPConnector) (w : World) :
  More.same_but_key k k' →
  let run := More.perform_all srv ops k w in
  let run' := More.perform_all srv ops k' w in
  run.2 = run'.2 ∧
  (MCP.invoke srv task context run.1 run.2).1.1
    = (MCP.invoke srv task context run'.1 run'.2).1.1 ∧
  (MCP.invoke srv task context run.1 run.2).2
    = (MCP.invoke srv task context run'.1 run'.2).2 ∧
  (MCP.testHealth srv run.1 run.2).1.1 = (MCP.testHealth srv run'.1 run'.2).1.1.
Proof.
  intros Hk run run'.
  destruct (KeyFacts.perform_all_forget srv ops k k' w Hk) as [Hw Hk1].
  fold run run' in Hw, Hk1. rewrite <- Hw.
  destruct (KeyFacts.invoke_forget srv task context run.1 run'.1 run.2 Hk1)
    as (Ho & Hw2 & _).
  destruct (KeyFacts.testHealth_forget srv run.1 run'.1 run.2 Hk1) as (Ho3 & _).
  done.
Qed.

Lemma apiKey_is_never_used_witness :
  (MCP.invoke (Scenario.listing [Scenario.analyzer]) Scenario.analysis_task
     Scenario.empty_context
     (MCP.new_connector (MCP.createCustomMCPConfig (Some "secret") MCP.no_options))
     Scenario.world0).2
  = (MCP.invoke (Scenario.listing [Scenario.analyzer]) Scenario.analysis_task
       Scenario.empty_context
       (MCP.new_connector Scenario.default_config) Scenario.world0).2.
Proof.
  apply (apiKey_is_never_used (Scenario.listing [Scenario.analyzer]) []
           Scenario.analysis_task Scenario.empty_context
           (MCP.new_connector (MCP.createCustomMCPConfig (Some "secret") MCP.no_options))
           (MCP.new_connector Scenario.default_config) Scenario.world0).
  split_and!; reflexivity.
Defined.

(** X27. The [maxResponseTime] of the plugin-command connector is never
    read: whatever value it has, [invoke] gives the same outcome on the same
    host and leaves the same host and, up to that value, the same connector;
    in particular a chat command that never settles leaves [invoke] pending
    for every [maxResponseTime]. *)
Theorem maxResponseTime_is_never_used (task : Task) (context : WorkspaceContext)
    (k : Continue.ContinueConnector) (h : Continue.Host) (t : Z) :
  (Continue.invoke task context (More.with_maxResponseTime t k) h).1.1
    = (Continue.invoke task context k h).1.1 ∧
  (Continue.invoke task context (More.with_maxResponseTime t k) h).2
    = (Continue.invoke task context k h).2 ∧
  (Continue.invoke task context (More.with_maxResponseTime t k) h).1.2
    = More.with_maxResponseTime t (Continue.invoke task context k h).1.2 ∧
  (Continue.getExtension h = Continue.Found → Continue.isActive h = true →
   task_type task ∉ ["completion"; "planning"; "refactoring"] →
   (∀ prompt,
      Continue.executeCommand h "continue.sendChatMessage" prompt = Continue.Never) →
   (Continue.invoke task context (More.with_maxResponseTime t k) h).1.1 = Hung).
Proof.
  assert (Hdispatch : ∀ k1 h1,
    Continue.dispatch (More.with_maxResponseTime t k1) h1 task context
    = Continue.dispatch k1 h1 task context) by done.
  assert (Hsame :
    (Continue.invoke task context (More.with_maxResponseTime t k) h).1.1
      = (Continue.invoke task context k h).1.1 ∧
    (Continue.invoke task context (More.with_maxResponseTime t k) h).2
      = (Continue.invoke task context k h).2 ∧
    (Continue.invoke task context (More.with_maxResponseTime t k) h).1.2
      = More.with_maxResponseTime t (Continue.invoke task context k h).1.2).
  { unfold Continue.invoke, Continue.connect.
    destruct k as [cfg ext init]. simpl.
    destruct ext as [e|], init; simpl; try done.
    all: destruct (Continue.getExtension h); try done.
    all: destruct (Continue.isActive h); try done.
    all: by destruct (Continue.activate h). }
  destruct Hsame as (Ho & Hh & Hk). split_and!; try done.
  intros Hget Hact Hty Hnever. rewrite Ho.
  rewrite !not_elem_of_cons in Hty. destruct Hty as (H1 & H2 & H3 & _).
  assert (Hd : ∀ k1, Continue.dispatch k1 h task context = Hung).
  { intros k1. unfold Continue.dispatch.
    rewrite !bool_decide_eq_false_2 by done.
    unfold Continue.handleAnalysis, Continue.handleGenericTask, Continue.command_then.
    case_bool_decide; by rewrite Hnever. }
  unfold Continue.invoke, Continue.connect.
  destruct (Continue.extension k), (Continue.isInitialized k); simpl;
    rewrite ?Hget, ?Hact; simpl; by rewrite Hd.
Qed.

Lemma maxResponseTime_is_never_used_witness :
  (Continue.invoke Scenario.analysis_task Scenario.empty_context
     (More.with_maxResponseTime 1 Scenario.continue_default)
     Scenario.unresponsive).1.1 = Hung.
Proof.
  apply (maxResponseTime_is_never_used Scenario.analysis_task
           Scenario.empty_context Scenario.continue_default
           Scenario.unresponsive 1).
  - reflexivity.
  - reflexivity.
  - simpl. rewrite !not_elem_of_cons. split_and!; try done. apply not_elem_of_nil.
  - intros prompt. reflexivity.
Defined.
